(** * UniversalAPIWrapper: the request pipeline of [app.ts] and [app.js]

    The repository ships the wrapper twice: the TypeScript class of
    [src/app.ts] and the JavaScript class [app.js] used by the example
    server.  Both are embedded here; where their bodies differ the
    definitions take an [Impl] argument and branch on it. *)

From Stdlib Require Import ZArith Ascii String List Bool Lia.
From stdpp Require Import base option list strings gmap pretty.

Import ListNotations.
Local Open Scope string_scope.
Local Open Scope Z_scope.

Set Warnings "-register-all".

(** ** JavaScript values

    The payloads that travel through the wrapper ([params], [data],
    response bodies, cached entries) are JSON-like values.  Numbers are
    the integers (in the safe range, where [JSON.stringify] prints plain
    decimal digits); an object is the list of its own properties in
    enumeration order. *)

Inductive value : Type :=
| VUndefined
| VNull
| VBool (b : bool)
| VNum (n : Z)
| VStr (s : string)
| VArr (items : list value)
| VObj (props : list (string * value)).

(** [if (v)], [v || w] and [!v]: undefined, null, false, 0 and the empty
    string are falsy, everything else (every array and object too) is
    truthy. *)
Definition truthy (v : value) : bool :=
  match v with
  | VUndefined | VNull => false
  | VBool b => b
  | VNum n => negb (n =? 0)
  | VStr s => negb (String.eqb s EmptyString)
  | VArr _ | VObj _ => true
  end.

(** [a || b] *)
Definition js_or (a b : value) : value := if truthy a then a else b.

(** [if (s)] for an optional string property: absent and the empty string
    are falsy. *)
Definition truthy_str (o : option string) : bool :=
  match o with
  | Some s => negb (String.eqb s EmptyString)
  | None => false
  end.

(** ** [JSON.stringify] *)

Definition dquote : string := String (ascii_of_N 34) EmptyString.

Definition bslash : string := String (ascii_of_N 92) EmptyString.

Definition hex_digit (n : N) : ascii :=
  ascii_of_N (if (n <? 10)%N then 48 + n else 87 + n)%N.

(** One character of a quoted JSON string. *)
Definition escape_char (c : ascii) : string :=
  let n := N_of_ascii c in
  if (n =? 34)%N then bslash ++ dquote
  else if (n =? 92)%N then bslash ++ bslash
  else if (n =? 8)%N then bslash ++ "b"
  else if (n =? 12)%N then bslash ++ "f"
  else if (n =? 10)%N then bslash ++ "n"
  else if (n =? 13)%N then bslash ++ "r"
  else if (n =? 9)%N then bslash ++ "t"
  else if (n <? 32)%N then
    bslash ++ "u00" ++ String (hex_digit (n / 16)) (String (hex_digit (n mod 16)) EmptyString)
  else String c EmptyString.

Fixpoint escape (s : string) : string :=
  match s with
  | EmptyString => EmptyString
  | String c r => escape_char c ++ escape r
  end.

Definition quote (s : string) : string := dquote ++ escape s ++ dquote.

Fixpoint join (sep : string) (l : list string) : string :=
  match l with
  | [] => EmptyString
  | [x] => x
  | x :: r => x ++ sep ++ join sep r
  end.

(** [JSON.stringify v]; [None] is the result [undefined].  Inside an
    array an undefined item prints as [null]; inside an object a property
    whose value is undefined is left out. *)
Fixpoint stringify (v : value) : option string :=
  match v with
  | VUndefined => None
  | VNull => Some "null"
  | VBool b => Some (if b then "true" else "false")
  | VNum n => Some (pretty n)
  | VStr s => Some (quote s)
  | VArr items =>
      Some ("[" ++ join "," (List.map (fun x => default "null" (stringify x)) items) ++ "]")
  | VObj props =>
      let member (kv : string * value) : list string :=
        match stringify (snd kv) with
        | Some s => [quote (fst kv) ++ ":" ++ s]
        | None => []
        end in
      Some ("{" ++ join "," (List.concat (List.map member props)) ++ "}")
  end.

(** A template-literal hole [${x}] holding an optional string. *)
Definition interp (o : option string) : string := default "undefined" o.

(** ** Base64, as [Buffer.from(s).toString('base64')]

    A string is its sequence of (UTF-8) bytes. *)

Definition b64_char (n : N) : ascii :=
  ascii_of_N
    (if (n <? 26)%N then 65 + n
     else if (n <? 52)%N then 97 + (n - 26)
     else if (n <? 62)%N then 48 + (n - 52)
     else if (n =? 62)%N then 43 else 47)%N.

Fixpoint b64_bytes (bs : list N) : string :=
  match bs with
  | [] => EmptyString
  | [a] =>
      String (b64_char (a / 4)) (String (b64_char ((a mod 4) * 16)) "==")
  | [a; b] =>
      String (b64_char (a / 4))
        (String (b64_char ((a mod 4) * 16 + b / 16))
           (String (b64_char ((b mod 16) * 4)) "="))
  | a :: b :: c :: r =>
      String (b64_char (a / 4))
        (String (b64_char ((a mod 4) * 16 + b / 16))
           (String (b64_char ((b mod 16) * 4 + c / 64))
              (String (b64_char (c mod 64)) (b64_bytes r))))
  end%N.

Definition base64 (s : string) : string :=
  b64_bytes (List.map N_of_ascii (list_ascii_of_string s)).

(** ** Configuration *)

Record BasicAuth : Type := { username : string; password : string }.

(** [interface Auth]; every member is optional. *)
Record Auth : Type := {
  apiKey : option string;
  bearerToken : option string;
  basicAuth : option BasicAuth;
  refreshToken : option string;
}.

(** [this.config]: the configuration in effect ([openAPIDocument] is kept
    by the constructor and read nowhere, so it is left out). *)
Record Config : Type := {
  baseURL : string;
  timeout : Z;
  retryAttempts : Z;
  cacheEnabled : bool;
  cacheDuration : Z;
  auth : Auth;
}.

(** [interface WrapperConfig]: what the caller hands to the constructor. *)
Record WrapperConfig : Type := {
  given_baseURL : option string;
  given_timeout : option Z;
  given_retryAttempts : option Z;
  given_cacheEnabled : option bool;
  given_cacheDuration : option Z;
  given_auth : option Auth;
}.

Inductive Impl : Type := AppTs | AppJs.

Definition no_auth : Auth :=
  {| apiKey := None; bearerToken := None; basicAuth := None; refreshToken := None |}.

(** [x || d] on an optional number: absent and 0 give [d]. *)
Definition num_or (x : option Z) (d : Z) : Z :=
  match x with
  | Some n => if n =? 0 then d else n
  | None => d
  end.

(** The constructor.  [app.ts] keeps [given || default] for every member;
    [app.js] builds the same object and then spreads [...config] over it,
    so there a member the caller supplied wins even when it is falsy. *)
Definition constructor (impl : Impl) (c : WrapperConfig) : Config :=
  match impl with
  | AppTs =>
      {| baseURL := default EmptyString (given_baseURL c);
         timeout := num_or (given_timeout c) 30000;
         retryAttempts := num_or (given_retryAttempts c) 3;
         cacheEnabled := default false (given_cacheEnabled c);
         cacheDuration := num_or (given_cacheDuration c) 300000;
         auth := default no_auth (given_auth c) |}
  | AppJs =>
      {| baseURL := default EmptyString (given_baseURL c);
         timeout := default 30000 (given_timeout c);
         retryAttempts := default 3 (given_retryAttempts c);
         cacheEnabled := default false (given_cacheEnabled c);
         cacheDuration := default 300000 (given_cacheDuration c);
         auth := default no_auth (given_auth c) |}
  end.

(** ** Requests *)

(** [AxiosRequestConfig], restricted to the members the wrapper reads or
    writes.  An absent [params] or [data] is [VUndefined]; absent headers
    are the empty map. *)
Record RequestConfig : Type := {
  method : option string;
  url : option string;
  params : value;
  data : value;
  headers : gmap string string;
}.

(** [{ method, url: endpoint, ...options }]: a member of [options] that is
    present replaces the one written before the spread. *)
Definition spread_request (m : option string) (endpoint : string) (options : RequestConfig)
  : RequestConfig :=
  {| method := match method options with Some x => Some x | None => m end;
     url := match url options with Some x => Some x | None => Some endpoint end;
     params := params options;
     data := data options;
     headers := headers options |}.

Definition getAuthHeaders (a : Auth) (existingHeaders : gmap string string)
  : gmap string string :=
  let headers := existingHeaders in
  let headers :=
    if truthy_str (apiKey a)
    then <["X-API-Key" := default EmptyString (apiKey a)]> headers else headers in
  let headers :=
    if truthy_str (bearerToken a)
    then <["Authorization" := "Bearer " ++ default EmptyString (bearerToken a)]> headers
    else headers in
  let headers :=
    match basicAuth a with
    | Some b =>
        let credentials := base64 (username b ++ ":" ++ password b) in
        <["Authorization" := "Basic " ++ credentials]> headers
    | None => headers
    end in
  headers.

Definition getCacheKey (config : RequestConfig) : string :=
  interp (method config) ++ "-" ++ interp (url config) ++ "-"
  ++ interp (stringify (js_or (params config) (VObj []))) ++ "-"
  ++ interp (stringify (js_or (data config) (VObj []))).

(** [String(v)], as a template literal renders a value. *)
Fixpoint to_string (v : value) : string :=
  match v with
  | VUndefined => "undefined"
  | VNull => "null"
  | VBool b => if b then "true" else "false"
  | VNum n => pretty n
  | VStr s => s
  | VArr items =>
      join "," (List.map (fun x => match x with
                                   | VUndefined | VNull => EmptyString
                                   | _ => to_string x
                                   end) items)
  | VObj _ => "[object Object]"
  end.

(** ** Responses, errors and what can be thrown *)

Record AxiosResponse : Type := {
  res_data : value;
  res_status : Z;
  res_config : RequestConfig;
}.

(** The error a failed transport call rejects with: [error.response] is
    present when the server answered, absent for a network failure or a
    timeout. *)
Record AxiosError : Type := {
  err_message : string;
  err_response : option AxiosResponse;
  err_config : RequestConfig;
}.

Inductive thrown : Type :=
| Raw (error : AxiosError)
| Normalized (status : Z) (message : value) (body : value)
| ErrorObj (message : string)
| TypeError (message : string)
| SyntaxError (message : string).

(** [error.message] *)
Definition message_of (t : thrown) : value :=
  match t with
  | Raw error => VStr (err_message error)
  | Normalized _ message _ => message
  | ErrorObj m | TypeError m | SyntaxError m => VStr m
  end.

(** The outcome of synchronous code: a value or a throw. *)
Inductive completion (A : Type) : Type :=
| Normal (a : A)
| Abrupt (t : thrown).
Arguments Normal {A} a.
Arguments Abrupt {A} t.

(** [try { c } catch (e) { h e }] *)
Definition try_catch {A} (c : completion A) (h : thrown -> completion A) : completion A :=
  match c with
  | Normal a => Normal a
  | Abrupt t => h t
  end.

(** The state of a promise once nothing more can happen to it.  [Pending]
    is a promise that never settles: the call waits for a transport
    response that does not arrive. *)
Inductive settled (A : Type) : Type :=
| Fulfilled (a : A)
| Rejected (t : thrown)
| Pending.
Arguments Fulfilled {A} a.
Arguments Rejected {A} t.
Arguments Pending {A}.

(** What [request] resolves to: a bare body, or the whole response
    object. *)
Inductive answer : Type :=
| Body (v : value)
| Wrapper (response : AxiosResponse).

(** ** The world around the wrapper *)

Inductive Outcome : Type :=
| Success (response : AxiosResponse)
| Failure (error : AxiosError).

(** One scripted transport exchange: how long it takes and what the
    transport answers to the request it is handed. *)
Record Exchange : Type := {
  latency : Z;
  respond : RequestConfig -> Outcome;
}.

Inductive Event : Type :=
| Sent (c : RequestConfig)
| Refreshed
| Slept (ms : Z).

(** [config] is [this.config]; [cache] is the store of the [memory-cache]
    module (value and expiry time per key); [now] is the clock in
    milliseconds; [script] holds the transport's future answers, one per
    call; [log] records, oldest first, every transport call, refresh-hook
    call and back-off wait. *)
Record State : Type := {
  config : Config;
  cache : gmap string (value * Z);
  now : Z;
  script : list Exchange;
  log : list Event;
}.

Definition set_bearerToken (token : string) (c : Config) : Config :=
  {| baseURL := baseURL c; timeout := timeout c; retryAttempts := retryAttempts c;
     cacheEnabled := cacheEnabled c; cacheDuration := cacheDuration c;
     auth := {| apiKey := apiKey (auth c); bearerToken := Some token;
                basicAuth := basicAuth (auth c); refreshToken := refreshToken (auth c) |} |}.

Definition set_header (name val : string) (c : RequestConfig) : RequestConfig :=
  {| method := method c; url := url c; params := params c; data := data c;
     headers := <[name := val]> (headers c) |}.

Definition with_headers (h : gmap string string) (c : RequestConfig) : RequestConfig :=
  {| method := method c; url := url c; params := params c; data := data c; headers := h |}.

(** [memoryCache.get]: the stored value while the entry has not expired,
    [null] otherwise. *)
Definition memoryCache_get (key : string) (st : State) : value :=
  match cache st !! key with
  | Some (v, expire) => if now st <=? expire then v else VNull
  | None => VNull
  end.

(** ** The monad of asynchronous wrapper code *)

Definition M (A : Type) : Type := State -> settled A * State.

#[local] Instance M_ret : MRet M := fun A a st => (Fulfilled a, st).

#[local] Instance M_bind : MBind M := fun A B f m st =>
  match m st with
  | (Fulfilled a, st') => f a st'
  | (Rejected t, st') => (Rejected t, st')
  | (Pending, st') => (Pending, st')
  end.

Definition throw {A} (t : thrown) : M A := fun st => (Rejected t, st).

Definition pending {A} : M A := fun st => (Pending, st).

(** [try { await m } catch (e) { h e }] *)
Definition tryCatch {A} (m : M A) (h : thrown -> M A) : M A := fun st =>
  match m st with
  | (Rejected t, st') => h t st'
  | r => r
  end.

Definition lift {A} (c : completion A) : M A :=
  match c with
  | Normal a => mret a
  | Abrupt t => throw t
  end.

Definition this_config : M Config := fun st => (Fulfilled (config st), st).

(** The state transformers of the primitive effects. *)

Definition logged (e : Event) (st : State) : State :=
  {| config := config st; cache := cache st; now := now st; script := script st;
     log := log st ++ [e] |}.

Definition with_entry (key : string) (v : value) (time : Z) (st : State) : State :=
  {| config := config st; cache := <[key := (v, now st + time)]> (cache st);
     now := now st; script := script st; log := log st |}.

Definition with_bearerToken (token : string) (st : State) : State :=
  {| config := set_bearerToken token (config st); cache := cache st; now := now st;
     script := script st; log := log st |}.

Definition waited (ms : Z) (st : State) : State :=
  {| config := config st; cache := cache st; now := now st + ms; script := script st;
     log := log st ++ [Slept ms] |}.

(** The transport took [c], spent [elapsed] on it, and [rest] of its
    script remains. *)
Definition delivered (c : RequestConfig) (elapsed : Z) (rest : list Exchange) (st : State)
  : State :=
  {| config := config st; cache := cache st; now := now st + elapsed; script := rest;
     log := log st ++ [Sent c] |}.

Definition record (e : Event) : M unit := fun st => (Fulfilled tt, logged e st).

(** [memoryCache.put(key, value, time)]: the module refuses a [time]
    that is not positive and throws; otherwise the entry is stored
    with expiry [now + time]. *)
Definition memoryCache_put (key : string) (v : value) (time : Z) : M unit := fun st =>
  if 0 <? time then (Fulfilled tt, with_entry key v time st)
  else (Rejected (ErrorObj "Cache timeout must be a positive number"), st).

(** [this.config.auth.bearerToken = token] *)
Definition store_bearerToken (token : string) : M unit := fun st =>
  (Fulfilled tt, with_bearerToken token st).

(** [await new Promise((resolve) => setTimeout(resolve, ms))] *)
Definition sleep (ms : Z) : M unit := fun st => (Fulfilled tt, waited ms st).

(** One transport call: the request is handed over and the next scripted
    exchange answers it; with no exchange left the call never settles. *)
Definition send (c : RequestConfig) : M Outcome := fun st =>
  match script st with
  | [] => (Pending, delivered c 0 [] st)
  | x :: rest => (Fulfilled (respond x c), delivered c (latency x) rest st)
  end.

(** [o.message] for a value [o]: reading a property of [null] or
    [undefined] throws, any other primitive or an array has no such
    property, an object yields the property or [undefined]. *)
Fixpoint lookup_prop (k : string) (props : list (string * value)) : value :=
  match props with
  | [] => VUndefined
  | (k', v) :: rest => if String.eqb k k' then v else lookup_prop k rest
  end.

Definition get_message (o : value) : completion value :=
  match o with
  | VUndefined => Abrupt (TypeError "Cannot read properties of undefined (reading 'message')")
  | VNull => Abrupt (TypeError "Cannot read properties of null (reading 'message')")
  | VObj props => Normal (lookup_prop "message" props)
  | _ => Normal VUndefined
  end.

(** ** A JSON reader for the examples

    The pipeline below is stated for any [JSON.parse].  To run it on
    concrete documents the examples use [json_parse], a reader for JSON
    texts whose numbers are integer literals and whose [\u] escapes stay
    below U+0080; on those texts it decodes as [JSON.parse] does,
    including the property order of the resulting objects.  Any other
    text is reported as a [SyntaxError]. *)

Definition is_digit (c : ascii) : bool :=
  let n := N_of_ascii c in ((48 <=? n) && (n <=? 57))%N.

Definition digit_of (c : ascii) : N := (N_of_ascii c - 48)%N.

Fixpoint digits_value (acc : N) (s : string) : option N :=
  match s with
  | EmptyString => Some acc
  | String c r => if is_digit c then digits_value (10 * acc + digit_of c)%N r else None
  end.

(** A property name that is an array index ("0", "7", "42", ...) is
    enumerated before every other name, in ascending numeric order. *)
Definition array_index (k : string) : option N :=
  match k with
  | EmptyString => None
  | String c r =>
      if Ascii.eqb c "0" && negb (String.eqb r EmptyString) then None
      else match digits_value 0 k with
           | Some n => if (n <? 4294967295)%N then Some n else None
           | None => None
           end
  end.

Definition enumerated_before (k k' : string) : bool :=
  match array_index k, array_index k' with
  | Some n, Some n' => (n <? n')%N
  | Some _, None => true
  | None, _ => false
  end.

(** [o[k] = v] on the property list of [o]. *)
Fixpoint obj_set (k : string) (v : value) (props : list (string * value))
  : list (string * value) :=
  match props with
  | [] => [(k, v)]
  | (k', v') :: rest =>
      if String.eqb k k' then (k, v) :: rest
      else if enumerated_before k k' then (k, v) :: props
      else (k', v') :: obj_set k v rest
  end.

(** The object that results from writing the properties of [l] one after
    the other, first to last, into an empty object: what an object
    literal or a sequence of assignments builds. *)
Definition object_of (l : list (string * value)) : list (string * value) :=
  List.fold_left (fun props kv => obj_set (fst kv) (snd kv) props) l [].

Definition is_ws (c : ascii) : bool :=
  let n := N_of_ascii c in ((n =? 32) || (n =? 9) || (n =? 10) || (n =? 13))%N.

Fixpoint skip_ws (s : list ascii) : list ascii :=
  match s with
  | c :: r => if is_ws c then skip_ws r else s
  | [] => []
  end.

Fixpoint strip_prefix (p s : list ascii) : option (list ascii) :=
  match p, s with
  | [], _ => Some s
  | a :: p', b :: s' => if Ascii.eqb a b then strip_prefix p' s' else None
  | _ :: _, [] => None
  end.

Definition hex_value (c : ascii) : option N :=
  let n := N_of_ascii c in
  if is_digit c then Some (n - 48)%N
  else if ((97 <=? n) && (n <=? 102))%N then Some (n - 87)%N
  else if ((65 <=? n) && (n <=? 70))%N then Some (n - 55)%N
  else None.

Definition simple_escape (c : ascii) : option ascii :=
  let n := N_of_ascii c in
  if ((n =? 34) || (n =? 92) || (n =? 47))%N then Some c
  else if Ascii.eqb c "b" then Some (ascii_of_N 8)
  else if Ascii.eqb c "f" then Some (ascii_of_N 12)
  else if Ascii.eqb c "n" then Some (ascii_of_N 10)
  else if Ascii.eqb c "r" then Some (ascii_of_N 13)
  else if Ascii.eqb c "t" then Some (ascii_of_N 9)
  else None.

(** The characters after an opening quote, up to the closing one. *)
Fixpoint read_string (s : list ascii) : option (string * list ascii) :=
  match s with
  | [] => None
  | c :: r =>
      let n := N_of_ascii c in
      if (n =? 34)%N then Some (EmptyString, r)
      else if (n <? 32)%N then None
      else if (n =? 92)%N then
        match r with
        | e :: r1 =>
            if Ascii.eqb e "u" then
              match r1 with
              | h1 :: h2 :: h3 :: h4 :: r2 =>
                  match hex_value h1, hex_value h2, hex_value h3, hex_value h4 with
                  | Some a, Some b, Some c', Some d =>
                      let code := (((a * 16 + b) * 16 + c') * 16 + d)%N in
                      if (code <? 128)%N then
                        match read_string r2 with
                        | Some (str, rest) => Some (String (ascii_of_N code) str, rest)
                        | None => None
                        end
                      else None
                  | _, _, _, _ => None
                  end
              | _ => None
              end
            else
              match simple_escape e with
              | Some x =>
                  match read_string r1 with
                  | Some (str, rest) => Some (String x str, rest)
                  | None => None
                  end
              | None => None
              end
        | [] => None
        end
      else
        match read_string r with
        | Some (str, rest) => Some (String c str, rest)
        | None => None
        end
  end.

Fixpoint read_digits (acc : N) (s : list ascii) : N * list ascii :=
  match s with
  | c :: r => if is_digit c then read_digits (10 * acc + digit_of c)%N r else (acc, s)
  | [] => (acc, [])
  end.

(** An integer literal; a fraction or an exponent is refused. *)
Definition read_number (s : list ascii) : option (value * list ascii) :=
  let '(negative, s1) :=
    match s with
    | c :: r => if Ascii.eqb c "-" then (true, r) else (false, s)
    | [] => (false, s)
    end in
  match s1 with
  | d :: r =>
      if is_digit d then
        let '(n, rest) := if Ascii.eqb d "0" then (0%N, r) else read_digits (digit_of d) r in
        let v := VNum (if negative then - Z.of_N n else Z.of_N n) in
        match rest with
        | c :: _ =>
            if Ascii.eqb c "." || Ascii.eqb c "e" || Ascii.eqb c "E" then None
            else Some (v, rest)
        | [] => Some (v, rest)
        end
      else None
  | [] => None
  end.

Fixpoint read_value (fuel : nat) (s : list ascii) : option (value * list ascii) :=
  match fuel with
  | O => None
  | S fuel =>
      match skip_ws s with
      | [] => None
      | c :: r =>
          if Ascii.eqb c "{" then
            match skip_ws r with
            | c2 :: r2 => if Ascii.eqb c2 "}" then Some (VObj [], r2) else read_members fuel r []
            | [] => None
            end
          else if Ascii.eqb c "[" then
            match skip_ws r with
            | c2 :: r2 => if Ascii.eqb c2 "]" then Some (VArr [], r2) else read_items fuel r []
            | [] => None
            end
          else if (N_of_ascii c =? 34)%N then
            match read_string r with
            | Some (str, rest) => Some (VStr str, rest)
            | None => None
            end
          else
            match strip_prefix (list_ascii_of_string "true") (c :: r),
                  strip_prefix (list_ascii_of_string "false") (c :: r),
                  strip_prefix (list_ascii_of_string "null") (c :: r) with
            | Some rest, _, _ => Some (VBool true, rest)
            | _, Some rest, _ => Some (VBool false, rest)
            | _, _, Some rest => Some (VNull, rest)
            | None, None, None => read_number (c :: r)
            end
      end
  end
with read_items (fuel : nat) (s : list ascii) (acc : list value)
  : option (value * list ascii) :=
  match fuel with
  | O => None
  | S fuel =>
      match read_value fuel s with
      | Some (v, r) =>
          match skip_ws r with
          | c :: r' =>
              if Ascii.eqb c "," then read_items fuel r' (acc ++ [v])
              else if Ascii.eqb c "]" then Some (VArr (acc ++ [v]), r')
              else None
          | [] => None
          end
      | None => None
      end
  end
with read_members (fuel : nat) (s : list ascii) (acc : list (string * value))
  : option (value * list ascii) :=
  match fuel with
  | O => None
  | S fuel =>
      match skip_ws s with
      | q :: r =>
          if (N_of_ascii q =? 34)%N then
            match read_string r with
            | Some (k, r1) =>
                match skip_ws r1 with
                | c1 :: r2 =>
                    if Ascii.eqb c1 ":" then
                      match read_value fuel r2 with
                      | Some (v, r3) =>
                          match skip_ws r3 with
                          | c3 :: r4 =>
                              if Ascii.eqb c3 "," then read_members fuel r4 (obj_set k v acc)
                              else if Ascii.eqb c3 "}" then Some (VObj (obj_set k v acc), r4)
                              else None
                          | [] => None
                          end
                      | None => None
                      end
                    else None
                | [] => None
                end
            | None => None
            end
          else None
      | [] => None
      end
  end.

Definition json_parse (s : string) : completion value :=
  let input := list_ascii_of_string s in
  match read_value (2 * List.length input + 2) input with
  | Some (v, rest) =>
      match skip_ws rest with
      | [] => Normal v
      | _ :: _ => Abrupt (SyntaxError "Unexpected non-whitespace character after JSON")
      end
  | None => Abrupt (SyntaxError "Unexpected token in JSON")
  end.

(** Reading one escaped character back: the character whose escape
    begins [s], and what follows it.  A quote ends the string and is no
    escape. *)
Definition unescape_head (s : string) : option (ascii * string) :=
  match s with
  | EmptyString => None
  | String c r =>
      let n := N_of_ascii c in
      if (n =? 34)%N then None
      else if (n =? 92)%N then
        match r with
        | String e r1 =>
            if Ascii.eqb e "u" then
              match r1 with
              | String h1 (String h2 (String h3 (String h4 r2))) =>
                  match hex_value h1, hex_value h2, hex_value h3, hex_value h4 with
                  | Some a, Some b, Some c', Some d =>
                      Some (ascii_of_N (((a * 16 + b) * 16 + c') * 16 + d), r2)
                  | _, _, _, _ => None
                  end
              | _ => None
              end
            else
              match simple_escape e with
              | Some x => Some (x, r1)
              | None => None
              end
        | EmptyString => None
        end
      else Some (c, r)
  end.

Definition with_params (p : value) (c : RequestConfig) : RequestConfig :=
  {| method := method c; url := url c; params := p; data := data c; headers := headers c |}.

Definition with_data (d : value) (c : RequestConfig) : RequestConfig :=
  {| method := method c; url := url c; params := params c; data := d; headers := headers c |}.

(** ** WebSocket options, events and handles *)

(** What the [ws] module hands a ['message'] listener, and what the
    listener hands on to [onMessage]: a JSON-like value (a string as it
    arrives, whatever [parseResponse] makes of it afterwards), or a
    Node [Buffer] holding the bytes of a frame. *)
Inductive SocketData : Type :=
| Plain (v : value)
| Buffer (bytes : string).

(** The callbacks are the caller's code: each returns or throws. *)
Record WebSocketOptions (A : Type) : Type := {
  onOpen : option (completion A);
  onMessage : option (SocketData -> completion A);
  onError : option (thrown -> completion A);
  onClose : option (completion A);
}.
Arguments onOpen {A} _.
Arguments onMessage {A} _.
Arguments onError {A} _.
Arguments onClose {A} _.

Inductive SocketEvent : Type :=
| EvOpen
| EvMessage (data : SocketData)
| EvError (error : thrown)
| EvClose.

(** A text frame as a ['message'] listener receives it from [ws] 8 and
    later: a [Buffer] of the frame's bytes (earlier versions handed a
    text frame over as a string).  The repository's own scripts test
    [Buffer.isBuffer(data)] in [onMessage] and call
    [message.toString()] on what they receive. *)
Definition text_frame (text : string) : SocketData := Buffer text.

Record WebSocketHandle (A : Type) : Type := {
  ws_url : string;
  emit : SocketEvent -> completion (option A);
}.
Arguments ws_url {A} _.
Arguments emit {A} _ _.

(** ** Fixtures for the examples

    Transports that answer with the configuration they were sent, a
    wrapper freshly constructed over them, and the two refresh hooks the
    examples use: the repository's placeholder and one that fails. *)

Definition getNewAccessToken_placeholder : State -> completion string :=
  fun _ => Normal "new-access-token".

Definition failing_hook : State -> completion string :=
  fun _ => Abrupt (ErrorObj "refresh failed").

(** A transport that hands the configuration back as it received it. *)
Definition answers (status : Z) (body : value) : Exchange :=
  {| latency := 20;
     respond := fun c =>
       Success {| res_data := body; res_status := status; res_config := c |} |}.

Definition lower_char (c : ascii) : ascii :=
  let n := N_of_ascii c in
  if ((65 <=? n) && (n <=? 90))%N then ascii_of_N (n + 32) else c.

Fixpoint lower_case (s : string) : string :=
  match s with
  | EmptyString => EmptyString
  | String c r => String (lower_char c) (lower_case r)
  end.

(** The configuration axios attaches to a response, as far as the
    wrapper reads it: the one it was handed, with the method in lower
    case ([get] when none was given) and an object or array body
    serialised to JSON text. *)
Definition axios_config (c : RequestConfig) : RequestConfig :=
  {| method := Some (lower_case (default "get" (method c)));
     url := url c;
     params := params c;
     data := match data c with
             | VObj _ | VArr _ => VStr (interp (stringify (data c)))
             | d => d
             end;
     headers := headers c |}.

(** A transport that answers as axios does. *)
Definition axios_answers (status : Z) (body : value) : Exchange :=
  {| latency := 20;
     respond := fun c =>
       Success {| res_data := body; res_status := status; res_config := axios_config c |} |}.

Definition error_with (status : Z) (body : value) (c : RequestConfig) : AxiosError :=
  {| err_message := "Request failed with status code " ++ pretty status;
     err_response := Some {| res_data := body; res_status := status; res_config := c |};
     err_config := c |}.

Definition fails_with (status : Z) (body : value) : Exchange :=
  {| latency := 20; respond := fun c => Failure (error_with status body c) |}.

Definition timeout_error (c : RequestConfig) : AxiosError :=
  {| err_message := "timeout of 5000ms exceeded"; err_response := None; err_config := c |}.

Definition times_out : Exchange :=
  {| latency := 5000; respond := fun c => Failure (timeout_error c) |}.

Definition started (cfg : Config) (answers : list Exchange) : State :=
  {| config := cfg; cache := ∅; now := 0; script := answers; log := [] |}.

(** The wrapper of the test suite and of the example server. *)
Definition jsonplaceholder_config (impl : Impl) : Config :=
  constructor impl
    {| given_baseURL := Some "https://jsonplaceholder.typicode.com";
       given_timeout := Some 5000;
       given_retryAttempts := Some 3;
       given_cacheEnabled := Some true;
       given_cacheDuration := None;
       given_auth := None |}.

(** The same wrapper holding a bearer token and a refresh token. *)
Definition refreshing_config (impl : Impl) : Config :=
  constructor impl
    {| given_baseURL := Some "https://api.example.com";
       given_timeout := None;
       given_retryAttempts := Some 3;
       given_cacheEnabled := None;
       given_cacheDuration := None;
       given_auth := Some {| apiKey := None; bearerToken := Some "stale";
                             basicAuth := None; refreshToken := Some "refresh-me" |} |}.

Definition post1 : value := VObj [("id", VNum 1); ("title", VStr "x")].

Definition get_options (p : value) : RequestConfig :=
  {| method := None; url := None; params := p; data := VUndefined; headers := ∅ |}.

Definition get_request (endpoint : string) (p : value) : RequestConfig :=
  spread_request (Some "GET") endpoint (get_options p).

(** A cache that holds [v] under [key] until [expire]. *)
Definition holding (key : string) (v : value) (expire : Z) (st : State) : State :=
  {| config := config st; cache := <[key := (v, expire)]> (cache st); now := now st;
     script := script st; log := log st |}.

Section Pipeline.

(** [JSON.parse]: the decoded value, or a thrown [SyntaxError]. *)
Variable JSON_parse : string -> completion value.

(** The refresh hook.  The repository's body is the placeholder
    [getNewAccessToken_placeholder] above, written under the comment
    "Implement your token refresh logic here"; the pipeline is stated
    for any hook, which may also fail. *)
Variable getNewAccessToken : State -> completion string.

Definition parseResponse (d : value) : completion value :=
  match d with
  | VStr s => try_catch (JSON_parse s) (fun _ => Normal d)
  | _ => Normal d
  end.

Definition handleResponse (impl : Impl) (response : AxiosResponse) : M answer :=
  match impl with
  | AppJs =>
      tryCatch
        (d ← lift (parseResponse (res_data response));
         c ← this_config;
         (if cacheEnabled c
          then memoryCache_put (getCacheKey (res_config response)) d (cacheDuration c)
          else mret tt);;
         mret (Body d))
        (fun error =>
           throw (ErrorObj ("Response parsing error: " ++ to_string (message_of error))))
  | AppTs =>
      d ← lift (parseResponse (res_data response));
      c ← this_config;
      (if cacheEnabled c
       then memoryCache_put (getCacheKey (res_config response)) d (cacheDuration c)
       else mret tt);;
      mret (Wrapper response)
  end.

(** [await this.getNewAccessToken()] *)
Definition call_refresh_hook : M string := fun st =>
  match getNewAccessToken st with
  | Normal token => (record Refreshed;; mret token) st
  | Abrupt t => (record Refreshed;; throw t) st
  end.

(** [resubmit] stands for [this.axiosInstance]. *)
Definition refreshTokenAndRetry (impl : Impl) (resubmit : RequestConfig -> M answer)
    (error : AxiosError) : M answer :=
  let body : M answer :=
    newToken ← call_refresh_hook;
    store_bearerToken newToken;;
    resubmit (set_header "Authorization" ("Bearer " ++ newToken) (err_config error)) in
  match impl with
  | AppJs => tryCatch body (fun refreshError => throw refreshError)
  | AppTs => body
  end.

Definition handleError (impl : Impl) (resubmit : RequestConfig -> M answer)
    (error : AxiosError) : M answer :=
  match err_response error with
  | Some response =>
      c ← this_config;
      if (res_status response =? 401) && truthy_str (refreshToken (auth c))
      then refreshTokenAndRetry impl resubmit error
      else
        match impl with
        | AppJs =>
            message ← lift (get_message (res_data response));
            throw (Normalized (res_status response)
                     (js_or message (VStr (err_message error)))
                     (res_data response))
        | AppTs => throw (Raw error)
        end
  | None => throw (Raw error)
  end.

(** [this.axiosInstance(c)]: the request interceptor sets the headers,
    the transport is called, and the response interceptors take the
    outcome.  [handleError] may call the instance again; every such call
    consumes one scripted exchange, so a fuel of one more than the
    exchanges left is never used up. *)
Fixpoint axiosInstance_from (fuel : nat) (impl : Impl) (c : RequestConfig) : M answer :=
  match fuel with
  | O => pending
  | S fuel' =>
      cfg ← this_config;
      o ← send (with_headers (getAuthHeaders (auth cfg) (headers c)) c);
      match o with
      | Success response => handleResponse impl response
      | Failure error => handleError impl (axiosInstance_from fuel' impl) error
      end
  end.

Definition axiosInstance (impl : Impl) (c : RequestConfig) : M answer := fun st =>
  axiosInstance_from (S (length (script st))) impl c st.

(** What follows the [while] loop when its condition is false:
    [app.ts] throws, [app.js] falls off the end of the function. *)
Definition after_loop (impl : Impl) : M answer :=
  match impl with
  | AppTs => throw (ErrorObj "Max retry attempts reached")
  | AppJs => mret (Body VUndefined)
  end.

(** The [while (attempts < this.config.retryAttempts)] loop, entered
    with the given value of [attempts]. *)
Fixpoint retry_loop (fuel : nat) (impl : Impl) (c : RequestConfig) (attempts : Z)
  : M answer :=
  cfg ← this_config;
  if attempts <? retryAttempts cfg then
    match fuel with
    | O => pending
    | S fuel' =>
        tryCatch (axiosInstance impl c)
          (fun error =>
             let attempts := attempts + 1 in
             cfg ← this_config;
             if attempts =? retryAttempts cfg then throw error
             else sleep (1000 * attempts);; retry_loop fuel' impl c attempts)
    end
  else after_loop impl.

Definition default_method (impl : Impl) (m : option string) (options : RequestConfig)
  : option string :=
  match impl with
  | AppJs =>
      if truthy_str m then m
      else if truthy (data options) then Some "POST" else Some "GET"
  | AppTs => m
  end.

Definition request (impl : Impl) (m : option string) (endpoint : string)
    (options : RequestConfig) : M answer := fun st =>
  let m := default_method impl m options in
  let c := spread_request m endpoint options in
  let cacheKey := getCacheKey c in
  if cacheEnabled (config st) && truthy (memoryCache_get cacheKey st)
  then (Fulfilled (Body (memoryCache_get cacheKey st)), st)
  else retry_loop (Z.to_nat (retryAttempts (config st))) impl c 0 st.

(** [get(endpoint, params = {})] *)
Definition get (impl : Impl) (endpoint : string) (p : value) : M answer :=
  let p := match p with VUndefined => VObj [] | _ => p end in
  request impl (Some "GET") endpoint
    {| method := None; url := None; params := p; data := VUndefined; headers := ∅ |}.

(** *** WebSocket wiring

    [connectWebSocket] registers one listener per lifecycle event.  The
    handle is modelled by what its listeners do when the socket emits
    an event: [Normal None] when the option is absent (the optional
    call [?.] then evaluates nothing, its argument included),
    [Normal (Some x)] when the callback returned [x], and the
    callback's throw when it threw. *)

(** [this.parseResponse(data)] on what a socket hands over: a [Buffer]
    is not a string ([typeof] gives ['object']), so it is returned as it
    is. *)
Definition parseResponse_data (data : SocketData) : completion SocketData :=
  match data with
  | Plain v =>
      match parseResponse v with
      | Normal d => Normal (Plain d)
      | Abrupt t => Abrupt t
      end
  | Buffer bytes => Normal (Buffer bytes)
  end.

(** [callback?.(...)] as a listener body. *)
Definition called {A} (c : completion A) : completion (option A) :=
  match c with
  | Normal a => Normal (Some a)
  | Abrupt t => Abrupt t
  end.

Definition connectWebSocket {A} (url : string) (options : WebSocketOptions A)
  : WebSocketHandle A :=
  {| ws_url := url;
     emit := fun ev =>
       match ev with
       | EvOpen =>
           match onOpen options with
           | Some callback => called callback
           | None => Normal None
           end
       | EvMessage data =>
           match onMessage options with
           | Some callback =>
               match parseResponse_data data with
               | Normal d => called (callback d)
               | Abrupt t => Abrupt t
               end
           | None => Normal None
           end
       | EvError error =>
           match onError options with
           | Some callback => called (callback error)
           | None => Normal None
           end
       | EvClose =>
           match onClose options with
           | Some callback => called callback
           | None => Normal None
           end
       end |}.

(** *** Vocabulary of the statements *)

(** The value [parseResponse] settles on. *)
Definition decoded (d : value) : value :=
  match d with
  | VStr s => match JSON_parse s with Normal v => v | Abrupt _ => d end
  | _ => d
  end.

(** The request as the transport receives it: the request interceptor
    has replaced the headers. *)
Definition outgoing (st : State) (c : RequestConfig) : RequestConfig :=
  with_headers (getAuthHeaders (auth (config st)) (headers c)) c.

(** What a successful response leaves behind when the store accepts
    it, and what it resolves to. *)
Definition cached_response (response : AxiosResponse) (st : State) : State :=
  if cacheEnabled (config st)
  then with_entry (getCacheKey (res_config response)) (decoded (res_data response))
         (cacheDuration (config st)) st
  else st.

Definition answer_of (impl : Impl) (response : AxiosResponse) : answer :=
  match impl with
  | AppJs => Body (decoded (res_data response))
  | AppTs => Wrapper response
  end.

(** What [handleResponse] throws when caching is on and the store
    refuses the configured duration: [app.ts] lets the store's error
    through, [app.js] catches it and throws its own. *)
Definition put_error (impl : Impl) : thrown :=
  match impl with
  | AppTs => ErrorObj "Cache timeout must be a positive number"
  | AppJs => ErrorObj "Response parsing error: Cache timeout must be a positive number"
  end.

(** What [handleError] throws outside the refresh branch. *)
Definition surfaced (impl : Impl) (error : AxiosError) : thrown :=
  match impl, err_response error with
  | AppJs, Some response =>
      match get_message (res_data response) with
      | Normal message =>
          Normalized (res_status response) (js_or message (VStr (err_message error)))
            (res_data response)
      | Abrupt t => t
      end
  | _, _ => Raw error
  end.

(** The branch of [handleError] that refreshes the token. *)
Definition refresh_case (cfg : Config) (error : AxiosError) : bool :=
  match err_response error with
  | Some response => (res_status response =? 401) && truthy_str (refreshToken (auth cfg))
  | None => false
  end.

(** An exchange that fails whatever it is sent, outside the refresh
    branch. *)
Definition plain_failure (cfg : Config) (x : Exchange) : Prop :=
  ∀ c, ∃ error, respond x c = Failure error ∧ refresh_case cfg error = false.

(** No usable cache entry for the key: caching is off, or the lookup
    yields a falsy value. *)
Definition cache_miss (key : string) (st : State) : Prop :=
  cacheEnabled (config st) && truthy (memoryCache_get key st) = false.

(** The events of [k] failed attempts, each followed by its back-off
    wait, when [n] attempts failed before them. *)
Fixpoint backoff_trace (c : RequestConfig) (n : Z) (k : nat) : list Event :=
  match k with
  | O => []
  | S k' => Sent c :: Slept (1000 * (n + 1)) :: backoff_trace c (n + 1) k'
  end.

Definition sends (l : list Event) : nat :=
  List.length (List.filter (fun e => match e with Sent _ => true | _ => false end) l).

Definition refreshes (l : list Event) : nat :=
  List.length (List.filter (fun e => match e with Refreshed => true | _ => false end) l).

(** From [st] to [st']: [k] attempts failed and were waited for, one
    more request was sent, and [rest] is what is left of the script. *)
Definition attempts_made (c : RequestConfig) (k : nat) (rest : list Exchange)
    (st st' : State) : Prop :=
  script st' = rest
  ∧ log st' = (log st ++ backoff_trace (outgoing st c) 0 k ++ [Sent (outgoing st c)])%list.


(** *** The verb facades *)

(** [{ data, ...config }]: a [data] member of [config] replaces the
    body written before the spread.  A [config] whose [data] reads
    [undefined] stands for one that has no such member. *)
Definition body_then (d : value) (cfg : RequestConfig) : RequestConfig :=
  {| method := method cfg; url := url cfg; params := params cfg;
     data := match data cfg with VUndefined => d | x => x end;
     headers := headers cfg |}.

(** A parameter declared [= {}]: the default applies to [undefined]
    only. *)
Definition or_empty_object (v : value) : value :=
  match v with VUndefined => VObj [] | _ => v end.

Definition post (impl : Impl) (endpoint : string) (d : value) (cfg : RequestConfig)
  : M answer :=
  request impl (Some "POST") endpoint (body_then (or_empty_object d) cfg).

Definition put (impl : Impl) (endpoint : string) (d : value) (cfg : RequestConfig)
  : M answer :=
  request impl (Some "PUT") endpoint (body_then (or_empty_object d) cfg).

Definition patch (impl : Impl) (endpoint : string) (d : value) (cfg : RequestConfig)
  : M answer :=
  request impl (Some "PATCH") endpoint (body_then (or_empty_object d) cfg).

(** The method [delete]. *)
Definition delete_request (impl : Impl) (endpoint : string) (cfg : RequestConfig)
  : M answer :=
  request impl (Some "DELETE") endpoint cfg.

(** [{ data: { query, variables } }] *)
Definition graphql_options (query : string) (variables : value) : RequestConfig :=
  {| method := None; url := None; params := VUndefined;
     data := VObj [("query", VStr query); ("variables", or_empty_object variables)];
     headers := ∅ |}.

Definition queryGraphQL (impl : Impl) (endpoint : string) (query : string)
    (variables : value) : M answer :=
  request impl (Some "POST") endpoint (graphql_options query variables).

Definition mutationGraphQL (impl : Impl) (endpoint : string) (mutation : string)
    (variables : value) : M answer :=
  request impl (Some "POST") endpoint (graphql_options mutation variables).

(** *** More vocabulary *)

(** The members of an object that [JSON.stringify] prints. *)
Definition printed_members (props : list (string * value)) : list (string * value) :=
  List.filter (fun kv => match snd kv with VUndefined => false | _ => true end) props.

(** Two configurations that differ at most in [auth.bearerToken]. *)
Definition same_but_bearerToken (c c' : Config) : Prop :=
  baseURL c' = baseURL c ∧ timeout c' = timeout c
  ∧ retryAttempts c' = retryAttempts c ∧ cacheEnabled c' = cacheEnabled c
  ∧ cacheDuration c' = cacheDuration c ∧ apiKey (auth c') = apiKey (auth c)
  ∧ basicAuth (auth c') = basicAuth (auth c)
  ∧ refreshToken (auth c') = refreshToken (auth c).

(** The milliseconds spent in back-off waits. *)
Fixpoint waits (l : list Event) : Z :=
  match l with
  | [] => 0
  | Slept ms :: r => ms + waits r
  | _ :: r => waits r
  end.

(** An exchange that answers 401 to whatever it is sent. *)
Definition always_401 (x : Exchange) : Prop :=
  ∀ c, ∃ error response,
    respond x c = Failure error ∧ err_response error = Some response
    ∧ res_status response = 401.

(** *** OpenAIWrapper

    The subclass of the [app.ts] wrapper.  An instance is the wrapper it
    extends ([http]), the OpenAI client it holds, and the two members
    its methods read with [this.cacheEnabled] and [this.cacheDuration].
    The class declares neither member and assigns neither, so a freshly
    constructed instance reads [undefined] for both; they are kept as
    members because the index signature lets a caller assign them. *)

Inductive ClientMethod : Type :=
| ChatCompletionsCreate
| ImagesGenerate.

Inductive InstanceEvent : Type :=
| ClientCalled (method : ClientMethod) (p : value)
| PutStarted (key : string) (body : value).

(** [client] holds the client's future answers, one per call;
    [history] records, oldest first, every call of the client and every
    [this.put] that [saveToCache] starts without awaiting it. *)
Record Instance : Type := {
  http : State;
  own_cacheEnabled : value;
  own_cacheDuration : value;
  client : list (value -> completion value);
  history : list InstanceEvent;
}.

(** [interface OpenAIConfig] *)
Record OpenAIConfig : Type := {
  oa_apiKey : string;
  oa_baseURL : option string;
  oa_timeout : option Z;
  oa_maxRetries : option Z;
  oa_cacheEnabled : option bool;
  oa_cacheDuration : option Z;
}.

Definition or_default_url (o : option string) : string :=
  match o with
  | Some s => if String.eqb s EmptyString then "https://api.openai.com/v1" else s
  | None => "https://api.openai.com/v1"
  end.

(** The constructor: [super({...})] builds the configuration; [world]
    is the cache, the clock and the transport the new wrapper finds. *)
Definition new_OpenAIWrapper (cfg : OpenAIConfig) (answers : list (value -> completion value))
    (world : State) : Instance :=
  {| http :=
       {| config :=
            constructor AppTs
              {| given_baseURL := Some (or_default_url (oa_baseURL cfg));
                 given_timeout := oa_timeout cfg;
                 given_retryAttempts := oa_maxRetries cfg;
                 given_cacheEnabled := oa_cacheEnabled cfg;
                 given_cacheDuration := oa_cacheDuration cfg;
                 given_auth := Some {| apiKey := Some (oa_apiKey cfg); bearerToken := None;
                                       basicAuth := None; refreshToken := None |} |};
          cache := cache world; now := now world; script := script world;
          log := log world |};
     own_cacheEnabled := VUndefined;
     own_cacheDuration := VUndefined;
     client := answers;
     history := [] |}.

Definition OM (A : Type) : Type := Instance -> settled A * Instance.

#[local] Instance OM_ret : MRet OM := fun A a w => (Fulfilled a, w).

#[local] Instance OM_bind : MBind OM := fun A B f m w =>
  match m w with
  | (Fulfilled a, w') => f a w'
  | (Rejected t, w') => (Rejected t, w')
  | (Pending, w') => (Pending, w')
  end.

Definition othrow {A} (t : thrown) : OM A := fun w => (Rejected t, w).

Definition olift {A} (c : completion A) : OM A :=
  match c with
  | Normal a => mret a
  | Abrupt t => othrow t
  end.

Definition with_http (st : State) (w : Instance) : Instance :=
  {| http := st; own_cacheEnabled := own_cacheEnabled w;
     own_cacheDuration := own_cacheDuration w; client := client w; history := history w |}.

Definition noted (e : InstanceEvent) (w : Instance) : Instance :=
  {| http := http w; own_cacheEnabled := own_cacheEnabled w;
     own_cacheDuration := own_cacheDuration w; client := client w;
     history := history w ++ [e] |}.

Definition note (e : InstanceEvent) : OM unit := fun w => (Fulfilled tt, noted e w).

(** A method of the wrapper this class extends, awaited. *)
Definition inherited {A} (m : M A) : OM A := fun w =>
  let '(r, st) := m (http w) in (r, with_http st w).

(** [this.cacheEnabled] *)
Definition this_cacheEnabled : OM value := fun w => (Fulfilled (own_cacheEnabled w), w).

(** The client took a call and [rest] of its answers remain. *)
Definition answered (e : InstanceEvent) (rest : list (value -> completion value))
    (w : Instance) : Instance :=
  {| http := http w; own_cacheEnabled := own_cacheEnabled w;
     own_cacheDuration := own_cacheDuration w; client := rest;
     history := history w ++ [e] |}.

(** [await this.openai.<method>(p)]: the next scripted answer of the
    client; with none left the call never settles. *)
Definition call_client (method : ClientMethod) (p : value) : OM value := fun w =>
  match client w with
  | [] => (Pending, noted (ClientCalled method p) w)
  | x :: rest =>
      (match x p with
       | Normal response => Fulfilled response
       | Abrupt t => Rejected t
       end, answered (ClientCalled method p) rest w)
  end.

Definition getFromCache (key : string) : OM answer :=
  enabled ← this_cacheEnabled;
  if truthy enabled then inherited (get AppTs key VUndefined) else mret (Body VNull).

(** [this.put(key, value, this.cacheDuration)] is started and not
    awaited: the call is recorded, what becomes of it is not followed. *)
Definition saveToCache (key : string) (v : value) : OM unit :=
  enabled ← this_cacheEnabled;
  if truthy enabled then note (PutStarted key v) else mret tt.

(** The promise resolves with what [getFromCache] returned, and follows
    it when that is a promise. *)
Definition getCachedResponse (key : string) : OM answer := getFromCache key.

Definition cacheResponse (key : string) (response : value) : OM unit :=
  saveToCache key response.

(** [if (x)] on what a call resolved to; a response object is an
    object and so truthy. *)
Definition answer_truthy (a : answer) : bool :=
  match a with
  | Body v => truthy v
  | Wrapper _ => true
  end.

(** ['choices' in o]: the operator throws on a primitive; no array and
    no built-in prototype has a member of that name. *)
Definition in_choices (o : value) : completion bool :=
  match o with
  | VObj props => Normal (existsb (fun kv => String.eqb (fst kv) "choices") props)
  | VArr _ => Normal false
  | _ => Abrupt (TypeError ("Cannot use 'in' operator to search for 'choices' in "
                            ++ to_string o))
  end.

Definition chat (p : value) : OM answer :=
  enabled ← this_cacheEnabled;
  hit ← (if truthy enabled
         then
           cachedResponse ← getCachedResponse ("chat-" ++ interp (stringify p));
           mret (if answer_truthy cachedResponse then Some cachedResponse else None)
         else mret None);
  match hit with
  | Some cachedResponse => mret cachedResponse
  | None =>
      response ← call_client ChatCompletionsCreate p;
      enabled ← this_cacheEnabled;
      (if truthy enabled
       then cacheResponse ("chat-" ++ interp (stringify p)) response
       else mret tt);;
      found ← olift (in_choices response);
      if (found : bool) then mret (Body response)
      else othrow (ErrorObj "Invalid response format from OpenAI chat completion")
  end.

Definition createImage (p : value) : OM answer :=
  enabled ← this_cacheEnabled;
  hit ← (if truthy enabled
         then
           cachedResponse ← getCachedResponse ("image-" ++ interp (stringify p));
           mret (if answer_truthy cachedResponse then Some cachedResponse else None)
         else mret None);
  match hit with
  | Some cachedResponse => mret cachedResponse
  | None =>
      response ← call_client ImagesGenerate p;
      enabled ← this_cacheEnabled;
      (if truthy enabled
       then cacheResponse ("image-" ++ interp (stringify p)) response
       else mret tt);;
      mret (Body response)
  end.

(** [o.name] for a name that no built-in prototype defines ([choices],
    [message], [content]). *)
Definition read_member (name : string) (o : value) : completion value :=
  match o with
  | VUndefined =>
      Abrupt (TypeError ("Cannot read properties of undefined (reading '" ++ name ++ "')"))
  | VNull =>
      Abrupt (TypeError ("Cannot read properties of null (reading '" ++ name ++ "')"))
  | VObj props => Normal (lookup_prop name props)
  | _ => Normal VUndefined
  end.

(** [o?.name] *)
Definition read_member_opt (name : string) (o : value) : value :=
  match o with
  | VObj props => lookup_prop name props
  | _ => VUndefined
  end.

(** [o[0]] *)
Definition read_first (o : value) : completion value :=
  match o with
  | VUndefined => Abrupt (TypeError "Cannot read properties of undefined (reading '0')")
  | VNull => Abrupt (TypeError "Cannot read properties of null (reading '0')")
  | VArr items => Normal (List.hd VUndefined items)
  | VStr (String ch _) => Normal (VStr (String ch EmptyString))
  | VObj props => Normal (lookup_prop "0" props)
  | _ => Normal VUndefined
  end.

(** [response.choices] on what [chat] resolved to; a response object
    of the wrapper has no such member. *)
Definition answer_choices (a : answer) : completion value :=
  match a with
  | Body v => read_member "choices" v
  | Wrapper _ => Normal VUndefined
  end.

(** [response.choices[0]?.message?.content || ''] *)
Definition first_content (a : answer) : completion value :=
  match answer_choices a with
  | Normal choices =>
      match read_first choices with
      | Normal choice =>
          Normal (js_or (read_member_opt "content" (read_member_opt "message" choice))
                    (VStr EmptyString))
      | Abrupt t => Abrupt t
      end
  | Abrupt t => Abrupt t
  end.

Definition analysis_request (text instructions : string) : value :=
  VObj [("messages",
         VArr [VObj [("role", VStr "system"); ("content", VStr instructions)];
               VObj [("role", VStr "user"); ("content", VStr text)]]);
        ("model", VStr "gpt-3.5-turbo")].

Definition analyze (text instructions : string) : OM value :=
  response ← chat (analysis_request text instructions);
  olift (first_content response).

(** [maxLength] is an optional number. *)
Definition summarize (text : string) (maxLength : option Z) : OM value :=
  let instructions :=
    match maxLength with
    | Some n =>
        if n =? 0 then "Summarize the following text:"
        else "Summarize the following text in no more than " ++ pretty n ++ " words:"
    | None => "Summarize the following text:"
    end in
  analyze text instructions.

Definition translate (text targetLanguage : string) : OM value :=
  let instructions := "Translate the following text to " ++ targetLanguage ++ ":" in
  analyze text instructions.

(** *** Fixtures for the further runs *)

(** A wrapper constructed with [retryAttempts: 0] and nothing else. *)
Definition no_budget : WrapperConfig :=
  {| given_baseURL := None; given_timeout := None; given_retryAttempts := Some 0;
     given_cacheEnabled := None; given_cacheDuration := None; given_auth := None |}.

(** An OpenAI wrapper configured with caching on, as the test suite does. *)
Definition openai_config : OpenAIConfig :=
  {| oa_apiKey := "sk-test"; oa_baseURL := None; oa_timeout := None;
     oa_maxRetries := Some 3; oa_cacheEnabled := Some true;
     oa_cacheDuration := Some 60000 |}.

(** A chat completion whose first choice says "hello". *)
Definition completion_hello : value :=
  VObj [("id", VStr "chatcmpl-1");
        ("choices",
         VArr [VObj [("index", VNum 0);
                     ("message", VObj [("role", VStr "assistant");
                                       ("content", VStr "hello")])]])].

(** The instance after a caller assigned [cacheEnabled = true]. *)
Definition assigned_cacheEnabled (w : Instance) : Instance :=
  {| http := http w; own_cacheEnabled := VBool true;
     own_cacheDuration := own_cacheDuration w; client := client w;
     history := history w |}.


(** ** Facts about the pipeline *)

Ltac run :=
  repeat (unfold mbind, M_bind, mret, M_ret, this_config, lift, throw, pending, record,
            memoryCache_put, store_bearerToken, sleep; cbn beta iota).

(** *** Quoted strings are self-delimiting *)

Lemma append_assoc (a b c : string) : (a ++ b) ++ c = a ++ (b ++ c).
Proof.
  induction a as [|x a IH]; [reflexivity|].
  change (String x ((a ++ b) ++ c) = String x (a ++ (b ++ c))).
  rewrite IH. reflexivity.
Qed.

Lemma unescape_head_escape_char (c : ascii) (rest : string) :
  unescape_head (escape_char c ++ rest) = Some (c, rest).
Proof. destruct c as [[] [] [] [] [] [] [] []]; reflexivity. Qed.

Lemma escape_prefix_free (k1 : string) :
  ∀ k2 x y, escape k1 ++ dquote ++ x = escape k2 ++ dquote ++ y → k1 = k2 ∧ x = y.
Proof.
  induction k1 as [|c1 k1 IH]; intros [|c2 k2] x y H; cbn [escape] in H.
  - split; [reflexivity|]. injection H. auto.
  - apply (f_equal unescape_head) in H.
    rewrite append_assoc, unescape_head_escape_char in H. discriminate.
  - apply (f_equal unescape_head) in H.
    rewrite append_assoc, unescape_head_escape_char in H. discriminate.
  - apply (f_equal unescape_head) in H.
    rewrite !append_assoc, !unescape_head_escape_char in H.
    injection H as -> H. destruct (IH _ _ _ H) as [-> ->]. split; reflexivity.
Qed.

Lemma quote_prefix_free (k1 k2 x y : string) :
  quote k1 ++ x = quote k2 ++ y → k1 = k2 ∧ x = y.
Proof.
  unfold quote. rewrite !append_assoc. intros H.
  apply String.app_inj in H.
  exact (escape_prefix_free k1 k2 x y H).
Qed.

(** Swapping two properties with different names changes the cache
    key, whatever the rest of the request. *)
Lemma getCacheKey_swap_differs (c : RequestConfig) (k1 k2 : string) (v1 v2 : value) :
  k1 ≠ k2 → is_Some (stringify v1) → is_Some (stringify v2) →
  getCacheKey (with_params (VObj [(k1, v1); (k2, v2)]) c)
  ≠ getCacheKey (with_params (VObj [(k2, v2); (k1, v1)]) c).
Proof.
  intros Hne [s1 H1] [s2 H2] H. unfold getCacheKey in H.
  cbn [method url params data with_params js_or truthy stringify List.map List.concat
       fst snd] in H.
  rewrite H1, H2 in H. cbn [app join interp default] in H.
  unfold id in H. rewrite !append_assoc in H.
  repeat apply String.app_inj in H.
  apply quote_prefix_free in H. destruct H as [Hk _]. exact (Hne Hk).
Qed.

Lemma parseResponse_string (s : string) :
  parseResponse (VStr s)
  = Normal (match JSON_parse s with Normal v => v | Abrupt _ => VStr s end).
Proof. unfold parseResponse, try_catch. destruct (JSON_parse s); reflexivity. Qed.

(** C8. [parseResponse] never throws: a string is decoded with
    [JSON.parse], and when that throws the string itself is the result;
    any other value is returned as it is. *)
Theorem parseResponse_never_throws (d : value) :
  parseResponse d
  = Normal (match d with
            | VStr s => match JSON_parse s with Normal v => v | Abrupt _ => VStr s end
            | _ => d
            end).
Proof.
  destruct d; try reflexivity.
  apply parseResponse_string.
Qed.

Lemma parseResponse_decoded (d : value) : parseResponse d = Normal (decoded d).
Proof.
  destruct d; try reflexivity.
  apply parseResponse_string.
Qed.

(** C7. [getAuthHeaders] returns the given headers with [X-API-Key]
    written when an API key is set, then [Authorization: Bearer ...]
    when a bearer token is set, then [Authorization: Basic ...] when
    basic credentials are set.  Read back header by header: the Basic
    value is what [Authorization] holds whenever basic credentials are
    configured, also next to a bearer token; every other header is the
    caller's. *)
Theorem getAuthHeaders_last_writer_wins (a : Auth) (h : gmap string string) (k : string) :
  getAuthHeaders a h !! k
  = if decide (k = "Authorization") then
      match basicAuth a with
      | Some b => Some ("Basic " ++ base64 (username b ++ ":" ++ password b))
      | None =>
          if truthy_str (bearerToken a)
          then Some ("Bearer " ++ default EmptyString (bearerToken a))
          else h !! k
      end
    else if decide (k = "X-API-Key") then
      if truthy_str (apiKey a) then apiKey a else h !! k
    else h !! k.
Proof.
  unfold getAuthHeaders.
  destruct (basicAuth a) as [b|];
    destruct (truthy_str (bearerToken a));
    destruct (apiKey a) as [key|]; simpl;
    try destruct (negb (String.eqb key EmptyString));
    repeat case_decide; subst; simplify_map_eq; try reflexivity; try congruence.
Qed.

Lemma getCacheKey_swap_differs_data (c : RequestConfig) (k1 k2 : string) (v1 v2 : value) :
  k1 ≠ k2 → is_Some (stringify v1) → is_Some (stringify v2) →
  getCacheKey (with_data (VObj [(k1, v1); (k2, v2)]) c)
  ≠ getCacheKey (with_data (VObj [(k2, v2); (k1, v1)]) c).
Proof.
  intros Hne [s1 H1] [s2 H2] H. unfold getCacheKey in H.
  cbn [method url params data with_data js_or truthy stringify List.map List.concat
       fst snd] in H.
  rewrite H1, H2 in H. cbn [app join interp default] in H.
  unfold id in H. rewrite !append_assoc in H.
  repeat apply String.app_inj in H.
  apply quote_prefix_free in H. destruct H as [Hk _]. exact (Hne Hk).
Qed.

(** *** Insertion order and enumeration order *)

Lemma enumerated_before_asym (k1 k2 : string) :
  enumerated_before k1 k2 = true → enumerated_before k2 k1 = false ∧ k1 ≠ k2.
Proof.
  unfold enumerated_before. intros H. split.
  - destruct (array_index k1) as [n1|], (array_index k2) as [n2|];
      try reflexivity; try discriminate.
    apply N.ltb_lt in H. apply N.ltb_ge. lia.
  - intros ->. destruct (array_index k2) as [n|]; [|discriminate].
    rewrite N.ltb_irrefl in H. discriminate.
Qed.

(** Two names that are not array indices stay in the order they were
    written in. *)
Lemma object_of_written_order (k1 k2 : string) (v1 v2 : value) :
  k1 ≠ k2 → array_index k2 = None →
  object_of [(k1, v1); (k2, v2)] = [(k1, v1); (k2, v2)].
Proof.
  intros Hne Hk2. unfold object_of. cbn [List.fold_left fst snd obj_set].
  destruct (String.eqb_spec k2 k1) as [E|_]; [congruence|].
  unfold enumerated_before. rewrite Hk2. reflexivity.
Qed.

(** A name that is enumerated before the other comes first whichever
    was written first. *)
Lemma object_of_enumeration_order (k1 k2 : string) (v1 v2 : value) :
  enumerated_before k1 k2 = true →
  object_of [(k1, v1); (k2, v2)] = [(k1, v1); (k2, v2)]
  ∧ object_of [(k2, v2); (k1, v1)] = [(k1, v1); (k2, v2)].
Proof.
  intros H. destruct (enumerated_before_asym k1 k2 H) as [H' Hne].
  unfold object_of. cbn [List.fold_left fst snd obj_set].
  destruct (String.eqb_spec k2 k1) as [E|_]; [congruence|].
  destruct (String.eqb_spec k1 k2) as [E|_]; [congruence|].
  rewrite H, H'. split; reflexivity.
Qed.

(** C2 (amended). The cache key is determined by the method, the URL
    and the [params] and [data] values as their properties enumerate:
    requests that agree on these four get the same key, whatever else
    differs (headers, which object carries them).  The order in which
    properties were written is part of the key for names that are not
    array indices: two objects holding the same two such properties,
    with values that serialise, written in opposite orders, give
    different keys, as [params] and as [data] alike.  When one name is
    enumerated before the other whatever the order of writing (an array
    index before any other name, a smaller index before a larger one),
    the two objects are the same and so are the keys. *)
Theorem getCacheKey_same_order (c1 c2 : RequestConfig) (k1 k2 : string) (v1 v2 : value) :
  method c1 = method c2 → url c1 = url c2 →
  params c1 = params c2 → data c1 = data c2 →
  let written := VObj (object_of [(k1, v1); (k2, v2)]) in
  let swapped := VObj (object_of [(k2, v2); (k1, v1)]) in
  getCacheKey c1 = getCacheKey c2
  ∧ (k1 ≠ k2 → array_index k1 = None → array_index k2 = None →
     is_Some (stringify v1) → is_Some (stringify v2) →
     getCacheKey (with_params written c1) ≠ getCacheKey (with_params swapped c2)
     ∧ getCacheKey (with_data written c1) ≠ getCacheKey (with_data swapped c2))
  ∧ (enumerated_before k1 k2 = true →
     written = swapped
     ∧ getCacheKey (with_params written c1) = getCacheKey (with_params swapped c2)
     ∧ getCacheKey (with_data written c1) = getCacheKey (with_data swapped c2)).
Proof.
  intros Hm Hu Hp Hd written swapped. split; [|split].
  - unfold getCacheKey. rewrite Hm, Hu, Hp, Hd. reflexivity.
  - intros Hne Hi1 Hi2 Hs1 Hs2. unfold written, swapped.
    rewrite (object_of_written_order k1 k2 v1 v2 Hne Hi2).
    rewrite (object_of_written_order k2 k1 v2 v1 (not_eq_sym Hne) Hi1).
    split; intros H.
    + apply (getCacheKey_swap_differs c1 k1 k2 v1 v2 Hne Hs1 Hs2).
      rewrite H. unfold getCacheKey. cbn [method url params data with_params].
      rewrite Hm, Hu, Hd. reflexivity.
    + apply (getCacheKey_swap_differs_data c1 k1 k2 v1 v2 Hne Hs1 Hs2).
      rewrite H. unfold getCacheKey. cbn [method url params data with_data].
      rewrite Hm, Hu, Hp. reflexivity.
  - intros Hbefore. unfold written, swapped.
    destruct (object_of_enumeration_order k1 k2 v1 v2 Hbefore) as [-> ->].
    split; [reflexivity|].
    unfold getCacheKey. cbn [method url params data with_params with_data].
    rewrite Hm, Hu, Hp, Hd. split; reflexivity.
Qed.

(** C9 (amended). A [message] event reaches [onMessage] with what
    [parseResponse] makes of its data: a string that is JSON arrives
    decoded, a string that is not JSON arrives as the string, and
    anything that is not a string arrives as it is.  A [Buffer] is not a
    string, so a frame that the socket hands over as a [Buffer] reaches
    [onMessage] as that [Buffer], unparsed.  The listener returns what
    the callback returns and throws what it throws. *)
Theorem connectWebSocket_message {A : Type} (url : string)
    (options : WebSocketOptions A) (callback : SocketData → completion A)
    (data : SocketData) :
  onMessage options = Some callback →
  emit (connectWebSocket url options) (EvMessage data)
  = called (callback
              (match data with
               | Plain (VStr s) =>
                   Plain (match JSON_parse s with
                          | Normal v => v
                          | Abrupt _ => VStr s
                          end)
               | Plain v => Plain v
               | Buffer bytes => Buffer bytes
               end)).
Proof.
  intros Hcb. cbn [emit connectWebSocket]. rewrite Hcb.
  destruct data as [v|bytes]; [|reflexivity].
  cbn [parseResponse_data]. rewrite parseResponse_decoded. unfold decoded.
  destruct v; reflexivity.
Qed.

(** *** The interceptors, one outcome at a time *)

Lemma tryCatch_rethrow {A} (m : M A) (st : State) :
  tryCatch m (fun t => throw t) st = m st.
Proof. unfold tryCatch, throw. destruct (m st) as [[a|t|] st']; reflexivity. Qed.

(** [handleResponse] has two outcomes: the store refuses the duration
    and the call throws with the state as it was, or the call resolves
    and the body is stored when caching is on. *)
Lemma handleResponse_outcome (impl : Impl) (response : AxiosResponse) (st : State) :
  handleResponse impl response st
  = if cacheEnabled (config st) && negb (0 <? cacheDuration (config st))
    then (Rejected (put_error impl), st)
    else (Fulfilled (answer_of impl response), cached_response response st).
Proof.
  unfold handleResponse, answer_of, cached_response, put_error, tryCatch.
  destruct impl; rewrite parseResponse_decoded; run;
    destruct (cacheEnabled (config st)); try reflexivity;
    destruct (0 <? cacheDuration (config st)); reflexivity.
Qed.

Lemma handleResponse_spec (impl : Impl) (response : AxiosResponse) (st : State) :
  (cacheEnabled (config st) = true → 0 < cacheDuration (config st)) →
  handleResponse impl response st
  = (Fulfilled (answer_of impl response), cached_response response st).
Proof.
  intros Hput. rewrite handleResponse_outcome.
  destruct (cacheEnabled (config st)); [|reflexivity].
  apply Z.ltb_lt in Hput; [|reflexivity]. rewrite Hput. reflexivity.
Qed.

Lemma handleResponse_refused (impl : Impl) (response : AxiosResponse) (st : State) :
  cacheEnabled (config st) = true →
  cacheDuration (config st) ≤ 0 →
  handleResponse impl response st = (Rejected (put_error impl), st).
Proof.
  intros Hen Hd. rewrite handleResponse_outcome, Hen.
  apply Z.ltb_ge in Hd. rewrite Hd. reflexivity.
Qed.

Lemma handleError_plain (impl : Impl) (resubmit : RequestConfig → M answer)
    (error : AxiosError) (st : State) :
  refresh_case (config st) error = false →
  handleError impl resubmit error st = (Rejected (surfaced impl error), st).
Proof.
  unfold refresh_case, handleError, surfaced.
  destruct (err_response error) as [response|]; [|destruct impl; reflexivity].
  intros H. run. rewrite H.
  destruct impl; [reflexivity|].
  destruct (get_message (res_data response)); reflexivity.
Qed.

Lemma handleError_refresh (impl : Impl) (resubmit : RequestConfig → M answer)
    (error : AxiosError) (token : string) (st : State) :
  refresh_case (config st) error = true →
  getNewAccessToken st = Normal token →
  handleError impl resubmit error st
  = resubmit (set_header "Authorization" ("Bearer " ++ token) (err_config error))
      (with_bearerToken token (logged Refreshed st)).
Proof.
  unfold refresh_case, handleError.
  destruct (err_response error) as [response|]; [|discriminate].
  intros H Hhook. run. rewrite H.
  unfold refreshTokenAndRetry.
  assert (Hbody :
    (newToken ← call_refresh_hook;
     store_bearerToken newToken;;
     resubmit (set_header "Authorization" ("Bearer " ++ newToken) (err_config error))) st
    = resubmit (set_header "Authorization" ("Bearer " ++ token) (err_config error))
        (with_bearerToken token (logged Refreshed st))).
  { run. unfold call_refresh_hook. rewrite Hhook. run. reflexivity. }
  destruct impl; [exact Hbody|].
  rewrite tryCatch_rethrow. exact Hbody.
Qed.

Lemma handleError_refresh_fails (impl : Impl) (resubmit : RequestConfig → M answer)
    (error : AxiosError) (t : thrown) (st : State) :
  refresh_case (config st) error = true →
  getNewAccessToken st = Abrupt t →
  handleError impl resubmit error st = (Rejected t, logged Refreshed st).
Proof.
  unfold refresh_case, handleError.
  destruct (err_response error) as [response|]; [|discriminate].
  intros H Hhook. run. rewrite H.
  unfold refreshTokenAndRetry.
  assert (Hbody :
    (newToken ← call_refresh_hook;
     store_bearerToken newToken;;
     resubmit (set_header "Authorization" ("Bearer " ++ newToken) (err_config error))) st
    = (Rejected t, logged Refreshed st)).
  { run. unfold call_refresh_hook. rewrite Hhook. run. reflexivity. }
  destruct impl; [exact Hbody|].
  rewrite tryCatch_rethrow. exact Hbody.
Qed.

(** *** One pass through the axios instance *)

Lemma axiosInstance_unfold (impl : Impl) (c : RequestConfig) (st : State)
    (x : Exchange) (rest : list Exchange) :
  script st = x :: rest →
  axiosInstance impl c st
  = match respond x (outgoing st c) with
    | Success response =>
        handleResponse impl response (delivered (outgoing st c) (latency x) rest st)
    | Failure error =>
        handleError impl (axiosInstance_from (S (length rest)) impl) error
          (delivered (outgoing st c) (latency x) rest st)
    end.
Proof.
  intros Hs. unfold axiosInstance. rewrite Hs. cbn [length axiosInstance_from].
  run. unfold send, outgoing. rewrite Hs.
  destruct (respond x _); reflexivity.
Qed.

Lemma axiosInstance_no_answer (impl : Impl) (c : RequestConfig) (st : State) :
  script st = [] →
  axiosInstance impl c st = (Pending, delivered (outgoing st c) 0 [] st).
Proof.
  intros Hs. unfold axiosInstance. rewrite Hs. cbn [length axiosInstance_from].
  run. unfold send, outgoing. rewrite Hs. reflexivity.
Qed.

Lemma axiosInstance_success (impl : Impl) (c : RequestConfig) (st : State)
    (x : Exchange) (rest : list Exchange) (response : AxiosResponse) :
  script st = x :: rest →
  respond x (outgoing st c) = Success response →
  (cacheEnabled (config st) = true → 0 < cacheDuration (config st)) →
  axiosInstance impl c st
  = (Fulfilled (answer_of impl response),
     cached_response response (delivered (outgoing st c) (latency x) rest st)).
Proof.
  intros Hs Hr Hput. rewrite (axiosInstance_unfold _ _ _ _ _ Hs), Hr.
  apply handleResponse_spec. exact Hput.
Qed.

Lemma axiosInstance_refused (impl : Impl) (c : RequestConfig) (st : State)
    (x : Exchange) (rest : list Exchange) (response : AxiosResponse) :
  script st = x :: rest →
  respond x (outgoing st c) = Success response →
  cacheEnabled (config st) = true →
  cacheDuration (config st) ≤ 0 →
  axiosInstance impl c st
  = (Rejected (put_error impl), delivered (outgoing st c) (latency x) rest st).
Proof.
  intros Hs Hr Hen Hd. rewrite (axiosInstance_unfold _ _ _ _ _ Hs), Hr.
  apply handleResponse_refused; assumption.
Qed.

Lemma axiosInstance_plain_failure (impl : Impl) (c : RequestConfig) (st : State)
    (x : Exchange) (rest : list Exchange) (error : AxiosError) :
  script st = x :: rest →
  respond x (outgoing st c) = Failure error →
  refresh_case (config st) error = false →
  axiosInstance impl c st
  = (Rejected (surfaced impl error), delivered (outgoing st c) (latency x) rest st).
Proof.
  intros Hs Hr Hn. rewrite (axiosInstance_unfold _ _ _ _ _ Hs), Hr.
  apply handleError_plain. exact Hn.
Qed.

Lemma axiosInstance_refresh (impl : Impl) (c : RequestConfig) (st : State)
    (x : Exchange) (rest : list Exchange) (error : AxiosError) (token : string) :
  script st = x :: rest →
  respond x (outgoing st c) = Failure error →
  refresh_case (config st) error = true →
  getNewAccessToken (delivered (outgoing st c) (latency x) rest st) = Normal token →
  axiosInstance impl c st
  = axiosInstance impl
      (set_header "Authorization" ("Bearer " ++ token) (err_config error))
      (with_bearerToken token
         (logged Refreshed (delivered (outgoing st c) (latency x) rest st))).
Proof.
  intros Hs Hr Hc Hhook. rewrite (axiosInstance_unfold _ _ _ _ _ Hs), Hr.
  rewrite (handleError_refresh _ _ _ token); [reflexivity|exact Hc|exact Hhook].
Qed.

Lemma axiosInstance_refresh_fails (impl : Impl) (c : RequestConfig) (st : State)
    (x : Exchange) (rest : list Exchange) (error : AxiosError) (t : thrown) :
  script st = x :: rest →
  respond x (outgoing st c) = Failure error →
  refresh_case (config st) error = true →
  getNewAccessToken (delivered (outgoing st c) (latency x) rest st) = Abrupt t →
  axiosInstance impl c st
  = (Rejected t, logged Refreshed (delivered (outgoing st c) (latency x) rest st)).
Proof.
  intros Hs Hr Hc Hhook. rewrite (axiosInstance_unfold _ _ _ _ _ Hs), Hr.
  apply handleError_refresh_fails; assumption.
Qed.

(** *** The retry loop *)

Lemma retry_loop_step (fuel : nat) (impl : Impl) (c : RequestConfig) (a : Z) (st : State) :
  a < retryAttempts (config st) →
  retry_loop (S fuel) impl c a st
  = match axiosInstance impl c st with
    | (Rejected error, st1) =>
        if a + 1 =? retryAttempts (config st1) then (Rejected error, st1)
        else retry_loop fuel impl c (a + 1) (waited (1000 * (a + 1)) st1)
    | r => r
    end.
Proof.
  intros Ha. cbn [retry_loop]. run.
  apply Z.ltb_lt in Ha. rewrite Ha.
  unfold tryCatch. destruct (axiosInstance impl c st) as [[r|t|] st1]; try reflexivity.
  run. destruct (a + 1 =? retryAttempts (config st1)); reflexivity.
Qed.

Lemma retry_loop_exit (fuel : nat) (impl : Impl) (c : RequestConfig) (a : Z) (st : State) :
  retryAttempts (config st) ≤ a →
  retry_loop fuel impl c a st = after_loop impl st.
Proof.
  intros Ha. apply Z.ltb_ge in Ha.
  destruct fuel; cbn [retry_loop]; run; rewrite Ha; reflexivity.
Qed.

Lemma outgoing_same_config (st st' : State) (c : RequestConfig) :
  config st' = config st → outgoing st' c = outgoing st c.
Proof. intros H. unfold outgoing. rewrite H. reflexivity. Qed.

(** [k] failed attempts in a row, with attempts to spare: the loop is
    where it was, [k] exchanges and [k] waits later. *)
Lemma retry_loop_failures (impl : Impl) (c : RequestConfig) (fails : list Exchange) :
  ∀ (a : Z) (fuel : nat) (st : State) (tail : list Exchange),
    script st = (fails ++ tail)%list →
    Forall (plain_failure (config st)) fails →
    a + Z.of_nat (length fails) < retryAttempts (config st) →
    (length fails ≤ fuel)%nat →
    ∃ st1,
      retry_loop fuel impl c a st
      = retry_loop (fuel - length fails) impl c (a + Z.of_nat (length fails)) st1
      ∧ config st1 = config st ∧ cache st1 = cache st ∧ script st1 = tail
      ∧ log st1 = (log st ++ backoff_trace (outgoing st c) a (length fails))%list.
Proof.
  induction fails as [|x fs IH]; intros a fuel st tail Hs Hall Ha Hfuel.
  - exists st. cbn [length backoff_trace]. rewrite Nat.sub_0_r, Z.add_0_r, app_nil_r.
    repeat split; try reflexivity. exact Hs.
  - cbn [length] in *. destruct fuel as [|fuel]; [lia|].
    inversion Hall as [|? ? Hx Hfs]; subst.
    destruct (Hx (outgoing st c)) as (error & Hr & Hn).
    rewrite retry_loop_step by lia.
    rewrite (axiosInstance_plain_failure _ _ _ x (fs ++ tail)%list error Hs Hr Hn).
    cbn [config delivered].
    destruct (Z.eqb_spec (a + 1) (retryAttempts (config st))) as [E|_]; [lia|].
    set (st1 := waited (1000 * (a + 1))
                  (delivered (outgoing st c) (latency x) (fs ++ tail)%list st)).
    destruct (IH (a + 1) fuel st1 tail) as (st2 & Hrun & Hc & Hca & Hsc & Hl).
    + reflexivity.
    + exact Hfs.
    + cbn [config st1 waited delivered]. lia.
    + lia.
    + exists st2. rewrite Hrun.
      replace (a + 1 + Z.of_nat (length fs)) with (a + Z.of_nat (S (length fs))) by lia.
      cbn [Nat.sub]. repeat split; try assumption.
      rewrite Hl. cbn [log st1 waited delivered backoff_trace].
      rewrite (outgoing_same_config st1 st) by reflexivity.
      rewrite <- !app_assoc. reflexivity.
Qed.

Lemma sends_app (l1 l2 : list Event) : sends (l1 ++ l2)%list = (sends l1 + sends l2)%nat.
Proof. unfold sends. rewrite List.filter_app, List.length_app. reflexivity. Qed.

Lemma sends_backoff_trace (c : RequestConfig) (k : nat) :
  ∀ a, sends (backoff_trace c a k) = k.
Proof.
  induction k as [|k IH]; intros a; [reflexivity|].
  cbn [backoff_trace]. unfold sends in *. cbn [List.filter length]. rewrite IH. reflexivity.
Qed.

Lemma request_miss (impl : Impl) (m : option string) (endpoint : string)
    (options : RequestConfig) (st : State) :
  cache_miss (getCacheKey (spread_request (default_method impl m options) endpoint options))
    st →
  request impl m endpoint options st
  = retry_loop (Z.to_nat (retryAttempts (config st))) impl
      (spread_request (default_method impl m options) endpoint options) 0 st.
Proof. unfold cache_miss, request. intros H. cbn zeta. rewrite H. reflexivity. Qed.

(** After the failed attempts of [fails], with at least one attempt
    left, [request] is about to make its next transport call. *)
Lemma request_after_failures (impl : Impl) (m : option string) (endpoint : string)
    (options : RequestConfig) (c : RequestConfig) (st : State)
    (fails : list Exchange) (tail : list Exchange) :
  c = spread_request (default_method impl m options) endpoint options →
  cache_miss (getCacheKey c) st →
  script st = (fails ++ tail)%list →
  Forall (plain_failure (config st)) fails →
  Z.of_nat (length fails) < retryAttempts (config st) →
  ∃ st1 fuel,
    request impl m endpoint options st
    = retry_loop (S fuel) impl c (Z.of_nat (length fails)) st1
    ∧ config st1 = config st ∧ cache st1 = cache st ∧ script st1 = tail
    ∧ log st1 = (log st ++ backoff_trace (outgoing st c) 0 (length fails))%list.
Proof.
  intros -> Hmiss Hs Hall Hlt.
  rewrite request_miss by exact Hmiss.
  set (c := spread_request _ _ _) in *.
  destruct (retry_loop_failures impl c fails 0
              (Z.to_nat (retryAttempts (config st))) st tail Hs Hall)
    as (st1 & Hrun & Hc & Hca & Hsc & Hl); [lia|lia|].
  exists st1, (Z.to_nat (retryAttempts (config st)) - length fails - 1)%nat.
  rewrite Hrun. rewrite Z.add_0_l.
  replace (S (Z.to_nat (retryAttempts (config st)) - length fails - 1))
    with (Z.to_nat (retryAttempts (config st)) - length fails)%nat by lia.
  repeat split; assumption.
Qed.

Lemma request_success_after_failures (impl : Impl) (m : option string)
    (endpoint : string) (options : RequestConfig) (c : RequestConfig) (st : State)
    (fails : list Exchange) (x : Exchange) (rest : list Exchange)
    (response : AxiosResponse) :
  c = spread_request (default_method impl m options) endpoint options →
  cache_miss (getCacheKey c) st →
  script st = (fails ++ x :: rest)%list →
  Forall (plain_failure (config st)) fails →
  Z.of_nat (length fails) < retryAttempts (config st) →
  respond x (outgoing st c) = Success response →
  (cacheEnabled (config st) = true → 0 < cacheDuration (config st)) →
  ∃ st1,
    request impl m endpoint options st
    = (Fulfilled (answer_of impl response), cached_response response st1)
    ∧ config st1 = config st ∧ cache st1 = cache st ∧ script st1 = rest
    ∧ log st1 = (log st ++ backoff_trace (outgoing st c) 0 (length fails)
                   ++ [Sent (outgoing st c)])%list.
Proof.
  intros Hc Hmiss Hs Hall Hlt Hr Hput.
  destruct (request_after_failures impl m endpoint options c st fails (x :: rest)
              Hc Hmiss Hs Hall Hlt)
    as (st1 & fuel & Hreq & Hcfg & Hca & Hsc & Hl).
  rewrite Hreq, retry_loop_step by (rewrite Hcfg; lia).
  rewrite <- (outgoing_same_config st st1 c Hcfg) in Hr.
  rewrite <- Hcfg in Hput.
  rewrite (axiosInstance_success _ _ _ x rest response Hsc Hr Hput).
  exists (delivered (outgoing st1 c) (latency x) rest st1).
  cbn [config cache script log delivered].
  rewrite Hl, (outgoing_same_config st st1 c Hcfg), <- app_assoc.
  repeat split; assumption.
Qed.

Lemma request_failure_on_last_attempt (impl : Impl) (m : option string)
    (endpoint : string) (options : RequestConfig) (c : RequestConfig) (st : State)
    (fails : list Exchange) (x : Exchange) (rest : list Exchange) (error : AxiosError) :
  c = spread_request (default_method impl m options) endpoint options →
  cache_miss (getCacheKey c) st →
  script st = (fails ++ x :: rest)%list →
  Forall (plain_failure (config st)) fails →
  Z.of_nat (length fails) = retryAttempts (config st) - 1 →
  respond x (outgoing st c) = Failure error →
  refresh_case (config st) error = false →
  ∃ st1,
    request impl m endpoint options st = (Rejected (surfaced impl error), st1)
    ∧ config st1 = config st ∧ cache st1 = cache st ∧ script st1 = rest
    ∧ log st1 = (log st ++ backoff_trace (outgoing st c) 0 (length fails)
                   ++ [Sent (outgoing st c)])%list.
Proof.
  intros Hc Hmiss Hs Hall Hlen Hr Hn.
  destruct (request_after_failures impl m endpoint options c st fails (x :: rest)
              Hc Hmiss Hs Hall ltac:(lia))
    as (st1 & fuel & Hreq & Hcfg & Hca & Hsc & Hl).
  rewrite Hreq, retry_loop_step by (rewrite Hcfg; lia).
  rewrite <- (outgoing_same_config st st1 c Hcfg) in Hr.
  rewrite <- Hcfg in Hn.
  rewrite (axiosInstance_plain_failure _ _ _ x rest error Hsc Hr Hn).
  cbn [config delivered]. rewrite Hcfg.
  destruct (Z.eqb_spec (Z.of_nat (length fails) + 1) (retryAttempts (config st)));
    [|lia].
  exists (delivered (outgoing st1 c) (latency x) rest st1).
  cbn [config cache script log delivered].
  rewrite Hl, (outgoing_same_config st st1 c Hcfg), <- app_assoc.
  repeat split; assumption.
Qed.

(** *** The log only grows *)

Lemma handleError_log_grows (impl : Impl) (resubmit : RequestConfig → M answer)
    (error : AxiosError) (st : State) :
  (∀ c' st', ∃ tail, log (snd (resubmit c' st')) = (log st' ++ tail)%list) →
  ∃ tail, log (snd (handleError impl resubmit error st)) = (log st ++ tail)%list.
Proof.
  intros Hres.
  destruct (refresh_case (config st) error) eqn:Hcase.
  - destruct (getNewAccessToken st) as [token|t] eqn:Hhook.
    + rewrite (handleError_refresh _ _ _ token st Hcase Hhook).
      destruct (Hres (set_header "Authorization" ("Bearer " ++ token) (err_config error))
                  (with_bearerToken token (logged Refreshed st))) as [tail Ht].
      exists (Refreshed :: tail). rewrite Ht. cbn [log with_bearerToken logged].
      rewrite <- app_assoc. reflexivity.
    + rewrite (handleError_refresh_fails _ _ _ t st Hcase Hhook).
      exists [Refreshed]. reflexivity.
  - rewrite (handleError_plain _ _ _ st Hcase). exists []. cbn [snd].
    rewrite app_nil_r. reflexivity.
Qed.

Lemma cached_response_log (response : AxiosResponse) (st : State) :
  log (cached_response response st) = log st.
Proof. unfold cached_response. destruct (cacheEnabled (config st)); reflexivity. Qed.

Lemma axiosInstance_from_log_grows (impl : Impl) (fuel : nat) :
  ∀ c st, ∃ tail, log (snd (axiosInstance_from fuel impl c st)) = (log st ++ tail)%list.
Proof.
  induction fuel as [|fuel IH]; intros c st.
  - exists []. cbn. rewrite app_nil_r. reflexivity.
  - cbn [axiosInstance_from]. run. unfold send.
    destruct (script st) as [|x rest].
    + eexists. cbn [snd log delivered]. reflexivity.
    + destruct (respond x _) as [response|error].
      * rewrite handleResponse_outcome.
        destruct (cacheEnabled _ && negb _); cbn [snd];
          rewrite ?cached_response_log; eexists; reflexivity.
      * match goal with
        | |- context [handleError impl ?k error ?s] =>
            destruct (handleError_log_grows impl k error s IH) as [tail Ht]
        end.
        rewrite Ht. cbn [log delivered]. rewrite <- app_assoc.
        eexists. reflexivity.
Qed.

Lemma axiosInstance_log (impl : Impl) (c : RequestConfig) (st : State) :
  ∃ tail, log (snd (axiosInstance impl c st))
          = (log st ++ Sent (outgoing st c) :: tail)%list.
Proof.
  destruct (script st) as [|x rest] eqn:Hs.
  - rewrite (axiosInstance_no_answer _ _ _ Hs). exists []. reflexivity.
  - rewrite (axiosInstance_unfold _ _ _ x rest Hs).
    destruct (respond x (outgoing st c)) as [response|error].
    + rewrite handleResponse_outcome.
      destruct (cacheEnabled _ && negb _); cbn [snd];
        rewrite ?cached_response_log; exists []; reflexivity.
    + destruct (handleError_log_grows impl (axiosInstance_from (S (length rest)) impl)
                  error (delivered (outgoing st c) (latency x) rest st)
                  (axiosInstance_from_log_grows impl _)) as [tail Ht].
      rewrite Ht. cbn [log delivered]. rewrite <- app_assoc.
      exists tail. reflexivity.
Qed.

Lemma retry_loop_log_grows (impl : Impl) (c : RequestConfig) (fuel : nat) :
  ∀ a st, ∃ tail, log (snd (retry_loop fuel impl c a st)) = (log st ++ tail)%list.
Proof.
  induction fuel as [|fuel IH]; intros a st.
  - cbn [retry_loop]. run.
    destruct (a <? retryAttempts (config st)); [|destruct impl];
      exists []; cbn; rewrite app_nil_r; reflexivity.
  - destruct (Z.lt_ge_cases a (retryAttempts (config st))) as [Hlt|Hge].
    + rewrite retry_loop_step by exact Hlt.
      destruct (axiosInstance_log impl c st) as [tail Ht].
      destruct (axiosInstance impl c st) as [[r|t|] st1]; cbn [snd] in Ht.
      * eexists. exact Ht.
      * destruct (a + 1 =? retryAttempts (config st1)).
        -- eexists. exact Ht.
        -- destruct (IH (a + 1) (waited (1000 * (a + 1)) st1)) as [tail' Ht'].
           rewrite Ht'. cbn [log waited]. rewrite Ht, <- !app_assoc.
           eexists. reflexivity.
      * eexists. exact Ht.
    + rewrite retry_loop_exit by exact Hge.
      destruct impl; exists []; cbn; rewrite app_nil_r; reflexivity.
Qed.

Lemma retry_loop_first_call (impl : Impl) (c : RequestConfig) (fuel : nat) (st : State) :
  0 < retryAttempts (config st) →
  ∃ tail, log (snd (retry_loop (S fuel) impl c 0 st))
          = (log st ++ Sent (outgoing st c) :: tail)%list.
Proof.
  intros Hpos. rewrite retry_loop_step by exact Hpos.
  destruct (axiosInstance_log impl c st) as [tail Ht].
  destruct (axiosInstance impl c st) as [[r|t|] st1]; cbn [snd] in Ht.
  - eexists. exact Ht.
  - destruct (0 + 1 =? retryAttempts (config st1)).
    + eexists. exact Ht.
    + destruct (retry_loop_log_grows impl c fuel (0 + 1) (waited (1000 * (0 + 1)) st1))
        as [tail' Ht'].
      rewrite Ht'. cbn [log waited]. rewrite Ht, <- !app_assoc.
      eexists. cbn [app]. reflexivity.
  - eexists. exact Ht.
Qed.

(** *** Whatever path a request takes *)

Lemma cached_response_retryAttempts (response : AxiosResponse) (st : State) :
  retryAttempts (config (cached_response response st)) = retryAttempts (config st).
Proof. unfold cached_response. destruct (cacheEnabled (config st)); reflexivity. Qed.

(** A call of the axios instance changes no member of the configuration
    but the bearer token. *)
Lemma axiosInstance_from_retryAttempts (impl : Impl) (fuel : nat) :
  ∀ c st,
    retryAttempts (config (snd (axiosInstance_from fuel impl c st)))
    = retryAttempts (config st).
Proof.
  induction fuel as [|fuel IH]; intros c st; [reflexivity|].
  cbn [axiosInstance_from]. run. unfold send.
  destruct (script st) as [|x rest]; [reflexivity|].
  destruct (respond x _) as [response|error].
  - rewrite handleResponse_outcome.
    destruct (cacheEnabled _ && negb _); cbn [snd];
      rewrite ?cached_response_retryAttempts; reflexivity.
  - match goal with
    | |- context [handleError impl ?k error ?s] => set (st1 := s); set (resubmit := k)
    end.
    destruct (refresh_case (config st1) error) eqn:Hcase.
    + destruct (getNewAccessToken st1) as [token|t] eqn:Hhook.
      * rewrite (handleError_refresh _ _ _ token st1 Hcase Hhook).
        unfold resubmit. rewrite IH. reflexivity.
      * rewrite (handleError_refresh_fails _ _ _ t st1 Hcase Hhook). reflexivity.
    + rewrite (handleError_plain _ _ _ st1 Hcase). reflexivity.
Qed.

(** The axios instance fulfils only through [handleResponse]. *)
Lemma axiosInstance_from_fulfilled (impl : Impl) (fuel : nat) :
  ∀ c st a st',
    axiosInstance_from fuel impl c st = (Fulfilled a, st') →
    ∃ response st1, a = answer_of impl response ∧ st' = cached_response response st1.
Proof.
  induction fuel as [|fuel IH]; intros c st a st'; [discriminate|].
  cbn [axiosInstance_from]. run. unfold send.
  destruct (script st) as [|x rest]; [discriminate|].
  destruct (respond x _) as [response|error].
  - rewrite handleResponse_outcome.
    destruct (cacheEnabled _ && negb _); [discriminate|].
    intros [= <- <-]. eauto.
  - match goal with
    | |- context [handleError impl ?k error ?s] => set (st1 := s); set (resubmit := k)
    end.
    destruct (refresh_case (config st1) error) eqn:Hcase.
    + destruct (getNewAccessToken st1) as [token|t] eqn:Hhook.
      * rewrite (handleError_refresh _ _ _ token st1 Hcase Hhook).
        unfold resubmit. apply IH.
      * rewrite (handleError_refresh_fails _ _ _ t st1 Hcase Hhook). discriminate.
    + rewrite (handleError_plain _ _ _ st1 Hcase). discriminate.
Qed.

Lemma retry_loop_fulfilled (impl : Impl) (c : RequestConfig) (fuel : nat) :
  ∀ a st ans st',
    a < retryAttempts (config st) →
    retry_loop fuel impl c a st = (Fulfilled ans, st') →
    ∃ response st1, ans = answer_of impl response ∧ st' = cached_response response st1.
Proof.
  induction fuel as [|fuel IH]; intros a st ans st' Ha.
  - cbn [retry_loop]. run. apply Z.ltb_lt in Ha. rewrite Ha. discriminate.
  - rewrite retry_loop_step by exact Ha.
    pose proof (axiosInstance_from_retryAttempts impl (S (length (script st))) c st) as Hn.
    pose proof (axiosInstance_from_fulfilled impl (S (length (script st))) c st) as Hf.
    fold (axiosInstance impl c st) in Hn, Hf.
    destruct (axiosInstance impl c st) as [[r|t|] st1]; cbn [snd] in Hn.
    + intros [= <- <-]. apply (Hf r st1). reflexivity.
    + destruct (Z.eqb_spec (a + 1) (retryAttempts (config st1))) as [_|Hne];
        [discriminate|].
      apply IH. cbn [config waited]. lia.
    + discriminate.
Qed.

(** On a cache miss with a positive retry budget, whatever [request]
    resolves to is what [handleResponse] made of some response: the
    parsed body in [app.js], the response object in [app.ts]. *)
Lemma request_fulfilled_by_response (impl : Impl) (m : option string) (endpoint : string)
    (options : RequestConfig) (st : State) (ans : answer) (st' : State) :
  cache_miss (getCacheKey (spread_request (default_method impl m options) endpoint options))
    st →
  0 < retryAttempts (config st) →
  request impl m endpoint options st = (Fulfilled ans, st') →
  ∃ response st1, ans = answer_of impl response ∧ st' = cached_response response st1.
Proof.
  intros Hmiss Hpos. rewrite (request_miss _ _ _ _ _ Hmiss).
  apply retry_loop_fulfilled. exact Hpos.
Qed.

(** *** The fuel is never what stops a run

    A request stays pending only because the transport has no answer
    left to give. *)

Lemma axiosInstance_from_pending (impl : Impl) (fuel : nat) :
  ∀ c st st',
    (length (script st) < fuel)%nat →
    axiosInstance_from fuel impl c st = (Pending, st') →
    script st' = [].
Proof.
  induction fuel as [|fuel IH]; intros c st st' Hfuel; [lia|].
  cbn [axiosInstance_from]. run. unfold send.
  destruct (script st) as [|x rest] eqn:Hs.
  - intros [= <-]. reflexivity.
  - cbn [length] in Hfuel.
    destruct (respond x _) as [response|error].
    + rewrite handleResponse_outcome.
      destruct (cacheEnabled _ && negb _); discriminate.
    + match goal with
      | |- context [handleError impl ?k error ?s] => set (st1 := s); set (resubmit := k)
      end.
      destruct (refresh_case (config st1) error) eqn:Hcase.
      * destruct (getNewAccessToken st1) as [token|t] eqn:Hhook.
        -- rewrite (handleError_refresh _ _ _ token st1 Hcase Hhook).
           unfold resubmit. apply IH. cbn [script with_bearerToken logged st1 delivered].
           lia.
        -- rewrite (handleError_refresh_fails _ _ _ t st1 Hcase Hhook). discriminate.
      * rewrite (handleError_plain _ _ _ st1 Hcase). discriminate.
Qed.

Lemma retry_loop_pending (impl : Impl) (c : RequestConfig) (fuel : nat) :
  ∀ a st st',
    (Z.to_nat (retryAttempts (config st) - a) ≤ fuel)%nat →
    retry_loop fuel impl c a st = (Pending, st') →
    script st' = [].
Proof.
  induction fuel as [|fuel IH]; intros a st st' Hfuel.
  - rewrite retry_loop_exit by lia. destruct impl; discriminate.
  - destruct (Z.lt_ge_cases a (retryAttempts (config st))) as [Hlt|Hge].
    + rewrite retry_loop_step by exact Hlt.
      pose proof (axiosInstance_from_retryAttempts impl (S (length (script st))) c st) as Hn.
      pose proof (axiosInstance_from_pending impl (S (length (script st))) c st) as Hp.
      fold (axiosInstance impl c st) in Hn, Hp.
      destruct (axiosInstance impl c st) as [[r|t|] st1]; cbn [snd] in Hn.
      * discriminate.
      * destruct (Z.eqb_spec (a + 1) (retryAttempts (config st1))) as [_|Hne];
          [discriminate|].
        apply IH. cbn [config waited]. lia.
      * intros [= <-]. apply (Hp st1); [lia|reflexivity].
    + rewrite retry_loop_exit by exact Hge. destruct impl; discriminate.
Qed.

Lemma request_pending (impl : Impl) (m : option string) (endpoint : string)
    (options : RequestConfig) (st st' : State) :
  request impl m endpoint options st = (Pending, st') → script st' = [].
Proof.
  unfold request. cbn zeta.
  destruct (cacheEnabled (config st) && truthy (memoryCache_get _ st)); [discriminate|].
  apply retry_loop_pending. lia.
Qed.

Lemma getCacheKey_ext (c1 c2 : RequestConfig) :
  method c1 = method c2 → url c1 = url c2 →
  params c1 = params c2 → data c1 = data c2 →
  getCacheKey c1 = getCacheKey c2.
Proof. intros Hm Hu Hp Hd. unfold getCacheKey. congruence. Qed.

(** ** The claims about [request] *)

(** C1 (amended). A request that misses the cache and whose transport
    call succeeds, at once or after failed attempts that left the retry
    budget unspent, resolves in [app.js] to the parsed response body and
    in [app.ts] to the response object itself, provided the store
    accepts the body: caching is off, or [cacheDuration] is positive.
    When caching is on, the parsed body is stored with expiry
    [now + cacheDuration] under the key of [response.config]; that key
    is the request's own key when [response.config] carries the
    request's method, URL, params and data. *)
Theorem request_resolves_with_response (impl : Impl) (m : option string)
    (endpoint : string) (options : RequestConfig) (c : RequestConfig) (st : State)
    (fails : list Exchange) (x : Exchange) (rest : list Exchange)
    (response : AxiosResponse) :
  c = spread_request (default_method impl m options) endpoint options →
  cache_miss (getCacheKey c) st →
  script st = (fails ++ x :: rest)%list →
  Forall (plain_failure (config st)) fails →
  Z.of_nat (length fails) < retryAttempts (config st) →
  respond x (outgoing st c) = Success response →
  (cacheEnabled (config st) = true → 0 < cacheDuration (config st)) →
  ∃ st1,
    request impl m endpoint options st
    = (Fulfilled (match impl with
                  | AppJs => Body (decoded (res_data response))
                  | AppTs => Wrapper response
                  end),
       if cacheEnabled (config st)
       then with_entry (getCacheKey (res_config response)) (decoded (res_data response))
              (cacheDuration (config st)) st1
       else st1)
    ∧ cache st1 = cache st ∧ script st1 = rest
    ∧ (method (res_config response) = method c → url (res_config response) = url c →
       params (res_config response) = params c → data (res_config response) = data c →
       getCacheKey (res_config response) = getCacheKey c).
Proof.
  intros Hc Hmiss Hs Hall Hlt Hr Hput.
  destruct (request_success_after_failures impl m endpoint options c st fails x rest
              response Hc Hmiss Hs Hall Hlt Hr Hput)
    as (st1 & Hreq & Hcfg & Hca & Hsc & Hl).
  exists st1. rewrite Hreq. unfold cached_response, answer_of. rewrite Hcfg.
  repeat split; try assumption.
  apply getCacheKey_ext.
Qed.

(** C3 (amended). With caching on, a live entry under the request's key
    whose value is truthy is returned as it is, and the state is left
    untouched: nothing is sent, nothing is waited for, the refresh hook
    is not called. *)
Theorem request_cache_hit (impl : Impl) (m : option string) (endpoint : string)
    (options : RequestConfig) (st : State) (v : value) (expire : Z) :
  cacheEnabled (config st) = true →
  cache st !! getCacheKey (spread_request (default_method impl m options) endpoint options)
  = Some (v, expire) →
  now st ≤ expire →
  truthy v = true →
  request impl m endpoint options st = (Fulfilled (Body v), st).
Proof.
  intros Hen Hlook Hlive Htr. unfold request. cbn zeta.
  unfold memoryCache_get. rewrite Hlook, Hen.
  apply Z.leb_le in Hlive. rewrite Hlive, Htr. reflexivity.
Qed.

(** C4 (amended). With [retryAttempts] = N and no usable cache entry:
    when N - 1 transport calls have failed with failures that
    [handleError] rethrows, the N-th call decides.  If it fails in the
    same way, [request] rejects with that failure, as [handleError]
    throws it, and makes no further call; if it succeeds, [request]
    resolves with that response, provided the store accepts the body
    (caching is off, or [cacheDuration] is positive).  Either way
    exactly N exchanges were consumed, N requests were sent, and the
    waits in between were 1000, 2000, ... milliseconds. *)
Theorem retry_budget (impl : Impl) (m : option string) (endpoint : string)
    (options : RequestConfig) (c : RequestConfig) (st : State)
    (fails : list Exchange) (last : Exchange) (rest : list Exchange) :
  c = spread_request (default_method impl m options) endpoint options →
  cache_miss (getCacheKey c) st →
  script st = (fails ++ last :: rest)%list →
  Forall (plain_failure (config st)) fails →
  Z.of_nat (length fails) = retryAttempts (config st) - 1 →
  match respond last (outgoing st c) with
  | Failure error =>
      refresh_case (config st) error = false →
      ∃ st',
        request impl m endpoint options st = (Rejected (surfaced impl error), st')
        ∧ attempts_made c (length fails) rest st st'
        ∧ Z.of_nat (sends (log st')) = Z.of_nat (sends (log st)) + retryAttempts (config st)
  | Success response =>
      (cacheEnabled (config st) = true → 0 < cacheDuration (config st)) →
      ∃ st',
        request impl m endpoint options st = (Fulfilled (answer_of impl response), st')
        ∧ attempts_made c (length fails) rest st st'
        ∧ Z.of_nat (sends (log st')) = Z.of_nat (sends (log st)) + retryAttempts (config st)
  end.
Proof.
  intros Hc Hmiss Hs Hall Hlen.
  assert (Hsends : ∀ l,
    l = (log st ++ backoff_trace (outgoing st c) 0 (length fails)
           ++ [Sent (outgoing st c)])%list →
    Z.of_nat (sends l) = Z.of_nat (sends (log st)) + retryAttempts (config st)).
  { intros l ->. rewrite !sends_app, sends_backoff_trace. cbn. lia. }
  destruct (respond last (outgoing st c)) as [response|error] eqn:Hr.
  - intros Hput.
    destruct (request_success_after_failures impl m endpoint options c st fails last
                rest response Hc Hmiss Hs Hall ltac:(lia) Hr Hput)
      as (st1 & Hreq & Hcfg & Hca & Hsc & Hl).
    exists (cached_response response st1). rewrite Hreq.
    assert (Hlog : log (cached_response response st1) = log st1)
      by apply cached_response_log.
    assert (Hscr : script (cached_response response st1) = script st1).
    { unfold cached_response. destruct (cacheEnabled (config st1)); reflexivity. }
    unfold attempts_made. rewrite Hscr, Hlog.
    repeat split; try assumption. apply Hsends. exact Hl.
  - intros Hcase.
    destruct (request_failure_on_last_attempt impl m endpoint options c st fails last
                rest error Hc Hmiss Hs Hall Hlen Hr Hcase)
      as (st1 & Hreq & Hcfg & Hca & Hsc & Hl).
    exists st1. rewrite Hreq. unfold attempts_made.
    repeat split; try assumption. apply Hsends. exact Hl.
Qed.

(** C10. With caching on and a live entry under the request's key, the
    entry is returned only when its value is truthy.  A falsy value
    (the empty string, 0, false, null) makes [request] go on exactly as
    on a miss: it enters the retry loop and, with a positive retry
    budget, its first act is a transport call. *)
Theorem falsy_entry_is_a_miss (impl : Impl) (m : option string) (endpoint : string)
    (options : RequestConfig) (c : RequestConfig) (st : State) (v : value) (expire : Z) :
  c = spread_request (default_method impl m options) endpoint options →
  cacheEnabled (config st) = true →
  cache st !! getCacheKey c = Some (v, expire) →
  now st ≤ expire →
  if truthy v
  then request impl m endpoint options st = (Fulfilled (Body v), st)
  else
    request impl m endpoint options st
    = retry_loop (Z.to_nat (retryAttempts (config st))) impl c 0 st
    ∧ (0 < retryAttempts (config st) →
       ∃ tail, log (snd (request impl m endpoint options st))
               = (log st ++ Sent (outgoing st c) :: tail)%list).
Proof.
  intros -> Hen Hlook Hlive.
  assert (Hget : memoryCache_get
                   (getCacheKey (spread_request (default_method impl m options)
                                   endpoint options)) st = v).
  { unfold memoryCache_get. rewrite Hlook. apply Z.leb_le in Hlive.
    rewrite Hlive. reflexivity. }
  destruct (truthy v) eqn:Htr.
  - unfold request. cbn zeta. rewrite Hget, Hen, Htr. reflexivity.
  - assert (Hreq : request impl m endpoint options st
                   = retry_loop (Z.to_nat (retryAttempts (config st))) impl
                       (spread_request (default_method impl m options) endpoint options)
                       0 st).
    { apply request_miss. unfold cache_miss. rewrite Hget, Hen, Htr. reflexivity. }
    split; [exact Hreq|].
    intros Hpos. rewrite Hreq.
    destruct (Z.to_nat (retryAttempts (config st))) as [|fuel] eqn:Hn; [lia|].
    apply retry_loop_first_call. exact Hpos.
Qed.

(** C5 (amended). A transport failure with status 401 while a refresh
    token is set makes [handleError] call the refresh hook once.  When
    the hook returns a token, the token is stored in
    [config.auth.bearerToken], the [Authorization] header of the failed
    request's config is rewritten, and that config goes through the
    axios instance again, inside the same attempt of the retry loop:
    when the resubmission succeeds and the store accepts the body
    (caching is off, or [cacheDuration] is positive), [request]
    resolves with it without having waited, whatever the retry
    budget.  When the hook fails, its
    error is rethrown as it is and nothing is resubmitted; the retry
    loop of [request] then counts it as one failed attempt like any
    other, so it reaches the caller at once only on the last attempt. *)
Theorem refresh_on_401 (impl : Impl) (c : RequestConfig) (st : State)
    (x : Exchange) (rest : list Exchange) (error : AxiosError) :
  script st = x :: rest →
  respond x (outgoing st c) = Failure error →
  refresh_case (config st) error = true →
  let st1 := delivered (outgoing st c) (latency x) rest st in
  match getNewAccessToken st1 with
  | Normal token =>
      let st2 := with_bearerToken token (logged Refreshed st1) in
      let c2 := set_header "Authorization" ("Bearer " ++ token) (err_config error) in
      axiosInstance impl c st = axiosInstance impl c2 st2
      ∧ bearerToken (auth (config st2)) = Some token
      ∧ headers c2 !! "Authorization" = Some ("Bearer " ++ token)
      ∧ log st2 = (log st ++ [Sent (outgoing st c); Refreshed])%list
      ∧ script st2 = rest
      ∧ (∀ m endpoint options y rest' response,
           c = spread_request (default_method impl m options) endpoint options →
           cache_miss (getCacheKey c) st →
           0 < retryAttempts (config st) →
           rest = y :: rest' →
           respond y (outgoing st2 c2) = Success response →
           (cacheEnabled (config st) = true → 0 < cacheDuration (config st)) →
           request impl m endpoint options st
           = (Fulfilled (answer_of impl response),
              cached_response response
                (delivered (outgoing st2 c2) (latency y) rest' st2)))
  | Abrupt t =>
      axiosInstance impl c st = (Rejected t, logged Refreshed st1)
      ∧ (∀ m endpoint options,
           c = spread_request (default_method impl m options) endpoint options →
           cache_miss (getCacheKey c) st →
           0 < retryAttempts (config st) →
           request impl m endpoint options st
           = if retryAttempts (config st) =? 1
             then (Rejected t, logged Refreshed st1)
             else retry_loop (Z.to_nat (retryAttempts (config st)) - 1) impl c 1
                    (waited 1000 (logged Refreshed st1)))
  end.
Proof.
  intros Hs Hr Hcase st1.
  destruct (getNewAccessToken st1) as [token|t] eqn:Hhook.
  - intros st2 c2.
    assert (Hax : axiosInstance impl c st = axiosInstance impl c2 st2)
      by exact (axiosInstance_refresh impl c st x rest error token Hs Hr Hcase Hhook).
    split; [exact Hax|].
    split; [reflexivity|].
    split; [apply lookup_insert_eq|].
    split; [cbn [log st2 st1 with_bearerToken logged delivered];
            rewrite <- app_assoc; reflexivity|].
    split; [reflexivity|].
    intros m endpoint options y rest' response Hc Hmiss Hpos Hrest Hy Hput.
    rewrite Hc in Hmiss. rewrite (request_miss _ _ _ _ _ Hmiss), <- Hc.
    destruct (Z.to_nat (retryAttempts (config st))) as [|fuel] eqn:Hn; [lia|].
    rewrite retry_loop_step by exact Hpos.
    rewrite Hax.
    assert (Hs2 : script st2 = y :: rest') by (rewrite <- Hrest; reflexivity).
    rewrite (axiosInstance_success impl c2 st2 y rest' response Hs2 Hy Hput).
    reflexivity.
  - assert (Hax : axiosInstance impl c st = (Rejected t, logged Refreshed st1))
      by exact (axiosInstance_refresh_fails impl c st x rest error t Hs Hr Hcase Hhook).
    split; [exact Hax|].
    intros m endpoint options Hc Hmiss Hpos.
    rewrite Hc in Hmiss. rewrite (request_miss _ _ _ _ _ Hmiss), <- Hc.
    destruct (Z.to_nat (retryAttempts (config st))) as [|fuel] eqn:Hn; [lia|].
    rewrite retry_loop_step by exact Hpos.
    rewrite Hax. cbn [config logged st1 delivered].
    rewrite (Z.eqb_sym (retryAttempts (config st)) 1).
    change (0 + 1) with 1. change (1000 * 1) with 1000.
    replace (S fuel - 1)%nat with fuel by lia. reflexivity.
Qed.

(** C6 (amended). Outside the refresh branch [handleError] throws and
    leaves the state alone.  In [app.ts] the error is rethrown
    unchanged, with or without a response.  In [app.js] an error
    without a response is rethrown unchanged; an error with a response
    becomes the object [{status, message, data}], whose message is the
    body's [message] when that is truthy and [error.message]
    otherwise; reading [message] from a body that is [null] or
    [undefined] throws a [TypeError], which is then what is thrown.
    What [handleError] throws on the last attempt of a request is what
    the caller of [request] receives. *)
Theorem handleError_surfaces (impl : Impl) (resubmit : RequestConfig → M answer)
    (error : AxiosError) (st : State) :
  refresh_case (config st) error = false →
  let t :=
    match impl, err_response error with
    | AppJs, Some response =>
        match get_message (res_data response) with
        | Normal message =>
            Normalized (res_status response)
              (js_or message (VStr (err_message error)))
              (res_data response)
        | Abrupt t => t
        end
    | _, _ => Raw error
    end in
  handleError impl resubmit error st = (Rejected t, st)
  ∧ ∀ m endpoint options c st0 x rest,
      c = spread_request (default_method impl m options) endpoint options →
      cache_miss (getCacheKey c) st0 →
      retryAttempts (config st0) = 1 →
      script st0 = x :: rest →
      respond x (outgoing st0 c) = Failure error →
      st = delivered (outgoing st0 c) (latency x) rest st0 →
      request impl m endpoint options st0 = (Rejected t, st).
Proof.
  intros Hcase t.
  assert (Hthrow : ∀ k, handleError impl k error st = (Rejected t, st)).
  { intros k. unfold handleError, t. unfold refresh_case in Hcase.
    destruct (err_response error) as [response|]; [|destruct impl; reflexivity].
    run. rewrite Hcase.
    destruct impl; [reflexivity|].
    destruct (get_message (res_data response)); reflexivity. }
  split; [apply Hthrow|].
  intros m endpoint options c st0 x rest Hc Hmiss Hone Hs Hr Hst.
  rewrite Hc in Hmiss. rewrite (request_miss _ _ _ _ _ Hmiss), <- Hc, Hone.
  change (Z.to_nat 1) with 1%nat.
  rewrite retry_loop_step by lia.
  rewrite (axiosInstance_unfold _ _ _ x rest Hs), Hr, <- Hst, Hthrow.
  rewrite Hst at 1. cbn [config delivered]. rewrite Hone. reflexivity.
Qed.

(** ** Further properties of the pipeline *)

(** *** Headers *)

(** X1. Running the request interceptor twice changes nothing more:
    [getAuthHeaders] is idempotent. *)
Theorem getAuthHeaders_idempotent (a : Auth) (h : gmap string string) :
  getAuthHeaders a (getAuthHeaders a h) = getAuthHeaders a h.
Proof.
  apply map_eq. intros k. unfold getAuthHeaders.
  destruct (basicAuth a) as [b|];
    destruct (truthy_str (bearerToken a));
    destruct (truthy_str (apiKey a));
    (destruct (decide (k = "Authorization")) as [E|E];
       [subst k|destruct (decide (k = "X-API-Key")) as [E'|E']; [subst k|]]);
    simplify_map_eq; reflexivity.
Qed.

Lemma getAuthHeaders_authorization (a : Auth) (h : gmap string string) :
  getAuthHeaders a h !! "Authorization"
  = match basicAuth a with
    | Some b => Some ("Basic " ++ base64 (username b ++ ":" ++ password b))
    | None =>
        if truthy_str (bearerToken a)
        then Some ("Bearer " ++ default EmptyString (bearerToken a))
        else h !! "Authorization"
    end.
Proof.
  unfold getAuthHeaders.
  destruct (basicAuth a) as [b|];
    destruct (truthy_str (bearerToken a));
    destruct (truthy_str (apiKey a));
    simplify_map_eq; reflexivity.
Qed.

(** X2. After a 401 that the refresh hook answered with a token, the
    next request the transport receives is the failed request's own
    configuration, and its [Authorization] header is the Basic value
    when basic credentials are configured (the fresh bearer token is
    then never sent), the new bearer token otherwise. *)
Theorem resubmission_authorization (impl : Impl) (c : RequestConfig) (st : State)
    (x : Exchange) (rest : list Exchange) (error : AxiosError) (token : string) :
  script st = x :: rest →
  respond x (outgoing st c) = Failure error →
  refresh_case (config st) error = true →
  getNewAccessToken (delivered (outgoing st c) (latency x) rest st) = Normal token →
  ∃ resent tail,
    log (snd (axiosInstance impl c st))
    = (log st ++ Sent (outgoing st c) :: Refreshed :: Sent resent :: tail)%list
    ∧ headers resent !! "Authorization"
      = match basicAuth (auth (config st)) with
        | Some b => Some ("Basic " ++ base64 (username b ++ ":" ++ password b))
        | None => Some ("Bearer " ++ token)
        end
    ∧ method resent = method (err_config error) ∧ url resent = url (err_config error)
    ∧ params resent = params (err_config error) ∧ data resent = data (err_config error).
Proof.
  intros Hs Hr Hcase Hhook.
  rewrite (axiosInstance_refresh impl c st x rest error token Hs Hr Hcase Hhook).
  set (c2 := set_header "Authorization" ("Bearer " ++ token) (err_config error)).
  set (st2 := with_bearerToken token
                (logged Refreshed (delivered (outgoing st c) (latency x) rest st))).
  destruct (axiosInstance_log impl c2 st2) as [tail Ht].
  exists (outgoing st2 c2), tail. rewrite Ht.
  split; [cbn [log st2 with_bearerToken logged delivered]; rewrite <- !app_assoc;
          reflexivity|].
  split; [|repeat split].
  unfold outgoing. cbn [headers with_headers]. rewrite getAuthHeaders_authorization.
  cbn [config st2 with_bearerToken logged delivered auth set_bearerToken basicAuth
       bearerToken truthy_str default from_option id].
  destruct (basicAuth (auth (config st))) as [b|]; [reflexivity|].
  destruct (negb (String.eqb token EmptyString)); [reflexivity|].
  cbn [headers c2 set_header]. apply lookup_insert_eq.
Qed.

(** *** Cache keys *)

Lemma stringify_printed_members (props : list (string * value)) :
  stringify (VObj (printed_members props)) = stringify (VObj props).
Proof.
  cbn [stringify].
  set (member := fun kv : string * value =>
                   match stringify (snd kv) with
                   | Some s => [quote (fst kv) ++ ":" ++ s]
                   | None => []
                   end).
  assert (H : List.concat (List.map member (printed_members props))
              = List.concat (List.map member props)).
  { induction props as [|[k v] props IH]; [reflexivity|].
    unfold printed_members in *. cbn [List.filter snd].
    destruct v; cbn [List.map List.concat]; rewrite IH; reflexivity. }
  rewrite H. reflexivity.
Qed.

(** X3. What the cache key cannot tell apart: a falsy [params] or [data]
    (undefined, null, false, 0, the empty string) keys like the empty
    object, and members whose value is undefined are not part of the
    key. *)
Theorem getCacheKey_blind_spots (c : RequestConfig) (falsy : value)
    (props : list (string * value)) :
  truthy falsy = false →
  getCacheKey (with_params falsy c) = getCacheKey (with_params (VObj []) c)
  ∧ getCacheKey (with_data falsy c) = getCacheKey (with_data (VObj []) c)
  ∧ getCacheKey (with_params (VObj props) c)
    = getCacheKey (with_params (VObj (printed_members props)) c)
  ∧ getCacheKey (with_data (VObj props) c)
    = getCacheKey (with_data (VObj (printed_members props)) c).
Proof.
  intros Hf. unfold getCacheKey.
  cbn [method url params data with_params with_data].
  unfold js_or. rewrite Hf. cbn [truthy].
  rewrite stringify_printed_members. repeat split; reflexivity.
Qed.

(** *** The retry budget at its edges *)

(** X4. With a retry budget that is zero or negative the loop body
    never runs: a request that is not answered from the cache settles at
    once, rejected with "Max retry attempts reached" in [app.ts] and
    fulfilled with [undefined] in [app.js], and the transport is not
    called. *)
Theorem request_without_budget (impl : Impl) (m : option string) (endpoint : string)
    (options : RequestConfig) (st : State) :
  retryAttempts (config st) ≤ 0 →
  cache_miss (getCacheKey (spread_request (default_method impl m options) endpoint options))
    st →
  request impl m endpoint options st
  = (match impl with
     | AppTs => Rejected (ErrorObj "Max retry attempts reached")
     | AppJs => Fulfilled (Body VUndefined)
     end, st).
Proof.
  intros Hn Hmiss. rewrite (request_miss _ _ _ _ _ Hmiss).
  rewrite retry_loop_exit by lia. destruct impl; reflexivity.
Qed.

(** X5. The constructors and the budget.  [app.ts] replaces a given 0
    by the default, so a wrapper constructed with any non-negative
    [retryAttempts] sends every uncached request at least once.  [app.js]
    spreads the caller's configuration over the defaults, so a given 0
    (or less) stays, and every uncached request resolves to [undefined]
    without a transport call. *)
Theorem constructor_and_budget (w : WrapperConfig) (n : Z) (m : option string)
    (endpoint : string) (options : RequestConfig) (st : State) :
  given_retryAttempts w = Some n →
  (0 ≤ n → config st = constructor AppTs w →
   cache_miss (getCacheKey (spread_request m endpoint options)) st →
   ∃ tail, log (snd (request AppTs m endpoint options st))
           = (log st ++ Sent (outgoing st (spread_request m endpoint options)) :: tail)%list)
  ∧ (n ≤ 0 → config st = constructor AppJs w →
     cache_miss (getCacheKey (spread_request (default_method AppJs m options) endpoint
                                options)) st →
     request AppJs m endpoint options st = (Fulfilled (Body VUndefined), st)).
Proof.
  intros Hgiven. split.
  - intros Hn Hcfg Hmiss.
    assert (Hpos : 0 < retryAttempts (config st)).
    { rewrite Hcfg. cbn [constructor retryAttempts]. rewrite Hgiven. cbn [num_or].
      destruct (Z.eqb_spec n 0); lia. }
    rewrite (request_miss AppTs m endpoint options st Hmiss).
    destruct (Z.to_nat (retryAttempts (config st))) as [|fuel] eqn:Hfuel; [lia|].
    apply retry_loop_first_call. exact Hpos.
  - intros Hn Hcfg Hmiss.
    rewrite (request_miss AppJs m endpoint options st Hmiss).
    apply retry_loop_exit.
    rewrite Hcfg. cbn [constructor retryAttempts]. rewrite Hgiven. exact Hn.
Qed.

(** *** What a request leaves alone *)

Lemma same_but_bearerToken_refl (c : Config) : same_but_bearerToken c c.
Proof. unfold same_but_bearerToken. repeat split; reflexivity. Qed.

Lemma same_but_bearerToken_trans (c1 c2 c3 : Config) :
  same_but_bearerToken c1 c2 → same_but_bearerToken c2 c3 → same_but_bearerToken c1 c3.
Proof.
  unfold same_but_bearerToken.
  intros (A1 & A2 & A3 & A4 & A5 & A6 & A7 & A8) (B1 & B2 & B3 & B4 & B5 & B6 & B7 & B8).
  repeat split; congruence.
Qed.

Lemma cached_response_config (response : AxiosResponse) (st : State) :
  config (cached_response response st) = config st.
Proof. unfold cached_response. destruct (cacheEnabled (config st)); reflexivity. Qed.

Lemma axiosInstance_from_config (impl : Impl) (fuel : nat) :
  ∀ c st,
    same_but_bearerToken (config st) (config (snd (axiosInstance_from fuel impl c st))).
Proof.
  induction fuel as [|fuel IH]; intros c st; [apply same_but_bearerToken_refl|].
  cbn [axiosInstance_from]. run. unfold send.
  destruct (script st) as [|x rest]; [apply same_but_bearerToken_refl|].
  destruct (respond x _) as [response|error].
  - rewrite handleResponse_outcome.
    destruct (cacheEnabled _ && negb _); cbn [snd];
      rewrite ?cached_response_config; apply same_but_bearerToken_refl.
  - match goal with
    | |- context [handleError impl ?k error ?s] => set (st1 := s); set (resubmit := k)
    end.
    destruct (refresh_case (config st1) error) eqn:Hcase.
    + destruct (getNewAccessToken st1) as [token|t] eqn:Hhook.
      * rewrite (handleError_refresh _ _ _ token st1 Hcase Hhook).
        unfold resubmit.
        eapply same_but_bearerToken_trans; [|apply IH].
        unfold same_but_bearerToken. repeat split; reflexivity.
      * rewrite (handleError_refresh_fails _ _ _ t st1 Hcase Hhook).
        apply same_but_bearerToken_refl.
    + rewrite (handleError_plain _ _ _ st1 Hcase). apply same_but_bearerToken_refl.
Qed.

Lemma retry_loop_config (impl : Impl) (c : RequestConfig) (fuel : nat) :
  ∀ a st, same_but_bearerToken (config st) (config (snd (retry_loop fuel impl c a st))).
Proof.
  induction fuel as [|fuel IH]; intros a st.
  - cbn [retry_loop]. run.
    destruct (a <? retryAttempts (config st)); [|destruct impl];
      apply same_but_bearerToken_refl.
  - destruct (Z.lt_ge_cases a (retryAttempts (config st))) as [Hlt|Hge].
    + rewrite retry_loop_step by exact Hlt.
      pose proof (axiosInstance_from_config impl (S (length (script st))) c st) as Hc.
      fold (axiosInstance impl c st) in Hc.
      destruct (axiosInstance impl c st) as [[r|t|] st1]; cbn [snd] in Hc; try exact Hc.
      destruct (a + 1 =? retryAttempts (config st1)); [exact Hc|].
      eapply same_but_bearerToken_trans; [exact Hc|].
      apply (IH (a + 1) (waited (1000 * (a + 1)) st1)).
    + rewrite retry_loop_exit by exact Hge. destruct impl; apply same_but_bearerToken_refl.
Qed.

(** X6. Whatever happens during a request, the only member of the
    configuration it can change is [auth.bearerToken]: the base URL, the
    timeout, the retry budget, the cache switch and duration, the API
    key, the basic credentials and the refresh token are the same
    afterwards. *)
Theorem request_keeps_configuration (impl : Impl) (m : option string) (endpoint : string)
    (options : RequestConfig) (st : State) :
  same_but_bearerToken (config st) (config (snd (request impl m endpoint options st))).
Proof.
  unfold request. cbn zeta.
  destruct (cacheEnabled (config st) && truthy (memoryCache_get _ st)).
  - apply same_but_bearerToken_refl.
  - apply retry_loop_config.
Qed.

Lemma cached_response_cache_off (response : AxiosResponse) (st : State) :
  cacheEnabled (config st) = false → cached_response response st = st.
Proof. unfold cached_response. intros ->. reflexivity. Qed.

Lemma axiosInstance_from_cache_off (impl : Impl) (fuel : nat) :
  ∀ c st,
    cacheEnabled (config st) = false →
    cache (snd (axiosInstance_from fuel impl c st)) = cache st.
Proof.
  induction fuel as [|fuel IH]; intros c st Hoff; [reflexivity|].
  cbn [axiosInstance_from]. run. unfold send.
  destruct (script st) as [|x rest]; [reflexivity|].
  destruct (respond x _) as [response|error].
  - rewrite handleResponse_outcome.
    destruct (cacheEnabled _ && negb _); cbn [snd]; [reflexivity|].
    rewrite cached_response_cache_off by exact Hoff. reflexivity.
  - match goal with
    | |- context [handleError impl ?k error ?s] => set (st1 := s); set (resubmit := k)
    end.
    destruct (refresh_case (config st1) error) eqn:Hcase.
    + destruct (getNewAccessToken st1) as [token|t] eqn:Hhook.
      * rewrite (handleError_refresh _ _ _ token st1 Hcase Hhook).
        unfold resubmit. rewrite IH by exact Hoff. reflexivity.
      * rewrite (handleError_refresh_fails _ _ _ t st1 Hcase Hhook). reflexivity.
    + rewrite (handleError_plain _ _ _ st1 Hcase). reflexivity.
Qed.

Lemma retry_loop_cache_off (impl : Impl) (c : RequestConfig) (fuel : nat) :
  ∀ a st,
    cacheEnabled (config st) = false →
    cache (snd (retry_loop fuel impl c a st)) = cache st.
Proof.
  induction fuel as [|fuel IH]; intros a st Hoff.
  - cbn [retry_loop]. run.
    destruct (a <? retryAttempts (config st)); [|destruct impl]; reflexivity.
  - destruct (Z.lt_ge_cases a (retryAttempts (config st))) as [Hlt|Hge].
    + rewrite retry_loop_step by exact Hlt.
      pose proof (axiosInstance_from_cache_off impl (S (length (script st))) c st Hoff)
        as Hc.
      pose proof (axiosInstance_from_config impl (S (length (script st))) c st)
        as (_ & _ & _ & Hen & _).
      fold (axiosInstance impl c st) in Hc, Hen.
      destruct (axiosInstance impl c st) as [[r|t|] st1]; cbn [snd] in Hc, Hen;
        try exact Hc.
      destruct (a + 1 =? retryAttempts (config st1)); [exact Hc|].
      rewrite IH; [exact Hc|]. cbn [config waited]. congruence.
    + rewrite retry_loop_exit by exact Hge. destruct impl; reflexivity.
Qed.

(** X7. With caching off a request neither reads nor writes the cache:
    whatever the cache holds, the cache is the same afterwards, caching
    is still off, and with a positive retry budget the first thing the
    request does is call the transport. *)
Theorem request_with_caching_off (impl : Impl) (m : option string) (endpoint : string)
    (options : RequestConfig) (st : State) :
  cacheEnabled (config st) = false →
  cache (snd (request impl m endpoint options st)) = cache st
  ∧ cacheEnabled (config (snd (request impl m endpoint options st))) = false
  ∧ (0 < retryAttempts (config st) →
     ∃ tail,
       log (snd (request impl m endpoint options st))
       = (log st
          ++ Sent (outgoing st (spread_request (default_method impl m options) endpoint
                                  options)) :: tail)%list).
Proof.
  intros Hoff.
  assert (Hreq : request impl m endpoint options st
                 = retry_loop (Z.to_nat (retryAttempts (config st))) impl
                     (spread_request (default_method impl m options) endpoint options)
                     0 st).
  { apply request_miss. unfold cache_miss. rewrite Hoff. reflexivity. }
  rewrite Hreq. split; [apply retry_loop_cache_off; exact Hoff|]. split.
  - pose proof (retry_loop_config impl
                  (spread_request (default_method impl m options) endpoint options)
                  (Z.to_nat (retryAttempts (config st))) 0 st) as (_ & _ & _ & Hen & _).
    congruence.
  - intros Hpos.
    destruct (Z.to_nat (retryAttempts (config st))) as [|fuel] eqn:Hfuel; [lia|].
    apply retry_loop_first_call. exact Hpos.
Qed.

Lemma refreshes_app (l1 l2 : list Event) :
  refreshes (l1 ++ l2)%list = (refreshes l1 + refreshes l2)%nat.
Proof. unfold refreshes. rewrite List.filter_app, List.length_app. reflexivity. Qed.

Lemma no_refresh_case (cfg : Config) (error : AxiosError) :
  truthy_str (refreshToken (auth cfg)) = false → refresh_case cfg error = false.
Proof.
  intros H. unfold refresh_case. destruct (err_response error); [|reflexivity].
  rewrite H. apply andb_false_r.
Qed.

Lemma axiosInstance_without_refreshToken (impl : Impl) (c : RequestConfig) (st : State) :
  truthy_str (refreshToken (auth (config st))) = false →
  config (snd (axiosInstance impl c st)) = config st
  ∧ refreshes (log (snd (axiosInstance impl c st))) = refreshes (log st).
Proof.
  intros Hno.
  destruct (script st) as [|x rest] eqn:Hs.
  - rewrite (axiosInstance_no_answer _ _ _ Hs). cbn [snd config log delivered].
    rewrite refreshes_app. cbn. split; [reflexivity|lia].
  - rewrite (axiosInstance_unfold _ _ _ x rest Hs).
    destruct (respond x (outgoing st c)) as [response|error].
    + rewrite handleResponse_outcome.
      destruct (cacheEnabled _ && negb _); cbn [snd];
        rewrite ?cached_response_config, ?cached_response_log;
        cbn [config log delivered]; rewrite refreshes_app; cbn; (split; [reflexivity|lia]).
    + rewrite handleError_plain by (apply no_refresh_case; exact Hno).
      cbn [snd config log delivered]. rewrite refreshes_app. cbn.
      split; [reflexivity|lia].
Qed.

Lemma retry_loop_without_refreshToken (impl : Impl) (c : RequestConfig) (fuel : nat) :
  ∀ a st,
    truthy_str (refreshToken (auth (config st))) = false →
    config (snd (retry_loop fuel impl c a st)) = config st
    ∧ refreshes (log (snd (retry_loop fuel impl c a st))) = refreshes (log st).
Proof.
  induction fuel as [|fuel IH]; intros a st Hno.
  - cbn [retry_loop]. run.
    destruct (a <? retryAttempts (config st)); [|destruct impl]; split; reflexivity.
  - destruct (Z.lt_ge_cases a (retryAttempts (config st))) as [Hlt|Hge].
    + rewrite retry_loop_step by exact Hlt.
      destruct (axiosInstance_without_refreshToken impl c st Hno) as [Hc Hr].
      destruct (axiosInstance impl c st) as [[r|t|] st1]; cbn [snd] in Hc, Hr;
        try (split; assumption).
      destruct (a + 1 =? retryAttempts (config st1)); [split; assumption|].
      destruct (IH (a + 1) (waited (1000 * (a + 1)) st1)) as [Hc' Hr'].
      { cbn [config waited]. rewrite Hc. exact Hno. }
      rewrite Hc', Hr'. cbn [config log waited]. rewrite refreshes_app. cbn.
      split; [exact Hc|lia].
    + rewrite retry_loop_exit by exact Hge. destruct impl; split; reflexivity.
Qed.

(** X8. Without a refresh token (absent or empty) a request never
    calls the refresh hook and never changes the configuration, whatever
    the transport answers, 401 included. *)
Theorem request_without_refreshToken (impl : Impl) (m : option string)
    (endpoint : string) (options : RequestConfig) (st : State) :
  truthy_str (refreshToken (auth (config st))) = false →
  config (snd (request impl m endpoint options st)) = config st
  ∧ refreshes (log (snd (request impl m endpoint options st))) = refreshes (log st).
Proof.
  intros Hno. unfold request. cbn zeta.
  destruct (cacheEnabled (config st) && truthy (memoryCache_get _ st)).
  - split; reflexivity.
  - apply retry_loop_without_refreshToken. exact Hno.
Qed.

(** *** Back-off *)

Lemma waits_app (l1 l2 : list Event) : waits (l1 ++ l2)%list = waits l1 + waits l2.
Proof.
  induction l1 as [|e l1 IH]; [reflexivity|].
  cbn [app waits]. destruct e; rewrite IH; lia.
Qed.

Lemma waits_backoff_trace (c : RequestConfig) (k : nat) :
  ∀ a, waits (backoff_trace c a k)
       = 1000 * a * Z.of_nat k + 500 * Z.of_nat k * (Z.of_nat k + 1).
Proof.
  induction k as [|k IH]; intros a; [cbn; lia|].
  cbn [backoff_trace waits]. rewrite IH. lia.
Qed.

(** X9. A request whose [retryAttempts] = N attempts all fail (with
    failures that [handleError] rethrows) has spent 500 * N * (N - 1)
    milliseconds in back-off waits before it rejects: nothing for one
    attempt, 1 s for two, 3 s for the default three. *)
Theorem backoff_total (impl : Impl) (m : option string) (endpoint : string)
    (options : RequestConfig) (c : RequestConfig) (st : State)
    (fails : list Exchange) (last : Exchange) (rest : list Exchange) (error : AxiosError) :
  c = spread_request (default_method impl m options) endpoint options →
  cache_miss (getCacheKey c) st →
  script st = (fails ++ last :: rest)%list →
  Forall (plain_failure (config st)) fails →
  Z.of_nat (length fails) = retryAttempts (config st) - 1 →
  respond last (outgoing st c) = Failure error →
  refresh_case (config st) error = false →
  waits (log (snd (request impl m endpoint options st)))
  = waits (log st) + 500 * retryAttempts (config st) * (retryAttempts (config st) - 1).
Proof.
  intros Hc Hmiss Hs Hall Hlen Hr Hcase.
  destruct (request_failure_on_last_attempt impl m endpoint options c st fails last rest
              error Hc Hmiss Hs Hall Hlen Hr Hcase)
    as (st1 & Hreq & _ & _ & _ & Hl).
  rewrite Hreq. cbn [snd]. rewrite Hl, !waits_app, waits_backoff_trace.
  cbn [waits]. nia.
Qed.

(** *** Resubmission has no bound of its own *)

Lemma axiosInstance_all_401 (impl : Impl) :
  (∀ s, ∃ token, getNewAccessToken s = Normal token) →
  ∀ xs c st,
    truthy_str (refreshToken (auth (config st))) = true →
    script st = xs →
    Forall always_401 xs →
    ∃ st',
      axiosInstance impl c st = (Pending, st')
      ∧ script st' = []
      ∧ refreshes (log st') = (refreshes (log st) + length xs)%nat
      ∧ sends (log st') = (sends (log st) + S (length xs))%nat
      ∧ waits (log st') = waits (log st).
Proof.
  intros Hhook xs.
  induction xs as [|x xs IH]; intros c st Hrt Hs Hall.
  - rewrite (axiosInstance_no_answer _ _ _ Hs). eexists. split; [reflexivity|].
    cbn [script log delivered]. rewrite refreshes_app, sends_app, waits_app. cbn.
    repeat split; lia.
  - inversion Hall as [|? ? Hx Hxs]; subst.
    destruct (Hx (outgoing st c)) as (error & response & Hr & Hresp & H401).
    assert (Hcase : refresh_case (config st) error = true).
    { unfold refresh_case. rewrite Hresp, H401, Hrt. reflexivity. }
    destruct (Hhook (delivered (outgoing st c) (latency x) xs st)) as [token Htok].
    rewrite (axiosInstance_refresh impl c st x xs error token Hs Hr Hcase Htok).
    destruct (IH (set_header "Authorization" ("Bearer " ++ token) (err_config error))
                (with_bearerToken token
                   (logged Refreshed (delivered (outgoing st c) (latency x) xs st))))
      as (st' & Hrun & Hscr & Hrf & Hsn & Hw); [exact Hrt|reflexivity|exact Hxs|].
    exists st'. split; [exact Hrun|]. split; [exact Hscr|].
    rewrite Hrf, Hsn, Hw. cbn [log with_bearerToken logged delivered length].
    rewrite !refreshes_app, !sends_app, !waits_app. cbn. repeat split; lia.
Qed.

(** X10. The retry budget does not bound the refresh branch.  With a
    refresh token set and a hook that returns a token, a transport that
    answers 401 is resubmitted to inside the first attempt for as long
    as it answers: however many 401s are scripted and whatever
    [retryAttempts] is, one request consumes them all, calls the hook
    once for each, and is still waiting for the next answer. *)
Theorem refresh_is_unbounded (impl : Impl) (m : option string) (endpoint : string)
    (options : RequestConfig) (st : State) :
  (∀ s, ∃ token, getNewAccessToken s = Normal token) →
  truthy_str (refreshToken (auth (config st))) = true →
  Forall always_401 (script st) →
  cache_miss (getCacheKey (spread_request (default_method impl m options) endpoint options))
    st →
  0 < retryAttempts (config st) →
  ∃ st',
    request impl m endpoint options st = (Pending, st')
    ∧ script st' = []
    ∧ refreshes (log st') = (refreshes (log st) + length (script st))%nat
    ∧ sends (log st') = (sends (log st) + S (length (script st)))%nat
    ∧ waits (log st') = waits (log st).
Proof.
  intros Hhook Hrt Hall Hmiss Hpos.
  rewrite (request_miss _ _ _ _ _ Hmiss).
  destruct (Z.to_nat (retryAttempts (config st))) as [|fuel] eqn:Hfuel; [lia|].
  rewrite retry_loop_step by exact Hpos.
  set (c := spread_request (default_method impl m options) endpoint options).
  destruct (axiosInstance_all_401 impl Hhook (script st) c st Hrt eq_refl Hall)
    as (st' & Hrun & Hscr & Hrf & Hsn & Hw).
  rewrite Hrun. exists st'. repeat split; assumption.
Qed.

(** *** Stored, then served *)

Lemma request_hit (impl : Impl) (m : option string) (endpoint : string)
    (options : RequestConfig) (st : State) (v : value) (expire : Z) :
  cacheEnabled (config st) = true →
  cache st !! getCacheKey (spread_request (default_method impl m options) endpoint options)
  = Some (v, expire) →
  now st ≤ expire →
  truthy v = true →
  request impl m endpoint options st = (Fulfilled (Body v), st).
Proof.
  intros Hen Hlook Hlive Htr. unfold request. cbn zeta.
  unfold memoryCache_get. rewrite Hlook, Hen.
  apply Z.leb_le in Hlive. rewrite Hlive, Htr. reflexivity.
Qed.

Lemma request_then_hit (impl : Impl) (m : option string) (endpoint : string)
    (options : RequestConfig) (c : RequestConfig) (st : State)
    (fails : list Exchange) (x : Exchange) (rest : list Exchange)
    (response : AxiosResponse) :
  c = spread_request (default_method impl m options) endpoint options →
  cache_miss (getCacheKey c) st →
  script st = (fails ++ x :: rest)%list →
  Forall (plain_failure (config st)) fails →
  Z.of_nat (length fails) < retryAttempts (config st) →
  respond x (outgoing st c) = Success response →
  cacheEnabled (config st) = true →
  0 < cacheDuration (config st) →
  getCacheKey (res_config response) = getCacheKey c →
  truthy (decoded (res_data response)) = true →
  ∃ st',
    request impl m endpoint options st = (Fulfilled (answer_of impl response), st')
    ∧ cacheEnabled (config st') = true
    ∧ ∀ later,
        cacheEnabled (config later) = true →
        cache later !! getCacheKey c = cache st' !! getCacheKey c →
        now later ≤ now st' + cacheDuration (config st) →
        request impl m endpoint options later
        = (Fulfilled (Body (decoded (res_data response))), later).
Proof.
  intros Hc Hmiss Hs Hall Hlt Hr Hen Hpos Hkey Htr.
  destruct (request_success_after_failures impl m endpoint options c st fails x rest
              response Hc Hmiss Hs Hall Hlt Hr (fun _ => Hpos))
    as (st1 & Hreq & Hcfg & _ & _ & _).
  exists (cached_response response st1). split; [exact Hreq|].
  split; [rewrite cached_response_config, Hcfg; exact Hen|].
  intros later Hen' Hsame Hlive.
  apply (request_hit impl m endpoint options later (decoded (res_data response))
           (now st1 + cacheDuration (config st))); try assumption.
  - rewrite <- Hc, Hsame. unfold cached_response. rewrite Hcfg, Hen.
    cbn [cache with_entry]. rewrite Hkey. apply lookup_insert_eq.
  - revert Hlive. unfold cached_response. rewrite Hcfg, Hen. cbn [now with_entry]. auto.
Qed.

(** X11. Stored, then served.  With caching on and a positive
    [cacheDuration], when a request succeeds with a truthy parsed body
    and the configuration attached to the response has the request's
    own cache key, the same request made in any state that still holds
    that entry, up to [cacheDuration] later, is answered with the
    parsed body and touches nothing.  In [app.ts] the two answers differ
    in shape: the first is the response object, the repeat is the bare
    body. *)
Theorem cache_round_trip (impl : Impl) (m : option string) (endpoint : string)
    (options : RequestConfig) (c : RequestConfig) (st : State)
    (fails : list Exchange) (x : Exchange) (rest : list Exchange)
    (response : AxiosResponse) :
  c = spread_request (default_method impl m options) endpoint options →
  cache_miss (getCacheKey c) st →
  script st = (fails ++ x :: rest)%list →
  Forall (plain_failure (config st)) fails →
  Z.of_nat (length fails) < retryAttempts (config st) →
  respond x (outgoing st c) = Success response →
  cacheEnabled (config st) = true →
  0 < cacheDuration (config st) →
  getCacheKey (res_config response) = getCacheKey c →
  truthy (decoded (res_data response)) = true →
  ∃ st',
    request impl m endpoint options st
    = (Fulfilled (match impl with
                  | AppJs => Body (decoded (res_data response))
                  | AppTs => Wrapper response
                  end), st')
    ∧ ∀ later,
        cacheEnabled (config later) = true →
        cache later !! getCacheKey c = cache st' !! getCacheKey c →
        now later ≤ now st' + cacheDuration (config st) →
        request impl m endpoint options later
        = (Fulfilled (Body (decoded (res_data response))), later).
Proof.
  intros Hc Hmiss Hs Hall Hlt Hr Hen Hpos Hkey Htr.
  destruct (request_then_hit impl m endpoint options c st fails x rest response
              Hc Hmiss Hs Hall Hlt Hr Hen Hpos Hkey Htr) as (st' & Hreq & _ & Hlater).
  exists st'. split; [exact Hreq|exact Hlater].
Qed.

(** X12. Where a fulfilled request got its answer.  With a positive
    retry budget, a request that fulfils was either answered from the
    cache, with the bare cached value and no change of state, or by
    [handleResponse] from a transport response: in [app.js] always the
    parsed body, in [app.ts] always the response object.  So [app.js]
    never resolves to a response object, and [app.ts] resolves to a bare
    body only on a cache hit. *)
Theorem fulfilled_answers (impl : Impl) (m : option string) (endpoint : string)
    (options : RequestConfig) (st : State) (ans : answer) (st' : State) :
  0 < retryAttempts (config st) →
  request impl m endpoint options st = (Fulfilled ans, st') →
  if cacheEnabled (config st)
     && truthy (memoryCache_get
                  (getCacheKey (spread_request (default_method impl m options) endpoint
                                  options)) st)
  then
    ans = Body (memoryCache_get
                  (getCacheKey (spread_request (default_method impl m options) endpoint
                                  options)) st)
    ∧ st' = st
  else
    ∃ response st1,
      ans = match impl with
            | AppJs => Body (decoded (res_data response))
            | AppTs => Wrapper response
            end
      ∧ st' = cached_response response st1.
Proof.
  intros Hpos Hreq.
  destruct (cacheEnabled (config st) && truthy (memoryCache_get _ st)) eqn:Hhit.
  - unfold request in Hreq. cbn zeta in Hreq. rewrite Hhit in Hreq.
    injection Hreq as <- <-. split; reflexivity.
  - exact (request_fulfilled_by_response impl m endpoint options st ans st' Hhit Hpos Hreq).
Qed.

(** *** What the facades send *)

(** X13. What reaches the transport first.  On a request that is not
    answered from the cache, with a positive retry budget, the first
    request sent has the URL and the method of [options] when [options]
    has them; otherwise the endpoint and the method argument.  In
    [app.js] a missing or empty method argument is replaced by POST when
    [options.data] is truthy and by GET when it is falsy (an empty
    string, 0, false or null body is sent with GET); in [app.ts] it
    stays undefined. *)
Theorem first_request_sent (impl : Impl) (m : option string) (endpoint : string)
    (options : RequestConfig) (st : State) :
  cache_miss (getCacheKey (spread_request (default_method impl m options) endpoint options))
    st →
  0 < retryAttempts (config st) →
  ∃ first tail,
    log (snd (request impl m endpoint options st)) = (log st ++ Sent first :: tail)%list
    ∧ method first
      = match method options with
        | Some given => Some given
        | None =>
            match impl with
            | AppTs => m
            | AppJs =>
                if truthy_str m then m
                else Some (if truthy (data options) then "POST" else "GET")
            end
        end
    ∧ url first = Some (default endpoint (url options))
    ∧ params first = params options ∧ data first = data options
    ∧ headers first = getAuthHeaders (auth (config st)) (headers options).
Proof.
  intros Hmiss Hpos. rewrite (request_miss _ _ _ _ _ Hmiss).
  destruct (Z.to_nat (retryAttempts (config st))) as [|fuel] eqn:Hfuel; [lia|].
  destruct (retry_loop_first_call impl
              (spread_request (default_method impl m options) endpoint options)
              fuel st Hpos) as [tail Ht].
  eexists _, tail. split; [exact Ht|].
  cbn [method url params data headers outgoing with_headers spread_request].
  repeat split.
  - destruct (method options); [reflexivity|].
    destruct impl; cbn [default_method]; [reflexivity|].
    destruct (truthy_str m); [reflexivity|]. destruct (truthy (data options)); reflexivity.
  - destruct (url options); reflexivity.
Qed.

(** X14. [post], [put] and [patch] spread their [config] argument after
    the body: on a call that is not answered from the cache, the request
    sent carries [config.data] instead of the body when [config] has a
    [data] member, [config.method] instead of the verb and [config.url]
    instead of the endpoint; a body left out is the empty object. *)
Theorem facade_config_overrides (impl : Impl) (verb : string)
    (facade : Impl → string → value → RequestConfig → M answer)
    (endpoint : string) (d : value) (cfg : RequestConfig) (st : State) :
  (verb, facade) ∈ [("POST", post); ("PUT", put); ("PATCH", patch)] →
  cache_miss (getCacheKey (spread_request (Some verb) endpoint
                             (body_then (or_empty_object d) cfg))) st →
  0 < retryAttempts (config st) →
  ∃ first tail,
    log (snd (facade impl endpoint d cfg st)) = (log st ++ Sent first :: tail)%list
    ∧ method first = Some (default verb (method cfg))
    ∧ url first = Some (default endpoint (url cfg))
    ∧ data first = match data cfg with
                   | VUndefined => match d with VUndefined => VObj [] | _ => d end
                   | given => given
                   end
    ∧ params first = params cfg.
Proof.
  intros Hin Hmiss Hpos.
  assert (Hverb : default_method impl (Some verb)
                    (body_then (or_empty_object d) cfg) = Some verb).
  { destruct impl; [reflexivity|]. cbn [default_method truthy_str].
    repeat (apply elem_of_cons in Hin as [[= -> _]|Hin]; [reflexivity|]).
    apply elem_of_nil in Hin. destruct Hin. }
  assert (Hfacade : facade impl endpoint d cfg
                    = request impl (Some verb) endpoint
                        (body_then (or_empty_object d) cfg)).
  { repeat (apply elem_of_cons in Hin as [[= -> ->]|Hin]; [reflexivity|]).
    apply elem_of_nil in Hin. destruct Hin. }
  rewrite Hfacade.
  rewrite <- Hverb in Hmiss. rewrite (request_miss _ _ _ _ _ Hmiss), Hverb.
  destruct (Z.to_nat (retryAttempts (config st))) as [|fuel] eqn:Hfuel; [lia|].
  destruct (retry_loop_first_call impl
              (spread_request (Some verb) endpoint (body_then (or_empty_object d) cfg))
              fuel st Hpos) as [tail Ht].
  eexists _, tail. split; [exact Ht|].
  cbn [method url params data headers outgoing with_headers spread_request body_then].
  repeat split.
  - destruct (method cfg); reflexivity.
  - destruct (url cfg); reflexivity.
Qed.

(** X15. To the pipeline a GraphQL mutation is the same call as a
    query: both methods are one function of the endpoint, the text and
    the variables.  On a call that is not answered from the cache the
    request sent is a POST to the endpoint, without params, whose body
    holds the text under [query] and the variables under [variables],
    the empty object when they are left out. *)
Theorem graphql_calls_are_posts (impl : Impl) (endpoint text : string)
    (variables : value) (st : State) :
  cache_miss (getCacheKey (spread_request (Some "POST") endpoint
                             (graphql_options text variables))) st →
  0 < retryAttempts (config st) →
  mutationGraphQL impl endpoint text variables = queryGraphQL impl endpoint text variables
  ∧ ∃ first tail,
      log (snd (mutationGraphQL impl endpoint text variables st))
      = (log st ++ Sent first :: tail)%list
      ∧ method first = Some "POST"
      ∧ url first = Some endpoint
      ∧ params first = VUndefined
      ∧ data first = VObj [("query", VStr text);
                           ("variables", match variables with
                                         | VUndefined => VObj []
                                         | _ => variables
                                         end)].
Proof.
  intros Hmiss Hpos. split; [reflexivity|].
  assert (Hm : default_method impl (Some "POST") (graphql_options text variables)
               = Some "POST") by (destruct impl; reflexivity).
  unfold mutationGraphQL.
  rewrite <- Hm in Hmiss. rewrite (request_miss _ _ _ _ _ Hmiss), Hm.
  destruct (Z.to_nat (retryAttempts (config st))) as [|fuel] eqn:Hfuel; [lia|].
  destruct (retry_loop_first_call impl
              (spread_request (Some "POST") endpoint (graphql_options text variables))
              fuel st Hpos) as [tail Ht].
  eexists _, tail. split; [exact Ht|].
  repeat split.
Qed.

(** *** OpenAIWrapper *)

Ltac orun :=
  repeat (unfold mbind, OM_bind, mret, OM_ret, this_cacheEnabled, olift, othrow, note,
            getCachedResponse, getFromCache, cacheResponse, saveToCache;
          cbn beta iota).

(** [orun], with the value of [this.cacheEnabled] known by [H]. *)
Ltac orun_with H := repeat (orun; rewrite ?H; cbn beta iota).

(** The wrapper of [app.ts] never fulfils with a falsy answer. *)
Lemma request_ts_fulfils_truthy (m : option string) (endpoint : string)
    (options : RequestConfig) (st : State) (ans : answer) (st' : State) :
  request AppTs m endpoint options st = (Fulfilled ans, st') → answer_truthy ans = true.
Proof.
  unfold request. cbn zeta.
  destruct (cacheEnabled (config st) && truthy (memoryCache_get _ st)) eqn:Hhit.
  - intros [= <- <-]. apply andb_true_iff in Hhit as [_ Htr]. exact Htr.
  - destruct (Z.lt_ge_cases 0 (retryAttempts (config st))) as [Hpos|Hnone].
    + intros Hrun.
      destruct (retry_loop_fulfilled AppTs _ _ 0 st ans st' Hpos Hrun)
        as (response & st1 & -> & _).
      reflexivity.
    + rewrite retry_loop_exit by exact Hnone. discriminate.
Qed.

(** X17. Were [cacheEnabled] set on an instance, [chat] and
    [createImage] would never reach the OpenAI client: each is then
    exactly the inherited HTTP [get] of the string "chat-" or "image-"
    followed by the JSON of the parameters, and resolves or rejects with
    it.  The client is not called and [saveToCache] is not reached. *)
Theorem chat_with_cache_member (p : value) (w : Instance) :
  truthy (own_cacheEnabled w) = true →
  chat p w = inherited (get AppTs ("chat-" ++ interp (stringify p)) VUndefined) w
  ∧ createImage p w
    = inherited (get AppTs ("image-" ++ interp (stringify p)) VUndefined) w.
Proof.
  intros Hon. split.
  - unfold chat. orun_with Hon. unfold inherited.
    destruct (get AppTs _ VUndefined (http w)) as [[a|t|] st'] eqn:Hget; try reflexivity.
    unfold get in Hget. apply request_ts_fulfils_truthy in Hget. rewrite Hget.
    reflexivity.
  - unfold createImage. orun_with Hon. unfold inherited.
    destruct (get AppTs _ VUndefined (http w)) as [[a|t|] st'] eqn:Hget; try reflexivity.
    unfold get in Hget. apply request_ts_fulfils_truthy in Hget. rewrite Hget.
    reflexivity.
Qed.

Lemma chat_answer_known (p : value) (w : Instance)
    (x : value → completion value) (rest : list (value → completion value))
    (response : value) :
  truthy (own_cacheEnabled w) = false →
  client w = x :: rest →
  x p = Normal response →
  in_choices response = Normal true →
  chat p w = (Fulfilled (Body response), answered (ClientCalled ChatCompletionsCreate p) rest w)
  ∧ own_cacheEnabled (answered (ClientCalled ChatCompletionsCreate p) rest w)
    = own_cacheEnabled w.
Proof.
  intros Hoff Hclient Hx Hin. split; [|reflexivity].
  unfold chat. orun_with Hoff. unfold call_client. rewrite Hclient, Hx.
  cbn [own_cacheEnabled answered]. orun_with Hoff. rewrite Hin. reflexivity.
Qed.

(** X18. On an instance whose [cacheEnabled] member is falsy, as it is
    on every instance the constructor builds whatever the configuration
    says, [chat] and [createImage] call the OpenAI client exactly once
    and touch neither the cache nor the HTTP pipeline.  [chat] resolves
    with the client's answer when that is an object with a [choices]
    member, rejects with "Invalid response format from OpenAI chat
    completion" when it is an object or array without one, and with a
    [TypeError] when it is a primitive; [createImage] resolves with
    whatever the client answered.  A rejection of the client is passed
    on. *)
Theorem chat_without_cache_member (p : value) (w : Instance)
    (x : value → completion value) (rest : list (value → completion value)) :
  truthy (own_cacheEnabled w) = false →
  client w = x :: rest →
  chat p w
  = (match x p with
     | Normal response =>
         match in_choices response with
         | Normal true => Fulfilled (Body response)
         | Normal false =>
             Rejected (ErrorObj "Invalid response format from OpenAI chat completion")
         | Abrupt t => Rejected t
         end
     | Abrupt t => Rejected t
     end, answered (ClientCalled ChatCompletionsCreate p) rest w)
  ∧ createImage p w
    = (match x p with
       | Normal response => Fulfilled (Body response)
       | Abrupt t => Rejected t
       end, answered (ClientCalled ImagesGenerate p) rest w).
Proof.
  intros Hoff Hclient. split.
  - unfold chat. orun_with Hoff. unfold call_client. rewrite Hclient.
    destruct (x p) as [response|t]; [|reflexivity].
    cbn [own_cacheEnabled answered]. orun_with Hoff.
    destruct (in_choices response) as [[]|t]; reflexivity.
  - unfold createImage. orun_with Hoff. unfold call_client. rewrite Hclient.
    destruct (x p) as [response|t]; [|reflexivity].
    cbn [own_cacheEnabled answered]. orun_with Hoff. reflexivity.
Qed.

Lemma lookup_prop_in_choices (props : list (string * value)) :
  lookup_prop "choices" props ≠ VUndefined →
  in_choices (VObj props) = Normal true.
Proof.
  intros H. unfold in_choices. f_equal.
  induction props as [|[k v] props IH]; [destruct H; reflexivity|].
  cbn [existsb fst lookup_prop] in *.
  rewrite (String.eqb_sym k "choices").
  destruct (String.eqb "choices" k); [reflexivity|]. apply IH. exact H.
Qed.

(** X19. [analyze] on an instance with a falsy [cacheEnabled] member,
    when the client answers with an object that has a [choices] member:
    the result is the [content] of the [message] of the first choice
    when that chain exists and is truthy, and the empty string
    otherwise (no first choice, a first choice without message, a
    message without content, an empty content).  It rejects, with a
    [TypeError], only when [choices] itself is [null] or [undefined].
    The client is called once, with the two messages and the model
    [gpt-3.5-turbo]. *)
Theorem analyze_first_content (text instructions : string) (w : Instance)
    (x : value → completion value) (rest : list (value → completion value))
    (props : list (string * value)) :
  truthy (own_cacheEnabled w) = false →
  client w = x :: rest →
  x (analysis_request text instructions) = Normal (VObj props) →
  in_choices (VObj props) = Normal true →
  analyze text instructions w
  = (match read_first (lookup_prop "choices" props) with
     | Normal choice =>
         Fulfilled (js_or (read_member_opt "content" (read_member_opt "message" choice))
                      (VStr EmptyString))
     | Abrupt t => Rejected t
     end,
     answered (ClientCalled ChatCompletionsCreate (analysis_request text instructions))
       rest w).
Proof.
  intros Hoff Hclient Hx Hin. unfold analyze.
  destruct (chat_answer_known (analysis_request text instructions) w x rest (VObj props)
              Hoff Hclient Hx Hin) as [Hchat _].
  unfold mbind, OM_bind. rewrite Hchat.
  unfold first_content. cbn [answer_choices read_member].
  destruct (read_first (lookup_prop "choices" props)); reflexivity.
Qed.

Lemma chat_history (p : value) (w : Instance) :
  truthy (own_cacheEnabled w) = false →
  history (chat p w).2 = (history w ++ [ClientCalled ChatCompletionsCreate p])%list
  ∧ http (chat p w).2 = http w.
Proof.
  intros Hoff. unfold chat. orun_with Hoff. unfold call_client.
  destruct (client w) as [|x rest]; [split; reflexivity|].
  destruct (x p) as [response|t]; [|split; reflexivity].
  cbn [own_cacheEnabled answered]. orun_with Hoff.
  destruct (in_choices response) as [[]|t]; split; reflexivity.
Qed.

Lemma analyze_history (text instructions : string) (w : Instance) :
  truthy (own_cacheEnabled w) = false →
  history (analyze text instructions w).2
  = (history w ++ [ClientCalled ChatCompletionsCreate
                     (analysis_request text instructions)])%list
  ∧ http (analyze text instructions w).2 = http w.
Proof.
  intros Hoff. unfold analyze, mbind, OM_bind.
  pose proof (chat_history (analysis_request text instructions) w Hoff) as H.
  destruct (chat (analysis_request text instructions) w) as [[a|t|] w'];
    cbn [snd] in *; try exact H.
  unfold olift. destruct (first_content a); exact H.
Qed.

(** X20. On an instance with a falsy [cacheEnabled] member, [summarize]
    and [translate] each make exactly one call, to the chat completions
    of the client, and leave the HTTP pipeline alone.  A [maxLength] of
    zero is treated like a missing one: the system message is then
    "Summarize the following text:", and it carries the word limit for
    every other number. *)
Theorem summarize_and_translate_calls (text targetLanguage : string)
    (maxLength : option Z) (w : Instance) :
  truthy (own_cacheEnabled w) = false →
  summarize text (Some 0) = summarize text None
  ∧ history (summarize text maxLength w).2
    = (history w
       ++ [ClientCalled ChatCompletionsCreate
             (analysis_request text
                (match maxLength with
                 | None | Some 0 => "Summarize the following text:"
                 | Some n => "Summarize the following text in no more than "
                             ++ pretty n ++ " words:"
                 end))])%list
  ∧ http (summarize text maxLength w).2 = http w
  ∧ history (translate text targetLanguage w).2
    = (history w
       ++ [ClientCalled ChatCompletionsCreate
             (analysis_request text
                ("Translate the following text to " ++ targetLanguage ++ ":"))])%list
  ∧ http (translate text targetLanguage w).2 = http w.
Proof.
  intros Hoff. split; [reflexivity|].
  unfold summarize, translate.
  destruct maxLength as [[|n|n]|]; cbn [Z.eqb];
    repeat split; apply analyze_history; exact Hoff.
Qed.

Lemma createImage_history (p : value) (w : Instance) :
  truthy (own_cacheEnabled w) = false →
  history (createImage p w).2 = (history w ++ [ClientCalled ImagesGenerate p])%list
  ∧ http (createImage p w).2 = http w.
Proof.
  intros Hoff. unfold createImage. orun_with Hoff. unfold call_client.
  destruct (client w) as [|x rest]; [split; reflexivity|].
  destruct (x p) as [response|t]; [|split; reflexivity].
  cbn [own_cacheEnabled answered]. orun_with Hoff. split; reflexivity.
Qed.

(** X21. The cache switch of the configuration does not reach the
    OpenAI methods.  On an instance as the constructor builds it,
    whatever [cacheEnabled] and [cacheDuration] the configuration gives,
    [chat] and [createImage] go to the OpenAI client (one call each,
    also when it has no answer or rejects) and leave the cache, the
    transport and the log of the inherited wrapper as they were. *)
Theorem fresh_instance_does_not_cache (cfg : OpenAIConfig)
    (answers : list (value → completion value)) (world : State) (p : value) :
  let w := new_OpenAIWrapper cfg answers world in
  (history (chat p w).2 = [ClientCalled ChatCompletionsCreate p]
   ∧ cache (http (chat p w).2) = cache world
   ∧ script (http (chat p w).2) = script world
   ∧ log (http (chat p w).2) = log world)
  ∧ (history (createImage p w).2 = [ClientCalled ImagesGenerate p]
     ∧ cache (http (createImage p w).2) = cache world
     ∧ script (http (createImage p w).2) = script world
     ∧ log (http (createImage p w).2) = log world).
Proof.
  intros w.
  destruct (chat_history p w eq_refl) as [Hh Hw].
  destruct (createImage_history p w eq_refl) as [Hh' Hw'].
  split.
  - rewrite Hh, Hw. repeat split; reflexivity.
  - rewrite Hh', Hw'. repeat split; reflexivity.
Qed.

End Pipeline.

(** ** The claims on concrete runs *)

(** C2, the claim as stated fails: [{a:1, b:2}] and [{b:2, a:1}] hold the
    same properties, written in opposite orders, and the two requests
    get different cache keys. *)
Lemma cacheKey_depends_on_property_order :
  let ab := object_of [("a", VNum 1); ("b", VNum 2)] in
  let ba := object_of [("b", VNum 2); ("a", VNum 1)] in
  ab ≡ₚ ba
  ∧ getCacheKey (get_request "/posts" (VObj ab))
    = "GET-/posts-{" ++ quote "a" ++ ":1," ++ quote "b" ++ ":2}-{}"
  ∧ getCacheKey (get_request "/posts" (VObj ba))
    = "GET-/posts-{" ++ quote "b" ++ ":2," ++ quote "a" ++ ":1}-{}"
  ∧ getCacheKey (get_request "/posts" (VObj ab))
    ≠ getCacheKey (get_request "/posts" (VObj ba)).
Proof.
  intros ab ba.
  split; [apply perm_swap|].
  split; [vm_compute; reflexivity|].
  split; [vm_compute; reflexivity|].
  vm_compute. discriminate.
Qed.

Lemma getCacheKey_same_order_witness :
  let c1 := get_request "/posts" (VObj [("a", VNum 1); ("b", VNum 2)]) in
  let c2 := set_header "X-Trace" "7" c1 in
  let ab := VObj (object_of [("a", VNum 1); ("b", VNum 2)]) in
  let ba := VObj (object_of [("b", VNum 2); ("a", VNum 1)]) in
  let first_then_second := VObj (object_of [("1", VNum 1); ("2", VNum 2)]) in
  let second_then_first := VObj (object_of [("2", VNum 2); ("1", VNum 1)]) in
  (method c1 = method c2 ∧ url c1 = url c2 ∧ params c1 = params c2 ∧ data c1 = data c2
   ∧ array_index "a" = None ∧ array_index "b" = None
   ∧ enumerated_before "1" "2" = true)
  ∧ getCacheKey c1 = getCacheKey c2
  ∧ getCacheKey (with_params ab c1) ≠ getCacheKey (with_params ba c2)
  ∧ getCacheKey (with_data ab c1) ≠ getCacheKey (with_data ba c2)
  ∧ first_then_second = second_then_first
  ∧ getCacheKey (with_params first_then_second c1)
    = getCacheKey (with_params second_then_first c2)
  ∧ getCacheKey (with_data first_then_second c1)
    = getCacheKey (with_data second_then_first c2).
Proof.
  intros c1 c2 ab ba first_then_second second_then_first.
  split; [repeat split|].
  destruct (getCacheKey_same_order c1 c2 "a" "b" (VNum 1) (VNum 2)
              eq_refl eq_refl eq_refl eq_refl) as (Hsame & Hswap & _).
  destruct (getCacheKey_same_order c1 c2 "1" "2" (VNum 1) (VNum 2)
              eq_refl eq_refl eq_refl eq_refl) as (_ & _ & Hindex).
  split; [exact Hsame|].
  destruct Hswap as [Hp Hd];
    [discriminate|reflexivity|reflexivity|eexists; reflexivity|eexists; reflexivity|].
  destruct (Hindex eq_refl) as (Hobj & Hp' & Hd').
  repeat split; assumption.
Defined.

(** C9, the claim as stated fails: the text frame [{"a":1}] reaches the
    listener as a [Buffer], which [parseResponse] returns as it is, and
    [onMessage] receives that [Buffer], not the decoded object. *)
Lemma text_frame_reaches_onMessage_unparsed :
  let options :=
    {| onOpen := None; onMessage := Some (fun d : SocketData => Normal d);
       onError := None; onClose := None |} in
  let frame := text_frame ("{" ++ quote "a" ++ ":1}") in
  emit (connectWebSocket json_parse "wss://ws.example.com" options) (EvMessage frame)
  = Normal (Some (Buffer ("{" ++ quote "a" ++ ":1}")))
  ∧ emit (connectWebSocket json_parse "wss://ws.example.com" options) (EvMessage frame)
    ≠ Normal (Some (Plain (VObj [("a", VNum 1)]))).
Proof.
  intros options frame. split.
  - vm_compute. reflexivity.
  - vm_compute. discriminate.
Qed.

Lemma connectWebSocket_message_witness :
  let options :=
    {| onOpen := None; onMessage := Some (fun d : SocketData => Normal d);
       onError := None; onClose := None |} in
  onMessage options = Some (fun d : SocketData => Normal d)
  ∧ emit (connectWebSocket json_parse "wss://ws.example.com" options)
      (EvMessage (Plain (VStr ("{" ++ quote "a" ++ ":1}"))))
    = Normal (Some (Plain (VObj [("a", VNum 1)]))).
Proof.
  intros options. split; [reflexivity|].
  rewrite (connectWebSocket_message json_parse "wss://ws.example.com" options
             (fun d : SocketData => Normal d) (Plain (VStr ("{" ++ quote "a" ++ ":1}")))
             eq_refl).
  vm_compute. reflexivity.
Defined.


Example stringify_nested :
  stringify (VObj [("a", VNum 1); ("u", VUndefined); ("l", VArr [VNull; VUndefined; VStr "x"])])
  = Some ("{" ++ quote "a" ++ ":1," ++ quote "l" ++ ":[null,null," ++ quote "x" ++ "]}").
Proof. vm_compute. reflexivity. Qed.

Example base64_user_pass : base64 "user:pass" = "dXNlcjpwYXNz".
Proof. vm_compute. reflexivity. Qed.

Example base64_padding : base64 "a:b1" = "YTpiMQ==" /\ base64 "ab:cd" = "YWI6Y2Q=".
Proof. vm_compute. split; reflexivity. Qed.

Example getCacheKey_get :
  getCacheKey (spread_request (Some "GET") "/posts/1"
                 {| method := None; url := None; params := VObj []; data := VUndefined;
                    headers := ∅ |})
  = "GET-/posts/1-{}-{}".
Proof. vm_compute. reflexivity. Qed.

Example json_parse_object :
  json_parse ("{" ++ quote "a" ++ ":1}") = Normal (VObj [("a", VNum 1)]).
Proof. vm_compute. reflexivity. Qed.

Example json_parse_nested :
  json_parse ("  {" ++ quote "b" ++ ": [true, null, -12, " ++ quote "x\ny" ++ "], "
              ++ quote "7" ++ ":{}, " ++ quote "b" ++ ":false} ")
  = Normal (VObj [("7", VObj []); ("b", VBool false)]).
Proof. vm_compute. reflexivity. Qed.

Example json_parse_rejects :
  json_parse "{a:1}" = Abrupt (SyntaxError "Unexpected token in JSON")
  /\ json_parse EmptyString = Abrupt (SyntaxError "Unexpected token in JSON")
  /\ json_parse "1 2" = Abrupt (SyntaxError "Unexpected non-whitespace character after JSON").
Proof. vm_compute. repeat split; reflexivity. Qed.

(** C1, the claim as stated fails, in three ways.  On [app.ts],
    [get('/posts/1')] against a transport answering
    [{status: 200, data: {id: 1, title: "x"}}] resolves to the response
    object around the body, not to the body.  On [app.js], with a
    transport that attaches the configuration as axios does, the body
    is stored under the key of that configuration, which starts with
    [get], and nothing is stored under the request's own key, which
    starts with [GET]: the same [get] made again goes to the transport
    again.  And with caching on and a [cacheDuration] of 0, which the
    [app.js] constructor keeps, the store refuses the body and every
    attempt fails although the transport succeeded. *)
Lemma successful_get_breaks_the_claim :
  let run impl cfg :=
    get json_parse getNewAccessToken_placeholder impl "/posts/1" VUndefined
      (started cfg [axios_answers 200 post1; axios_answers 200 post1;
                    axios_answers 200 post1]) in
  let ts := run AppTs (jsonplaceholder_config AppTs) in
  let js := run AppJs (jsonplaceholder_config AppJs) in
  let again :=
    get json_parse getNewAccessToken_placeholder AppJs "/posts/1" VUndefined (snd js) in
  let zero :=
    run AppJs
      (constructor AppJs
         {| given_baseURL := None; given_timeout := None; given_retryAttempts := None;
            given_cacheEnabled := Some true; given_cacheDuration := Some 0;
            given_auth := None |}) in
  (fst ts = Fulfilled (Wrapper {| res_data := post1; res_status := 200;
                                  res_config := axios_config
                                                  (get_request "/posts/1" (VObj [])) |})
   ∧ fst ts ≠ Fulfilled (Body post1))
  ∧ (fst js = Fulfilled (Body post1)
     ∧ getCacheKey (get_request "/posts/1" (VObj [])) = "GET-/posts/1-{}-{}"
     ∧ cache (snd js) !! "GET-/posts/1-{}-{}" = None
     ∧ cache (snd js) !! "get-/posts/1-{}-{}" = Some (post1, 300020)
     ∧ fst again = Fulfilled (Body post1)
     ∧ sends (log (snd again)) = 2%nat)
  ∧ (fst zero
     = Rejected (ErrorObj "Response parsing error: Cache timeout must be a positive number")
     ∧ sends (log (snd zero)) = 3%nat
     ∧ cache (snd zero) = ∅).
Proof.
  intros run ts js again zero.
  split; [split; [vm_compute; reflexivity|vm_compute; discriminate]|].
  split; repeat split; vm_compute; reflexivity.
Qed.

Lemma request_resolves_with_response_witness :
  let st := started (jsonplaceholder_config AppJs) [axios_answers 200 post1] in
  let c := get_request "/posts/1" (VObj []) in
  let response := {| res_data := post1; res_status := 200;
                     res_config := axios_config (outgoing st c) |} in
  (cache_miss (getCacheKey c) st
   ∧ script st = ([] ++ [axios_answers 200 post1])%list
   ∧ Forall (plain_failure (config st)) []
   ∧ Z.of_nat (length (@nil Exchange)) < retryAttempts (config st)
   ∧ respond (axios_answers 200 post1) (outgoing st c) = Success response
   ∧ (cacheEnabled (config st) = true → 0 < cacheDuration (config st)))
  ∧ ∃ st1,
      request json_parse getNewAccessToken_placeholder AppJs (Some "GET") "/posts/1"
        (get_options (VObj [])) st
      = (Fulfilled (Body post1),
         with_entry "get-/posts/1-{}-{}" post1 300000 st1)
      ∧ cache st1 = cache st ∧ script st1 = [].
Proof.
  intros st c response.
  assert (H1 : cache_miss (getCacheKey c) st) by (vm_compute; reflexivity).
  assert (H2 : script st = ([] ++ [axios_answers 200 post1])%list) by reflexivity.
  assert (H3 : Forall (plain_failure (config st)) []) by constructor.
  assert (H4 : Z.of_nat (length (@nil Exchange)) < retryAttempts (config st))
    by (vm_compute; reflexivity).
  assert (H5 : respond (axios_answers 200 post1) (outgoing st c) = Success response)
    by reflexivity.
  assert (H6 : cacheEnabled (config st) = true → 0 < cacheDuration (config st))
    by (intros _; reflexivity).
  split; [repeat split; assumption|].
  destruct (request_resolves_with_response json_parse getNewAccessToken_placeholder
              AppJs (Some "GET") "/posts/1" (get_options (VObj [])) c st []
              (axios_answers 200 post1) [] response eq_refl H1 H2 H3 H4 H5 H6)
    as (st1 & Hreq & Hca & Hsc & _).
  exists st1. split; [|split; assumption].
  rewrite Hreq. reflexivity.
Defined.

(** C3, the claim as stated fails: a live entry holding 0 is not
    returned; the request goes to the transport and resolves with the
    fresh answer. *)
Lemma live_falsy_entry_is_not_returned :
  let st := holding "GET-/count-{}-{}" (VNum 0) 300000
              (started (jsonplaceholder_config AppJs) [answers 200 (VNum 7)]) in
  cacheEnabled (config st) = true
  ∧ cache st !! getCacheKey (get_request "/count" (VObj [])) = Some (VNum 0, 300000)
  ∧ now st ≤ 300000
  ∧ fst (get json_parse getNewAccessToken_placeholder AppJs "/count" VUndefined st)
    = Fulfilled (Body (VNum 7))
  ∧ sends (log (snd (get json_parse getNewAccessToken_placeholder AppJs "/count"
                       VUndefined st))) = 1%nat.
Proof.
  intros st. repeat split; vm_compute; try reflexivity. discriminate.
Qed.

Lemma request_cache_hit_witness :
  let st := holding "GET-/posts/1-{}-{}" post1 300000
              (started (jsonplaceholder_config AppJs) []) in
  (cacheEnabled (config st) = true
   ∧ cache st !! getCacheKey (get_request "/posts/1" (VObj [])) = Some (post1, 300000)
   ∧ now st ≤ 300000
   ∧ truthy post1 = true)
  ∧ request json_parse getNewAccessToken_placeholder AppJs (Some "GET") "/posts/1"
      (get_options (VObj [])) st
    = (Fulfilled (Body post1), st).
Proof.
  intros st.
  assert (H1 : cacheEnabled (config st) = true) by reflexivity.
  assert (H2 : cache st !! getCacheKey (get_request "/posts/1" (VObj []))
               = Some (post1, 300000)) by (vm_compute; reflexivity).
  assert (H3 : now st ≤ 300000) by (vm_compute; discriminate).
  assert (H4 : truthy post1 = true) by reflexivity.
  split; [repeat split; assumption|].
  exact (request_cache_hit json_parse getNewAccessToken_placeholder AppJs (Some "GET")
           "/posts/1" (get_options (VObj [])) st post1 300000 H1 H2 H3 H4).
Defined.

(** C4, the claim as stated fails: with three attempts configured,
    caching on and a [cacheDuration] of 0 (which the [app.js]
    constructor keeps), the transport fails twice and then succeeds,
    and [request] does not return that success: the store refuses the
    body, the third attempt fails with the store's error, and that
    error is what the caller receives. *)
Lemma success_that_cannot_be_stored_is_not_returned :
  let st := started (constructor AppJs
                       {| given_baseURL := None; given_timeout := None;
                          given_retryAttempts := Some 3; given_cacheEnabled := Some true;
                          given_cacheDuration := Some 0; given_auth := None |})
              [fails_with 503 (VObj []); times_out; axios_answers 200 post1] in
  let run := request json_parse getNewAccessToken_placeholder AppJs (Some "GET")
               "/posts/1" (get_options (VObj [])) st in
  retryAttempts (config st) = 3
  ∧ respond (axios_answers 200 post1) (outgoing st (get_request "/posts/1" (VObj [])))
    = Success {| res_data := post1; res_status := 200;
                 res_config := axios_config (get_request "/posts/1" (VObj [])) |}
  ∧ fst run
    = Rejected (ErrorObj "Response parsing error: Cache timeout must be a positive number")
  ∧ (∀ response, fst run ≠ Fulfilled (Body post1) ∧ fst run ≠ Fulfilled (Wrapper response))
  ∧ sends (log (snd run)) = 3%nat
  ∧ script (snd run) = [].
Proof.
  intros st run.
  split; [reflexivity|]. split; [vm_compute; reflexivity|].
  split; [vm_compute; reflexivity|].
  split; [intros response; split; vm_compute; discriminate|].
  split; vm_compute; reflexivity.
Qed.

(** A 401 answered by the refresh branch is resubmitted inside the
    attempt: with three attempts configured and a refresh token set, a
    401 followed by three 404s is four transport calls, three of which
    the retry loop counted. *)
Example refresh_resubmission_is_an_extra_call :
  let st := started (refreshing_config AppJs)
              [fails_with 401 (VObj []); fails_with 404 (VObj []);
               fails_with 404 (VObj []); fails_with 404 (VObj [])] in
  let run := request json_parse getNewAccessToken_placeholder AppJs (Some "GET") "/me"
               (get_options (VObj [])) st in
  retryAttempts (config st) = 3
  ∧ fst run = Rejected (Normalized 404 (VStr "Request failed with status code 404")
                          (VObj []))
  ∧ sends (log (snd run)) = 4%nat
  ∧ List.map (fun e => match e with Sent _ => "sent" | Refreshed => "refreshed"
                                | Slept _ => "slept" end) (log (snd run))
    = ["sent"; "refreshed"; "sent"; "slept"; "sent"; "slept"; "sent"]
  ∧ script (snd run) = [].
Proof.
  intros st run. repeat split; vm_compute; reflexivity.
Qed.

Lemma retry_budget_witness :
  let fails := [fails_with 503 (VObj []); times_out] in
  let last := fails_with 404 (VObj [("message", VStr "Not Found")]) in
  let st := started (jsonplaceholder_config AppJs) (fails ++ [last; answers 200 post1])%list in
  let st2 := started (jsonplaceholder_config AppJs)
               (fails ++ [axios_answers 200 post1])%list in
  let c := get_request "/posts/999" (VObj []) in
  (cache_miss (getCacheKey c) st
   ∧ Forall (plain_failure (config st)) fails
   ∧ Z.of_nat (length fails) = retryAttempts (config st) - 1
   ∧ (cacheEnabled (config st2) = true → 0 < cacheDuration (config st2)))
  ∧ (∃ st',
       request json_parse getNewAccessToken_placeholder AppJs (Some "GET") "/posts/999"
         (get_options (VObj [])) st
       = (Rejected (Normalized 404 (VStr "Not Found")
                      (VObj [("message", VStr "Not Found")])), st')
       ∧ attempts_made c 2 [answers 200 post1] st st'
       ∧ Z.of_nat (sends (log st')) = Z.of_nat (sends (log st)) + 3)
  ∧ ∃ st',
      request json_parse getNewAccessToken_placeholder AppJs (Some "GET") "/posts/999"
        (get_options (VObj [])) st2
      = (Fulfilled (Body post1), st')
      ∧ attempts_made c 2 [] st2 st'
      ∧ Z.of_nat (sends (log st')) = Z.of_nat (sends (log st2)) + 3.
Proof.
  intros fails last st st2 c.
  assert (H1 : cache_miss (getCacheKey c) st) by (vm_compute; reflexivity).
  assert (H2 : Forall (plain_failure (config st)) fails).
  { repeat constructor; intros c'; eexists; split; reflexivity. }
  assert (H3 : Z.of_nat (length fails) = retryAttempts (config st) - 1) by reflexivity.
  assert (H4 : cacheEnabled (config st2) = true → 0 < cacheDuration (config st2))
    by (intros _; reflexivity).
  split; [repeat split; assumption|]. split.
  - exact (retry_budget json_parse getNewAccessToken_placeholder AppJs (Some "GET")
             "/posts/999" (get_options (VObj [])) c st fails last [answers 200 post1]
             eq_refl H1 eq_refl H2 H3 eq_refl).
  - exact (retry_budget json_parse getNewAccessToken_placeholder AppJs (Some "GET")
             "/posts/999" (get_options (VObj [])) c st2 fails (axios_answers 200 post1) []
             eq_refl H1 eq_refl H2 H3 H4).
Defined.

(** C5, the claim as stated fails: with three attempts configured and a
    refresh hook that fails, every 401 is followed by a back-off wait
    and another attempt, and the hook is called on each of them. *)
Lemma failed_refresh_is_retried :
  let st := started (refreshing_config AppJs)
              [fails_with 401 (VObj []); fails_with 401 (VObj []);
               fails_with 401 (VObj [])] in
  let c := outgoing st (get_request "/me" (VObj [])) in
  request json_parse failing_hook AppJs (Some "GET") "/me" (get_options (VObj [])) st
  = (Rejected (ErrorObj "refresh failed"),
     {| config := config st; cache := ∅; now := 3060; script := [];
        log := [Sent c; Refreshed; Slept 1000; Sent c; Refreshed; Slept 2000;
                Sent c; Refreshed] |})
  ∧ refreshes (log (snd (request json_parse failing_hook AppJs (Some "GET") "/me"
                           (get_options (VObj [])) st))) = 3%nat.
Proof.
  intros st c. split; vm_compute; reflexivity.
Qed.

Lemma refresh_on_401_witness :
  let st := started (refreshing_config AppJs) [fails_with 401 (VObj []); answers 200 post1] in
  let c := get_request "/me" (VObj []) in
  let error := error_with 401 (VObj []) (outgoing st c) in
  (script st = [fails_with 401 (VObj []); answers 200 post1]
   ∧ respond (fails_with 401 (VObj [])) (outgoing st c) = Failure error
   ∧ refresh_case (config st) error = true)
  ∧ ∃ st',
      request json_parse getNewAccessToken_placeholder AppJs (Some "GET") "/me"
        (get_options (VObj [])) st
      = (Fulfilled (Body post1), st')
      ∧ bearerToken (auth (config st')) = Some "new-access-token"
      ∧ log st'
        = [Sent (outgoing st c); Refreshed;
           Sent (set_header "Authorization" "Bearer new-access-token" (outgoing st c))].
Proof.
  intros st c error.
  assert (H1 : script st = [fails_with 401 (VObj []); answers 200 post1]) by reflexivity.
  assert (H2 : respond (fails_with 401 (VObj [])) (outgoing st c) = Failure error)
    by reflexivity.
  assert (H3 : refresh_case (config st) error = true) by reflexivity.
  split; [repeat split; assumption|].
  pose proof (refresh_on_401 json_parse getNewAccessToken_placeholder AppJs c st
                (fails_with 401 (VObj [])) [answers 200 post1] error H1 H2 H3) as H.
  cbv zeta in H. unfold getNewAccessToken_placeholder at 1 in H.
  destruct H as (_ & _ & _ & _ & _ & Hreq).
  eexists. split; [|split].
  - apply (Hreq (Some "GET") "/me" (get_options (VObj [])) (answers 200 post1) []
             {| res_data := post1; res_status := 200;
                res_config := set_header "Authorization" "Bearer new-access-token"
                                (outgoing st c) |}).
    + reflexivity.
    + vm_compute. reflexivity.
    + vm_compute. reflexivity.
    + reflexivity.
    + vm_compute. reflexivity.
    + intros Hon. discriminate Hon.
  - vm_compute. reflexivity.
  - vm_compute. reflexivity.
Defined.

(** C6, the claim as stated fails on [app.ts]: a 404 that used up the
    retry budget reaches the caller as the transport's own error object,
    not as [{status, message, data}]. *)
Lemma app_ts_surfaces_raw_error :
  let st := started (jsonplaceholder_config AppTs)
              [fails_with 404 (VObj []); fails_with 404 (VObj []);
               fails_with 404 (VObj [])] in
  fst (get json_parse getNewAccessToken_placeholder AppTs "/posts/999" VUndefined st)
  = Rejected (Raw (error_with 404 (VObj []) (get_request "/posts/999" (VObj []))))
  ∧ ∀ status message body,
      fst (get json_parse getNewAccessToken_placeholder AppTs "/posts/999" VUndefined st)
      ≠ Rejected (Normalized status message body).
Proof.
  intros st. split.
  - vm_compute. reflexivity.
  - intros status message body. vm_compute. discriminate.
Qed.

Lemma handleError_surfaces_witness :
  let st0 := started (constructor AppJs
                        {| given_baseURL := None; given_timeout := None;
                           given_retryAttempts := Some 1; given_cacheEnabled := None;
                           given_cacheDuration := None; given_auth := None |})
               [fails_with 404 (VObj [("message", VStr "Not Found")])] in
  let c := get_request "/posts/999" (VObj []) in
  let error := error_with 404 (VObj [("message", VStr "Not Found")]) (outgoing st0 c) in
  let st := delivered (outgoing st0 c) 20 [] st0 in
  let t := Normalized 404 (VStr "Not Found") (VObj [("message", VStr "Not Found")]) in
  refresh_case (config st) error = false
  ∧ handleError getNewAccessToken_placeholder AppJs (fun _ => pending) error st
    = (Rejected t, st)
  ∧ request json_parse getNewAccessToken_placeholder AppJs (Some "GET") "/posts/999"
      (get_options (VObj [])) st0
    = (Rejected t, st).
Proof.
  intros st0 c error st t.
  assert (H : refresh_case (config st) error = false) by reflexivity.
  split; [exact H|].
  destruct (handleError_surfaces json_parse getNewAccessToken_placeholder AppJs
              (fun _ => pending) error st H) as [Hthrow Hreq].
  split; [exact Hthrow|].
  apply (Hreq (Some "GET") "/posts/999" (get_options (VObj [])) c st0
           (fails_with 404 (VObj [("message", VStr "Not Found")])) []);
    reflexivity.
Defined.

Lemma falsy_entry_is_a_miss_witness :
  let st := holding "GET-/count-{}-{}" (VNum 0) 300000
              (started (jsonplaceholder_config AppJs) [answers 200 (VNum 7)]) in
  let c := get_request "/count" (VObj []) in
  (cacheEnabled (config st) = true
   ∧ cache st !! getCacheKey c = Some (VNum 0, 300000)
   ∧ now st ≤ 300000)
  ∧ request json_parse getNewAccessToken_placeholder AppJs (Some "GET") "/count"
      (get_options (VObj [])) st
    = retry_loop json_parse getNewAccessToken_placeholder
        (Z.to_nat (retryAttempts (config st))) AppJs c 0 st
  ∧ ∃ tail,
      log (snd (request json_parse getNewAccessToken_placeholder AppJs (Some "GET")
                  "/count" (get_options (VObj [])) st))
      = (log st ++ Sent (outgoing st c) :: tail)%list.
Proof.
  intros st c.
  assert (H1 : cacheEnabled (config st) = true) by reflexivity.
  assert (H2 : cache st !! getCacheKey c = Some (VNum 0, 300000))
    by (vm_compute; reflexivity).
  assert (H3 : now st ≤ 300000) by (vm_compute; discriminate).
  split; [repeat split; assumption|].
  destruct (falsy_entry_is_a_miss json_parse getNewAccessToken_placeholder AppJs
              (Some "GET") "/count" (get_options (VObj [])) c st (VNum 0) 300000
              eq_refl H1 H2 H3) as [Hreq Hlog].
  split; [exact Hreq|].
  apply Hlog. vm_compute. reflexivity.
Defined.

(** ** Further runs *)

(** Basic credentials next to a bearer token: the Basic value is the one
    that stays. *)
Example basic_overwrites_bearer :
  let a := {| apiKey := Some "k-1"; bearerToken := Some "t-1";
              basicAuth := Some {| username := "user"; password := "pass" |};
              refreshToken := None |} in
  let h := getAuthHeaders a {[ "Accept" := "application/json" ]} in
  h !! "Authorization" = Some "Basic dXNlcjpwYXNz"
  ∧ h !! "X-API-Key" = Some "k-1"
  ∧ h !! "Accept" = Some "application/json".
Proof. vm_compute. repeat split; reflexivity. Qed.

(** A request made with the method in lower case, against a transport
    that attaches the configuration as axios does: the body is stored
    under the request's own key, and the same request made again is
    answered from the cache and leaves the second scripted exchange
    unused. *)
Example lower_case_get_twice_hits_the_cache :
  let st := started (jsonplaceholder_config AppJs)
              [axios_answers 200 (VStr ("{" ++ quote "id" ++ ":1," ++ quote "title" ++ ":"
                                        ++ quote "x" ++ "}"));
               axios_answers 200 (VStr "unused")] in
  let first := request json_parse getNewAccessToken_placeholder AppJs (Some "get")
                 "/posts/1" (get_options (VObj [])) st in
  let second := request json_parse getNewAccessToken_placeholder AppJs (Some "get")
                  "/posts/1" (get_options (VObj [])) (snd first) in
  fst first = Fulfilled (Body post1)
  ∧ fst second = Fulfilled (Body post1)
  ∧ snd second = snd first
  ∧ sends (log (snd second)) = 1%nat
  ∧ List.length (script (snd second)) = 1%nat.
Proof. intros st first second. vm_compute. repeat split; reflexivity. Qed.

(** A network failure has no response and reaches the caller as it
    is, in both implementations, once the attempts are used up. *)
Example timeout_is_passed_through :
  ∀ impl,
    fst (get json_parse getNewAccessToken_placeholder impl "/slow" VUndefined
           (started (jsonplaceholder_config impl) [times_out; times_out; times_out]))
    = Rejected (Raw (timeout_error (get_request "/slow" (VObj [])))).
Proof. intros []; vm_compute; reflexivity. Qed.

(** With a retry budget that is not positive the loop body never runs:
    [app.ts] throws its own error, [app.js] resolves to [undefined],
    and neither calls the transport. *)
Example no_budget_no_call :
  let cfg impl :=
    constructor impl
      {| given_baseURL := None; given_timeout := None; given_retryAttempts := Some (-1);
         given_cacheEnabled := None; given_cacheDuration := None; given_auth := None |} in
  get json_parse getNewAccessToken_placeholder AppTs "/x" VUndefined
    (started (cfg AppTs) [answers 200 VNull])
  = (Rejected (ErrorObj "Max retry attempts reached"), started (cfg AppTs) [answers 200 VNull])
  ∧ get json_parse getNewAccessToken_placeholder AppJs "/x" VUndefined
      (started (cfg AppJs) [answers 200 VNull])
    = (Fulfilled (Body VUndefined), started (cfg AppJs) [answers 200 VNull]).
Proof. intros cfg. split; reflexivity. Qed.

(** ** The further properties on concrete runs *)

Lemma resubmission_authorization_witness :
  let st := started (refreshing_config AppJs) [fails_with 401 (VObj []); answers 200 post1] in
  let c := get_request "/me" (VObj []) in
  let error := error_with 401 (VObj []) (outgoing st c) in
  (script st = [fails_with 401 (VObj []); answers 200 post1]
   ∧ respond (fails_with 401 (VObj [])) (outgoing st c) = Failure error
   ∧ refresh_case (config st) error = true
   ∧ getNewAccessToken_placeholder (delivered (outgoing st c) 20 [answers 200 post1] st)
     = Normal "new-access-token")
  ∧ ∃ resent tail,
      log (snd (axiosInstance json_parse getNewAccessToken_placeholder AppJs c st))
      = (log st ++ Sent (outgoing st c) :: Refreshed :: Sent resent :: tail)%list
      ∧ headers resent !! "Authorization" = Some "Bearer new-access-token"
      ∧ method resent = Some "GET" ∧ url resent = Some "/me"
      ∧ params resent = VObj [] ∧ data resent = VUndefined.
Proof.
  intros st c error.
  split; [repeat split; reflexivity|].
  exact (resubmission_authorization json_parse getNewAccessToken_placeholder AppJs c st
           (fails_with 401 (VObj [])) [answers 200 post1] error "new-access-token"
           eq_refl eq_refl eq_refl eq_refl).
Defined.

Lemma getCacheKey_blind_spots_witness :
  let c := get_request "/posts" (VObj []) in
  let props := [("a", VNum 1); ("u", VUndefined)] in
  truthy (VNum 0) = false
  ∧ getCacheKey (with_params (VNum 0) c) = getCacheKey (with_params (VObj []) c)
  ∧ getCacheKey (with_data (VNum 0) c) = getCacheKey (with_data (VObj []) c)
  ∧ getCacheKey (with_params (VObj props) c)
    = getCacheKey (with_params (VObj [("a", VNum 1)]) c)
  ∧ getCacheKey (with_data (VObj props) c)
    = getCacheKey (with_data (VObj [("a", VNum 1)]) c).
Proof.
  intros c props. split; [reflexivity|].
  exact (getCacheKey_blind_spots c (VNum 0) props eq_refl).
Defined.

Lemma request_without_budget_witness :
  let st := started (constructor AppJs no_budget) [answers 200 post1] in
  (retryAttempts (config st) ≤ 0
   ∧ cache_miss (getCacheKey (get_request "/posts/1" (VObj []))) st)
  ∧ request json_parse getNewAccessToken_placeholder AppJs (Some "GET") "/posts/1"
      (get_options (VObj [])) st
    = (Fulfilled (Body VUndefined), st).
Proof.
  intros st.
  assert (H1 : retryAttempts (config st) ≤ 0) by (vm_compute; discriminate).
  assert (H2 : cache_miss (getCacheKey (get_request "/posts/1" (VObj []))) st)
    by reflexivity.
  split; [split; assumption|].
  exact (request_without_budget json_parse getNewAccessToken_placeholder AppJs
           (Some "GET") "/posts/1" (get_options (VObj [])) st H1 H2).
Defined.

Lemma constructor_and_budget_witness :
  let ts := started (constructor AppTs no_budget) [answers 200 post1] in
  let js := started (constructor AppJs no_budget) [answers 200 post1] in
  let c := get_request "/posts/1" (VObj []) in
  (given_retryAttempts no_budget = Some 0
   ∧ cache_miss (getCacheKey c) ts ∧ cache_miss (getCacheKey c) js)
  ∧ (∃ tail,
       log (snd (request json_parse getNewAccessToken_placeholder AppTs (Some "GET")
                   "/posts/1" (get_options (VObj [])) ts))
       = (log ts ++ Sent (outgoing ts c) :: tail)%list)
  ∧ request json_parse getNewAccessToken_placeholder AppJs (Some "GET") "/posts/1"
      (get_options (VObj [])) js
    = (Fulfilled (Body VUndefined), js).
Proof.
  intros ts js c.
  assert (Hts : cache_miss (getCacheKey c) ts) by reflexivity.
  assert (Hjs : cache_miss (getCacheKey c) js) by reflexivity.
  split; [repeat split; assumption|]. split.
  - apply (proj1 (constructor_and_budget json_parse getNewAccessToken_placeholder
                    no_budget 0 (Some "GET") "/posts/1" (get_options (VObj [])) ts
                    eq_refl));
      [lia|reflexivity|exact Hts].
  - apply (proj2 (constructor_and_budget json_parse getNewAccessToken_placeholder
                    no_budget 0 (Some "GET") "/posts/1" (get_options (VObj [])) js
                    eq_refl));
      [lia|reflexivity|exact Hjs].
Defined.

Lemma request_with_caching_off_witness :
  let st := holding "GET-/me-{}-{}" post1 300000
              (started (refreshing_config AppTs) [answers 200 (VNum 7)]) in
  let run := request json_parse getNewAccessToken_placeholder AppTs (Some "GET") "/me"
               (get_options (VObj [])) st in
  cacheEnabled (config st) = false
  ∧ cache (snd run) = cache st
  ∧ cacheEnabled (config (snd run)) = false
  ∧ ∃ tail, log (snd run)
            = (log st ++ Sent (outgoing st (get_request "/me" (VObj []))) :: tail)%list.
Proof.
  intros st run.
  destruct (request_with_caching_off json_parse getNewAccessToken_placeholder AppTs
              (Some "GET") "/me" (get_options (VObj [])) st eq_refl)
    as (Hcache & Hoff & Hlog).
  split; [reflexivity|]. split; [exact Hcache|]. split; [exact Hoff|].
  apply Hlog. reflexivity.
Defined.

Lemma request_without_refreshToken_witness :
  let st := started (jsonplaceholder_config AppJs)
              [fails_with 401 (VObj []); fails_with 401 (VObj []);
               fails_with 401 (VObj [])] in
  let run := request json_parse getNewAccessToken_placeholder AppJs (Some "GET") "/me"
               (get_options (VObj [])) st in
  truthy_str (refreshToken (auth (config st))) = false
  ∧ config (snd run) = config st
  ∧ refreshes (log (snd run)) = refreshes (log st).
Proof.
  intros st run. split; [reflexivity|].
  exact (request_without_refreshToken json_parse getNewAccessToken_placeholder AppJs
           (Some "GET") "/me" (get_options (VObj [])) st eq_refl).
Defined.

Lemma backoff_total_witness :
  let fails := [fails_with 503 (VObj []); times_out] in
  let last := fails_with 404 (VObj []) in
  let st := started (jsonplaceholder_config AppTs) (fails ++ [last])%list in
  let c := get_request "/posts/999" (VObj []) in
  (cache_miss (getCacheKey c) st
   ∧ Forall (plain_failure (config st)) fails
   ∧ Z.of_nat (length fails) = retryAttempts (config st) - 1
   ∧ respond last (outgoing st c) = Failure (error_with 404 (VObj []) (outgoing st c))
   ∧ refresh_case (config st) (error_with 404 (VObj []) (outgoing st c)) = false)
  ∧ waits (log (snd (request json_parse getNewAccessToken_placeholder AppTs (Some "GET")
                       "/posts/999" (get_options (VObj [])) st)))
    = 3000.
Proof.
  intros fails last st c.
  assert (H1 : cache_miss (getCacheKey c) st) by (vm_compute; reflexivity).
  assert (H2 : Forall (plain_failure (config st)) fails).
  { repeat constructor; intros c'; eexists; split; reflexivity. }
  assert (H3 : Z.of_nat (length fails) = retryAttempts (config st) - 1) by reflexivity.
  split; [repeat split; try assumption; reflexivity|].
  exact (backoff_total json_parse getNewAccessToken_placeholder AppTs (Some "GET")
           "/posts/999" (get_options (VObj [])) c st fails last []
           (error_with 404 (VObj []) (outgoing st c)) eq_refl H1 eq_refl H2 H3 eq_refl
           eq_refl).
Defined.

Lemma refresh_is_unbounded_witness :
  let st := started (refreshing_config AppJs)
              [fails_with 401 (VObj []); fails_with 401 (VObj []);
               fails_with 401 (VObj []); fails_with 401 (VObj []);
               fails_with 401 (VObj [])] in
  ((∀ s, ∃ token, getNewAccessToken_placeholder s = Normal token)
   ∧ truthy_str (refreshToken (auth (config st))) = true
   ∧ Forall always_401 (script st)
   ∧ cache_miss (getCacheKey (get_request "/me" (VObj []))) st
   ∧ 0 < retryAttempts (config st))
  ∧ ∃ st',
      request json_parse getNewAccessToken_placeholder AppJs (Some "GET") "/me"
        (get_options (VObj [])) st = (Pending, st')
      ∧ script st' = []
      ∧ refreshes (log st') = 5%nat
      ∧ sends (log st') = 6%nat
      ∧ waits (log st') = 0.
Proof.
  intros st.
  assert (H1 : ∀ s, ∃ token, getNewAccessToken_placeholder s = Normal token)
    by (intros s; eexists; reflexivity).
  assert (H2 : truthy_str (refreshToken (auth (config st))) = true) by reflexivity.
  assert (H3 : Forall always_401 (script st)).
  { repeat constructor; intros c'; eexists _, _; repeat split; reflexivity. }
  assert (H4 : cache_miss (getCacheKey (get_request "/me" (VObj []))) st) by reflexivity.
  assert (H5 : 0 < retryAttempts (config st)) by reflexivity.
  split; [repeat split; assumption|].
  exact (refresh_is_unbounded json_parse getNewAccessToken_placeholder AppJs (Some "GET")
           "/me" (get_options (VObj [])) st H1 H2 H3 H4 H5).
Defined.

Lemma cache_round_trip_witness :
  let st := started (jsonplaceholder_config AppTs) [axios_answers 200 post1] in
  let options := get_options (VObj []) in
  let c := spread_request (Some "get") "/posts/1" options in
  let response := {| res_data := post1; res_status := 200;
                     res_config := axios_config (outgoing st c) |} in
  (cache_miss (getCacheKey c) st
   ∧ Forall (plain_failure (config st)) []
   ∧ Z.of_nat (length (@nil Exchange)) < retryAttempts (config st)
   ∧ respond (axios_answers 200 post1) (outgoing st c) = Success response
   ∧ cacheEnabled (config st) = true
   ∧ 0 < cacheDuration (config st)
   ∧ getCacheKey (res_config response) = getCacheKey c
   ∧ truthy (decoded json_parse (res_data response)) = true)
  ∧ ∃ st',
      request json_parse getNewAccessToken_placeholder AppTs (Some "get") "/posts/1"
        options st
      = (Fulfilled (Wrapper response), st')
      ∧ ∀ later,
          cacheEnabled (config later) = true →
          cache later !! getCacheKey c = cache st' !! getCacheKey c →
          now later ≤ now st' + cacheDuration (config st) →
          request json_parse getNewAccessToken_placeholder AppTs (Some "get") "/posts/1"
            options later
          = (Fulfilled (Body post1), later).
Proof.
  intros st options c response.
  assert (H1 : cache_miss (getCacheKey c) st) by (vm_compute; reflexivity).
  assert (H2 : Forall (plain_failure (config st)) []) by constructor.
  assert (H3 : Z.of_nat (length (@nil Exchange)) < retryAttempts (config st))
    by reflexivity.
  assert (H4 : getCacheKey (res_config response) = getCacheKey c)
    by (vm_compute; reflexivity).
  assert (H5 : 0 < cacheDuration (config st)) by reflexivity.
  split; [repeat split; try assumption; reflexivity|].
  exact (cache_round_trip json_parse getNewAccessToken_placeholder AppTs (Some "get")
           "/posts/1" options c st [] (axios_answers 200 post1) [] response
           eq_refl H1 eq_refl H2 H3 eq_refl eq_refl H5 H4 eq_refl).
Defined.

Lemma fulfilled_answers_witness :
  let st := started (jsonplaceholder_config AppTs) [answers 200 post1] in
  let c := get_request "/posts/1" (VObj []) in
  let response := {| res_data := post1; res_status := 200; res_config := outgoing st c |} in
  let st' := with_entry "GET-/posts/1-{}-{}" post1 300000
               (delivered (outgoing st c) 20 [] st) in
  (0 < retryAttempts (config st)
   ∧ request json_parse getNewAccessToken_placeholder AppTs (Some "GET") "/posts/1"
       (get_options (VObj [])) st
     = (Fulfilled (Wrapper response), st'))
  ∧ ∃ response1 st1,
      Wrapper response = Wrapper response1
      ∧ st' = cached_response json_parse response1 st1.
Proof.
  intros st c response st'.
  assert (H1 : 0 < retryAttempts (config st)) by reflexivity.
  assert (H2 : request json_parse getNewAccessToken_placeholder AppTs (Some "GET")
                 "/posts/1" (get_options (VObj [])) st
               = (Fulfilled (Wrapper response), st')) by (vm_compute; reflexivity).
  split; [split; assumption|].
  exact (fulfilled_answers json_parse getNewAccessToken_placeholder AppTs (Some "GET")
           "/posts/1" (get_options (VObj [])) st (Wrapper response) st' H1 H2).
Defined.

Lemma first_request_sent_witness :
  let st := started (jsonplaceholder_config AppJs) [answers 200 post1] in
  let options := {| method := None; url := None; params := VUndefined;
                    data := VNum 0; headers := ∅ |} in
  (cache_miss (getCacheKey (spread_request (Some "GET") "/count" options)) st
   ∧ 0 < retryAttempts (config st))
  ∧ ∃ first tail,
      log (snd (request json_parse getNewAccessToken_placeholder AppJs None "/count"
                  options st))
      = (log st ++ Sent first :: tail)%list
      ∧ method first = Some "GET"
      ∧ url first = Some "/count"
      ∧ params first = VUndefined ∧ data first = VNum 0
      ∧ headers first = getAuthHeaders (auth (config st)) ∅.
Proof.
  intros st options.
  assert (H1 : cache_miss (getCacheKey (spread_request (Some "GET") "/count" options)) st)
    by (vm_compute; reflexivity).
  assert (H2 : 0 < retryAttempts (config st)) by reflexivity.
  split; [split; assumption|].
  exact (first_request_sent json_parse getNewAccessToken_placeholder AppJs None "/count"
           options st H1 H2).
Defined.

Lemma facade_config_overrides_witness :
  let st := started (jsonplaceholder_config AppTs) [answers 200 post1] in
  let cfg := {| method := Some "DELETE"; url := None; params := VUndefined;
                data := VObj [("title", VStr "y")]; headers := ∅ |} in
  let facade := put json_parse getNewAccessToken_placeholder in
  (("PUT", facade)
     ∈ [("POST", post json_parse getNewAccessToken_placeholder);
        ("PUT", put json_parse getNewAccessToken_placeholder);
        ("PATCH", patch json_parse getNewAccessToken_placeholder)]
   ∧ cache_miss (getCacheKey (spread_request (Some "PUT") "/posts/1"
                                (body_then (or_empty_object post1) cfg))) st
   ∧ 0 < retryAttempts (config st))
  ∧ ∃ first tail,
      log (snd (facade AppTs "/posts/1" post1 cfg st)) = (log st ++ Sent first :: tail)%list
      ∧ method first = Some "DELETE"
      ∧ url first = Some "/posts/1"
      ∧ data first = VObj [("title", VStr "y")]
      ∧ params first = VUndefined.
Proof.
  intros st cfg facade.
  assert (H1 : ("PUT", facade)
                 ∈ [("POST", post json_parse getNewAccessToken_placeholder);
                    ("PUT", put json_parse getNewAccessToken_placeholder);
                    ("PATCH", patch json_parse getNewAccessToken_placeholder)])
    by (apply list_elem_of_further, list_elem_of_here).
  assert (H2 : cache_miss (getCacheKey (spread_request (Some "PUT") "/posts/1"
                                          (body_then (or_empty_object post1) cfg))) st)
    by (vm_compute; reflexivity).
  assert (H3 : 0 < retryAttempts (config st)) by reflexivity.
  split; [repeat split; assumption|].
  exact (facade_config_overrides json_parse getNewAccessToken_placeholder AppTs "PUT"
           facade "/posts/1" post1 cfg st H1 H2 H3).
Defined.

Lemma graphql_calls_are_posts_witness :
  let st := started (jsonplaceholder_config AppJs) [axios_answers 200 post1] in
  (cache_miss (getCacheKey (spread_request (Some "POST") "/graphql"
                              (graphql_options "{ me { id } }" VUndefined))) st
   ∧ 0 < retryAttempts (config st))
  ∧ mutationGraphQL json_parse getNewAccessToken_placeholder AppJs "/graphql"
      "{ me { id } }" VUndefined
    = queryGraphQL json_parse getNewAccessToken_placeholder AppJs "/graphql"
        "{ me { id } }" VUndefined
  ∧ ∃ first tail,
      log (snd (mutationGraphQL json_parse getNewAccessToken_placeholder AppJs "/graphql"
                  "{ me { id } }" VUndefined st))
      = (log st ++ Sent first :: tail)%list
      ∧ method first = Some "POST"
      ∧ url first = Some "/graphql"
      ∧ params first = VUndefined
      ∧ data first = VObj [("query", VStr "{ me { id } }"); ("variables", VObj [])].
Proof.
  intros st.
  assert (H1 : cache_miss (getCacheKey (spread_request (Some "POST") "/graphql"
                                          (graphql_options "{ me { id } }" VUndefined)))
                 st) by (vm_compute; reflexivity).
  assert (H2 : 0 < retryAttempts (config st)) by reflexivity.
  split; [split; assumption|].
  exact (graphql_calls_are_posts json_parse getNewAccessToken_placeholder AppJs "/graphql"
           "{ me { id } }" VUndefined st H1 H2).
Defined.

Lemma chat_with_cache_member_witness :
  let w := assigned_cacheEnabled
             (new_OpenAIWrapper openai_config [fun _ => Normal completion_hello]
                (started (jsonplaceholder_config AppTs) [answers 200 post1])) in
  let p := VObj [("model", VStr "gpt-4")] in
  truthy (own_cacheEnabled w) = true
  ∧ chat json_parse getNewAccessToken_placeholder p w
    = inherited (get json_parse getNewAccessToken_placeholder AppTs
                   ("chat-{" ++ quote "model" ++ ":" ++ quote "gpt-4" ++ "}") VUndefined) w
  ∧ createImage json_parse getNewAccessToken_placeholder p w
    = inherited (get json_parse getNewAccessToken_placeholder AppTs
                   ("image-{" ++ quote "model" ++ ":" ++ quote "gpt-4" ++ "}") VUndefined) w.
Proof.
  intros w p. split; [reflexivity|].
  exact (chat_with_cache_member json_parse getNewAccessToken_placeholder p w eq_refl).
Defined.

Lemma chat_without_cache_member_witness :
  let x := fun _ : value => Normal completion_hello in
  let w := new_OpenAIWrapper openai_config [x]
             (started (jsonplaceholder_config AppTs) [answers 200 post1]) in
  let p := VObj [("model", VStr "gpt-4")] in
  (oa_cacheEnabled openai_config = Some true
   ∧ truthy (own_cacheEnabled w) = false
   ∧ client w = [x])
  ∧ chat json_parse getNewAccessToken_placeholder p w
    = (Fulfilled (Body completion_hello),
       answered (ClientCalled ChatCompletionsCreate p) [] w)
  ∧ createImage json_parse getNewAccessToken_placeholder p w
    = (Fulfilled (Body completion_hello), answered (ClientCalled ImagesGenerate p) [] w).
Proof.
  intros x w p. split; [repeat split; reflexivity|].
  exact (chat_without_cache_member json_parse getNewAccessToken_placeholder p w x []
           eq_refl eq_refl).
Defined.

Lemma analyze_first_content_witness :
  let x := fun _ : value => Normal completion_hello in
  let w := new_OpenAIWrapper openai_config [x]
             (started (jsonplaceholder_config AppTs) []) in
  (truthy (own_cacheEnabled w) = false
   ∧ client w = [x]
   ∧ x (analysis_request "Hi there" "Reply politely") = Normal completion_hello
   ∧ in_choices completion_hello = Normal true)
  ∧ analyze json_parse getNewAccessToken_placeholder "Hi there" "Reply politely" w
    = (Fulfilled (VStr "hello"),
       answered (ClientCalled ChatCompletionsCreate
                   (analysis_request "Hi there" "Reply politely")) [] w).
Proof.
  intros x w. split; [repeat split; reflexivity|].
  exact (analyze_first_content json_parse getNewAccessToken_placeholder "Hi there"
           "Reply politely" w x []
           [("id", VStr "chatcmpl-1");
            ("choices",
             VArr [VObj [("index", VNum 0);
                         ("message", VObj [("role", VStr "assistant");
                                           ("content", VStr "hello")])]])]
           eq_refl eq_refl eq_refl eq_refl).
Defined.

Lemma summarize_and_translate_calls_witness :
  let w := new_OpenAIWrapper openai_config [fun _ : value => Normal completion_hello]
             (started (jsonplaceholder_config AppTs) []) in
  truthy (own_cacheEnabled w) = false
  ∧ summarize json_parse getNewAccessToken_placeholder "A long text" (Some 0)
    = summarize json_parse getNewAccessToken_placeholder "A long text" None
  ∧ history (summarize json_parse getNewAccessToken_placeholder "A long text" (Some 50)
               w).2
    = (history w
       ++ [ClientCalled ChatCompletionsCreate
             (analysis_request "A long text"
                ("Summarize the following text in no more than " ++ pretty 50
                 ++ " words:"))])%list
  ∧ http (summarize json_parse getNewAccessToken_placeholder "A long text" (Some 50) w).2
    = http w
  ∧ history (translate json_parse getNewAccessToken_placeholder "A long text" "French"
               w).2
    = (history w
       ++ [ClientCalled ChatCompletionsCreate
             (analysis_request "A long text" "Translate the following text to French:")])%list
  ∧ http (translate json_parse getNewAccessToken_placeholder "A long text" "French" w).2
    = http w.
Proof.
  intros w. split; [reflexivity|].
  exact (summarize_and_translate_calls json_parse getNewAccessToken_placeholder
           "A long text" "French" (Some 50) w eq_refl).
Defined.
